(** * dev-browser: element identity and the DOM-to-text pipeline

    A shallow embedding of

    - [backend-ids.ts]: [resolveBackendIds], [resolveSelectorFromBackendId],
      [isBackendNodeIdValid] and the in-page [BUILD_SELECTOR_FUNCTION];
    - [dom/index.ts]: [getLLMTree], [processTree], [serializeDOMTree].

    Strings are sequences of code units below 256 (the Latin-1 range of
    JavaScript strings), numbers that the code uses as integers are [Z]. *)

From Stdlib Require Import Ascii String ZArith.
From stdpp Require Import base option list strings gmap pretty.

Set Warnings "-register-all".

Open Scope string_scope.
Open Scope Z_scope.

(** ** JavaScript strings *)

Module Js.

(** The double quote, which is kept out of string literals. *)
Definition dquote : string := String (ascii_of_nat 34) EmptyString.

(** Truthiness of a string: every string but the empty one. *)
Definition truthy (s : string) : bool :=
  match s with
  | EmptyString => false
  | String _ _ => true
  end.

(** Truthiness of [string | null], the result of [getAttribute]. *)
Definition truthy_opt (o : option string) : bool :=
  match o with
  | None => false
  | Some s => truthy s
  end.

(** Truthiness of a number that is not NaN. *)
Definition truthy_num (n : Z) : bool := negb (n =? 0).

(** [c.toLowerCase()] on one code unit below 256: A-Z and the upper-case
    letters of Latin-1 (U+00C0 to U+00DE without the multiplication sign)
    move up by 32, everything else is kept. *)
Definition char_toLowerCase (c : ascii) : ascii :=
  let n := N_of_ascii c in
  if ((65 <=? n) && (n <=? 90) ||
      (192 <=? n) && (n <=? 222) && negb (n =? 215))%N
  then ascii_of_N (n + 32)
  else c.

Fixpoint toLowerCase (s : string) : string :=
  match s with
  | EmptyString => EmptyString
  | String c rest => String (char_toLowerCase c) (toLowerCase rest)
  end.

(** [parts.join(sep)]. *)
Definition join (sep : string) (parts : list string) : string :=
  String.concat sep parts.

(** [arr.indexOf(x)] with the equality test given as a predicate:
    the first position that satisfies it, -1 when there is none. *)
Fixpoint indexOf_from {A} (p : A -> bool) (l : list A) (i : Z) : Z :=
  match l with
  | [] => -1
  | x :: rest => if p x then i else indexOf_from p rest (i + 1)
  end.

Definition indexOf {A} (p : A -> bool) (l : list A) : Z := indexOf_from p l 0.

(** Backslash escapes that stand for the escaped character itself.  These are
    the only escapes in the text of [BUILD_SELECTOR_FUNCTION]; the same rule
    cooks the template literal, evaluates a quoted string and reads an escaped
    member of a regular-expression class. *)
Fixpoint unescape (s : string) : string :=
  match s with
  | String "\" (String c rest) => String c (unescape rest)
  | String c rest => String c (unescape rest)
  | EmptyString => EmptyString
  end.

(** The members of a regular-expression class that has no ranges and is not
    negated: the text between the brackets, escapes read. *)
Definition class_members (body : string) : list ascii :=
  list_ascii_of_string (unescape body).

(** A replacement pattern of [String.prototype.replace]: [$1] is the first
    group, [$$] a dollar sign, anything else is literal. *)
Fixpoint expand_replacement (pat : string) (group1 : string) : string :=
  match pat with
  | String "$" (String "1" rest) => group1 +:+ expand_replacement rest group1
  | String "$" (String "$" rest) => String "$" (expand_replacement rest group1)
  | String c rest => String c (expand_replacement rest group1)
  | EmptyString => EmptyString
  end.

(** [str.replace(/([...])/g, pat)]: the pattern is one group around one class,
    so a match is one character and the global replacement visits the
    characters from left to right. *)
Fixpoint replace_class_g (members : list ascii) (pat : string) (str : string)
  : string :=
  match str with
  | EmptyString => EmptyString
  | String c rest =>
      (if bool_decide (c ∈ members)
       then expand_replacement pat (String c EmptyString)
       else String c EmptyString)
      +:+ replace_class_g members pat rest
  end.

End Js.

(** ** The in-page selector synthesis, [BUILD_SELECTOR_FUNCTION] *)

Module Selector.

(** The class of [escapeSelector] as the TypeScript file spells it, inside the
    template literal (between the brackets of the class). *)
Definition escape_class_source : string :=
  "!" +:+ Js.dquote +:+ "#$%&'()*+,./:;<=>?@[\\\\\\]^\\\`{|}~".

(** The replacement of [escapeSelector] as the file spells it, between the
    single quotes. *)
Definition escape_replacement_source : string := "\\\\$1".

(** What the page receives once the template literal is cooked. *)
Definition escape_class_in_page : string := Js.unescape escape_class_source.
Definition escape_replacement_in_page : string :=
  Js.unescape escape_replacement_source.

Definition escapeSelector (str : string) : string :=
  Js.replace_class_g
    (Js.class_members escape_class_in_page)
    (Js.unescape escape_replacement_in_page)
    str.

(** *** The document tree

    An element carries its tag name, its attributes and its child elements.
    A reference to an element is the element together with the way up: one
    frame per ancestor, the parent first, each with the position of the node
    below it among the children of that ancestor.  Two references into one
    tree denote the same node exactly when their positions agree. *)

Inductive Element : Type := mkElement {
  tagName : string;
  attributes : gmap string string;
  children : list Element
}.

Record Frame : Type := mkFrame {
  frame_parent : Element;
  frame_position : nat
}.

Record ElementRef : Type := mkRef {
  target : Element;
  ancestors : list Frame
}.

(** [el.getAttribute(name)]: the value, or null. *)
Definition getAttribute (el : Element) (name : string) : option string :=
  attributes el !! name.

(** [el.id] reflects the [id] attribute and is the empty string without it. *)
Definition element_id (el : Element) : string :=
  default "" (getAttribute el "id").

(** Where a node sits in its tree, nearest position first. *)
Definition place (up : list Frame) : list nat := map frame_position up.

(** [el !== document.body]; [body] is the place of [document.body] in the tree
    of [el], and [None] when the document has no body or [el] is in a tree that
    is detached from it. *)
Definition is_body (body : option (list nat)) (up : list Frame) : bool :=
  bool_decide (body = Some (place up)).

(** [Array.from(parent.children).filter(c => c.tagName.toLowerCase() === tag)],
    every child with its position, which is its identity among the children. *)
Definition siblings_of (parent : Element) (tag : string)
  : list (nat * Element) :=
  filter (fun c => Js.toLowerCase (tagName c.2) = tag)
         (imap (fun i c => (i, c)) (children parent)).

(** The loop of priority 4.  [el] is [target] with the frames [up] above it;
    the loop ends at the body and at a node without parent element, and
    [path.unshift] puts the new segment in front. *)
Fixpoint walk (body : option (list nat)) (el : Element) (up : list Frame)
    (path : list string) {struct up} : list string :=
  if is_body body up then path
  else
    match up with
    | [] => path
    | f :: up' =>
        let tag := Js.toLowerCase (tagName el) in
        let parent := frame_parent f in
        let siblings := siblings_of parent tag in
        let path' :=
          if bool_decide (1 < Z.of_nat (length siblings))
          then
            let idx :=
              Js.indexOf (fun c => bool_decide (c.1 = frame_position f))
                         siblings + 1 in
            (tag +:+ ":nth-of-type(" +:+ pretty idx +:+ ")") :: path
          else tag :: path in
        walk body parent up' path'
    end.

(** Priority 4, from the comment of that name to the end of the function. *)
Definition nth_of_type_path (body : option (list nat)) (this : ElementRef)
    (tagName : string) : string :=
  let path := walk body (target this) (ancestors this) [] in
  if bool_decide (0 < Z.of_nat (length path))
  then "body > " +:+ Js.join " > " path
  else tagName.

Definition form_controls : list string := ["input"; "select"; "textarea"].

Definition BUILD_SELECTOR_FUNCTION (body : option (list nat))
    (this : ElementRef) : string :=
  let el := target this in
  if Js.truthy (element_id el) then "#" +:+ escapeSelector (element_id el)
  else
    let testId := getAttribute el "data-testid" in
    if Js.truthy_opt testId
    then "[data-testid=" +:+ Js.dquote +:+ escapeSelector (default "" testId)
         +:+ Js.dquote +:+ "]"
    else
      let tagName := Js.toLowerCase (tagName el) in
      let name := getAttribute el "name" in
      if Js.truthy_opt name &&
         negb (Js.indexOf (fun t => bool_decide (t = tagName)) form_controls
               =? -1)
      then tagName +:+ "[name=" +:+ Js.dquote
           +:+ escapeSelector (default "" name) +:+ Js.dquote +:+ "]"
      else nth_of_type_path body this tagName.

(** A reference is well formed when every frame holds, at its position, the
    node below it. *)
Fixpoint wf_ref (el : Element) (up : list Frame) : Prop :=
  match up with
  | [] => True
  | f :: up' =>
      children (frame_parent f) !! frame_position f = Some el /\
      wf_ref (frame_parent f) up'
  end.

(** Going down from a node to its [i]-th child. *)
Definition child_ref (r : ElementRef) (i : nat) : option ElementRef :=
  c ← children (target r) !! i;
  Some (mkRef c (mkFrame (target r) i :: ancestors r)).

Fixpoint descend (r : ElementRef) (route : list nat) : option ElementRef :=
  match route with
  | [] => Some r
  | i :: rest => r' ← child_ref r i; descend r' rest
  end.

Definition root_ref (root : Element) : ElementRef := mkRef root [].

(** *** A small page: two buttons without attributes in a division, and a
    form with named and identified controls. *)

Definition leaf (tag : string) (attrs : list (string * string)) : Element :=
  mkElement tag (list_to_map attrs) [].

Definition sample_html : Element :=
  mkElement "HTML" ∅
    [ mkElement "HEAD" ∅ [ leaf "TITLE" [] ];
      mkElement "BODY" ∅
        [ mkElement "DIV" ∅ [ leaf "BUTTON" []; leaf "SPAN" [];
                              leaf "BUTTON" [] ];
          mkElement "FORM" ∅
            [ leaf "INPUT" [("name", "user.name")];
              leaf "INPUT" [("id", "e:mail"); ("data-testid", "mail");
                            ("name", "email")];
              leaf "BUTTON" [("data-testid", "go"); ("name", "go")];
              leaf "DIV" [("name", "plain")] ] ] ].

(** [document.body] of the sample page: child 1 of the root. *)
Definition sample_body : option (list nat) := Some [1%nat].

(** The node of the sample page at the end of [route], the root where the
    route leaves the tree. *)
Definition sample_ref (route : list nat) : ElementRef :=
  default (root_ref sample_html) (descend (root_ref sample_html) route).

Definition sample_second_button : ElementRef := sample_ref [1; 0; 2]%nat.
Definition sample_span : ElementRef := sample_ref [1; 0; 1]%nat.
Definition sample_user : ElementRef := sample_ref [1; 1; 0]%nat.
Definition sample_email : ElementRef := sample_ref [1; 1; 1]%nat.
Definition sample_go : ElementRef := sample_ref [1; 1; 2]%nat.
Definition sample_named_div : ElementRef := sample_ref [1; 1; 3]%nat.

End Selector.


(** *** The synthesis as the specification words it

    These definitions follow the text of the specification, section 4.5, and
    are compared with the code above. *)

Module SelectorSpec.

Import Selector.

(** The CSS special characters of the escaping rule. *)
Definition css_special : string :=
  "!" +:+ Js.dquote +:+ "#$%&'()*+,./:;<=>?@[\]^`{|}~".

Definition is_css_special (c : ascii) : bool :=
  bool_decide (c ∈ list_ascii_of_string css_special).

(** Every special character is prefixed with a backslash, every other
    character is left as it is. *)
Fixpoint escape_by_spec (s : string) : string :=
  match s with
  | EmptyString => EmptyString
  | String c rest =>
      if is_css_special c
      then String "\" (String c (escape_by_spec rest))
      else String c (escape_by_spec rest)
  end.

(** Reading an escaped value back: a backslash stands for the character after
    it. *)
Definition unescape_value (s : string) : string := Js.unescape s.

Definition lower_tag (el : Element) : string := Js.toLowerCase (tagName el).

(** The children of [parent] that have the tag [tag]. *)
Definition same_tag_children (parent : Element) (tag : string)
  : list Element :=
  filter (fun c => lower_tag c = tag) (children parent).

(** The 1-based position of the child at [pos] among the children of its tag:
    one more than the number of such children before it. *)
Definition position_of_type (parent : Element) (pos : nat) (tag : string)
  : nat :=
  S (length (filter (fun c => lower_tag c = tag) (take pos (children parent)))).

(** One segment of the path. *)
Definition segment_by_spec (el : Element) (f : Frame) : string :=
  let tag := lower_tag el in
  if decide (1 < length (same_tag_children (frame_parent f) tag))%nat
  then tag +:+ ":nth-of-type("
       +:+ pretty (position_of_type (frame_parent f) (frame_position f) tag)
       +:+ ")"
  else tag.

(** The levels of the walk, the element first: every node from the element
    upwards that is not the body and has a parent. *)
Fixpoint levels (body : option (list nat)) (el : Element) (up : list Frame)
  : list (Element * Frame) :=
  if is_body body up then []
  else
    match up with
    | [] => []
    | f :: up' => (el, f) :: levels body (frame_parent f) up'
    end.

(** The segments from the outermost level down to the element. *)
Definition segments_by_spec (body : option (list nat)) (this : ElementRef)
  : list string :=
  rev (map (fun lv => segment_by_spec lv.1 lv.2)
           (levels body (target this) (ancestors this))).

Definition path_by_spec (body : option (list nat)) (this : ElementRef)
  : string :=
  match segments_by_spec body this with
  | [] => lower_tag (target this)
  | segs => "body > " +:+ Js.join " > " segs
  end.

(** The tag is one of the form-control tags. *)
Definition is_form_control (tag : string) : Prop :=
  tag = "input" \/ tag = "select" \/ tag = "textarea".

(** A value that is present and not empty. *)
Definition non_empty (o : option string) : Prop :=
  exists v, o = Some v /\ v <> "".

End SelectorSpec.

(** ** The browser session layer

    [backend-ids.ts] talks to the browser through Playwright: a CDP session is
    opened on a page, commands are sent over it, and it is detached.  Each of
    the three may be rejected.  The browser is a state of a type [B] with the
    three operations; the code is written in a monad that threads this state,
    carries a thrown value, and records every operation it performs. *)

Module Cdp.

(** Thrown values: a call that the browser rejects, or [new Error(message)]
    thrown by the code. *)
Inductive Exn : Type :=
| Rejected (message : string)
| Error (message : string).

Definition Session : Type := nat.
Definition Page : Type := nat.

(** The fields of the CDP types that the code reads. *)
Record Node : Type := mkNode {
  nodeId : Z;
  backendNodeId : Z
}.

Record RemoteObject : Type := mkRemoteObject {
  objectId : option string;
  value : string
}.

Record ExceptionDetails : Type := mkExceptionDetails {
  text : string
}.

Record CallResult : Type := mkCallResult {
  result : RemoteObject;
  exceptionDetails : option ExceptionDetails
}.

(** The functions that are sent to the page as text. *)
Inductive FunctionDeclaration : Type :=
| BUILD_SELECTOR_FUNCTION.

(** The commands, each with the type of the field of its answer that the code
    takes: [root], [nodeId], [node], [object], the whole answer, nothing. *)
Inductive Command : Type -> Type :=
| DOM_getDocument (depth : Z) : Command Node
| DOM_querySelector (nodeId : Z) (selector : string) : Command Z
| DOM_describeNode (nodeId : Z) : Command Node
| DOM_resolveNode (backendNodeId : Z) (objectGroup : option string)
  : Command RemoteObject
| Runtime_callFunctionOn (objectId : string)
    (functionDeclaration : FunctionDeclaration) (returnByValue : bool)
  : Command CallResult
| Runtime_releaseObjectGroup (objectGroup : string) : Command unit.

Class Browser (B : Type) : Type := {
  newCDPSession : Page -> B -> B * (Exn + Session);
  send : forall {R : Type}, Session -> Command R -> B -> B * (Exn + R);
  detach : Session -> B -> B * (Exn + unit)
}.

(** What a call did, in order. *)
Inductive Event : Type :=
| NewSession (page : Page) (opened : option Session)
| Send (session : Session) (R : Type) (command : Command R)
| Detach (session : Session).

Record World (B : Type) : Type := mkWorld {
  browser : B;
  trace : list Event
}.
Arguments mkWorld {B} _ _.
Arguments browser {B} _.
Arguments trace {B} _.

Definition M (B A : Type) : Type := World B -> World B * (Exn + A).

Global Instance M_ret {B} : MRet (M B) := fun A x w => (w, inr x).

Global Instance M_bind {B} : MBind (M B) := fun A A' f m w =>
  match m w with
  | (w', inl e) => (w', inl e)
  | (w', inr a) => f a w'
  end.

Definition throw {B A} (e : Exn) : M B A := fun w => (w, inl e).

(** [try { body } catch { handler }]. *)
Definition try_catch {B A} (body : M B A) (handler : Exn -> M B A) : M B A :=
  fun w =>
    match body w with
    | (w', inl e) => handler e w'
    | (w', inr a) => (w', inr a)
    end.

(** [try { body } finally { finalizer }]: the finalizer runs on every way out
    of the body, and a value thrown by the finalizer replaces the outcome. *)
Definition try_finally {B A} (body : M B A) (finalizer : M B unit) : M B A :=
  fun w =>
    let '(w1, outcome) := body w in
    match finalizer w1 with
    | (w2, inl e) => (w2, inl e)
    | (w2, inr _) => (w2, outcome)
    end.

Definition opened_session (r : Exn + Session) : option Session :=
  match r with
  | inl _ => None
  | inr s => Some s
  end.

Section Operations.

Context {B : Type} `{Browser B}.

(** [await context.newCDPSession(page)]. *)
Definition context_newCDPSession (page : Page) : M B Session := fun w =>
  let '(b, r) := newCDPSession page (browser w) in
  (mkWorld b (trace w ++ [NewSession page (opened_session r)]), r).

(** [await cdpSession.send(method, params)]. *)
Definition cdpSession_send {R} (cdpSession : Session) (c : Command R)
  : M B R := fun w =>
  let '(b, r) := send cdpSession c (browser w) in
  (mkWorld b (trace w ++ [Send cdpSession R c]), r).

(** [await cdpSession.detach()]. *)
Definition cdpSession_detach (cdpSession : Session) : M B unit := fun w =>
  let '(b, r) := detach cdpSession (browser w) in
  (mkWorld b (trace w ++ [Detach cdpSession]), r).

End Operations.

End Cdp.

(** ** [Map], in insertion order *)

Module JsMap.

Definition t (K V : Type) : Type := list (K * V).

Definition empty {K V} : t K V := [].

Definition keys {K V} (m : t K V) : list K := m.*1.

Definition values {K V} (m : t K V) : list V := m.*2.

Definition size {K V} (m : t K V) : nat := length m.

Fixpoint get `{EqDecision K} {V} (k : K) (m : t K V) : option V :=
  match m with
  | [] => None
  | (k', v) :: rest => if decide (k = k') then Some v else get k rest
  end.

(** [m.set(k, v)]: a present key keeps its place and takes the new value, a
    new key goes to the end. *)
Fixpoint set `{EqDecision K} {V} (k : K) (v : V) (m : t K V) : t K V :=
  match m with
  | [] => [(k, v)]
  | (k', v') :: rest =>
      if decide (k = k') then (k, v) :: rest else (k', v') :: set k v rest
  end.

End JsMap.

(** ** [backend-ids.ts] *)

Module BackendIds.

Import Cdp.

Section Functions.

Context {B : Type} `{Browser B}.

(** [for (const [index, selector] of selectorMap) body], the map that the
    body updates passed from turn to turn. *)
Fixpoint for_of {K V S} (entries : JsMap.t K V) (body : K -> V -> S -> M B S)
    (acc : S) : M B S :=
  match entries with
  | [] => mret acc
  | (k, v) :: rest => acc' ← body k v acc; for_of rest body acc'
  end.

(** One turn of the loop of [resolveBackendIds]: the inner [try] with its
    empty [catch].  [indexToBackendId.set] is the last statement of the
    [try], so the map is changed only when nothing was thrown. *)
Definition resolve_entry (cdpSession : Session) (root : Node) (index : Z)
    (selector : string) (indexToBackendId : JsMap.t Z Z)
  : M B (JsMap.t Z Z) :=
  try_catch
    (nodeId ← cdpSession_send cdpSession
                (DOM_querySelector (Cdp.nodeId root) selector);
     if Js.truthy_num nodeId && negb (nodeId =? 0)
     then
       node ← cdpSession_send cdpSession (DOM_describeNode nodeId);
       mret (JsMap.set index (backendNodeId node) indexToBackendId)
     else mret indexToBackendId)
    (fun _ => mret indexToBackendId).

Definition resolveBackendIds (page : Page) (selectorMap : JsMap.t Z string)
  : M B (JsMap.t Z Z) :=
  cdpSession ← context_newCDPSession page;
  let indexToBackendId : JsMap.t Z Z := JsMap.empty in
  try_finally
    (root ← cdpSession_send cdpSession (DOM_getDocument 0);
     indexToBackendId ←
       for_of selectorMap (resolve_entry cdpSession root) indexToBackendId;
     mret indexToBackendId)
    (cdpSession_detach cdpSession).

(** [if (cond) { throw e; }]. *)
Definition throw_if (cond : bool) (e : Exn) : M B unit :=
  if cond then throw e else mret ().

Definition resolveSelectorFromBackendId (page : Page) (backendNodeId : Z)
  : M B string :=
  cdpSession ← context_newCDPSession page;
  try_finally
    (object ← cdpSession_send cdpSession
                (DOM_resolveNode backendNodeId (Some "devbrowser-selector"));
     _ ← throw_if (negb (Js.truthy_opt (objectId object)))
           (Error "Could not resolve node to object");
     result ← cdpSession_send cdpSession
                (Runtime_callFunctionOn (default "" (objectId object))
                   BUILD_SELECTOR_FUNCTION true);
     _ ← cdpSession_send cdpSession
           (Runtime_releaseObjectGroup "devbrowser-selector");
     _ ← throw_if (bool_decide (is_Some (exceptionDetails result)))
           (Error ("Failed to build selector: " +:+
                   default "" (text <$> exceptionDetails result)));
     mret (value (Cdp.result result)))
    (cdpSession_detach cdpSession).

Definition isBackendNodeIdValid (page : Page) (backendNodeId : Z)
  : M B bool :=
  cdpSession ← context_newCDPSession page;
  try_finally
    (try_catch
       (_ ← cdpSession_send cdpSession (DOM_resolveNode backendNodeId None);
        mret true)
       (fun _ => mret false))
    (cdpSession_detach cdpSession).

(** *** What the calls do to the browser, for the statements below *)

(** A call that was answered, not rejected. *)
Definition answered {A} (r : Exn + A) : bool :=
  match r with
  | inl _ => false
  | inr _ => true
  end.

(** The browser after one turn of the loop of [resolveBackendIds] and the
    backend node id that the turn found, if it found one. *)
Definition lookup_selector (cdpSession : Session) (root : Node)
    (selector : string) (b : B) : B * option Z :=
  match send cdpSession (DOM_querySelector (Cdp.nodeId root) selector) b with
  | (b1, inl _) => (b1, None)
  | (b1, inr nodeId) =>
      if Js.truthy_num nodeId && negb (nodeId =? 0)
      then
        match send cdpSession (DOM_describeNode nodeId) b1 with
        | (b2, inl _) => (b2, None)
        | (b2, inr node) => (b2, Some (backendNodeId node))
        end
      else (b1, None)
  end.

(** The browser after the whole loop, and the map that the loop has built. *)
Fixpoint collect (cdpSession : Session) (root : Node)
    (entries : JsMap.t Z string) (acc : JsMap.t Z Z) (b : B)
  : B * JsMap.t Z Z :=
  match entries with
  | [] => (b, acc)
  | (index, selector) :: rest =>
      let '(b', found) := lookup_selector cdpSession root selector b in
      collect cdpSession root rest
        (match found with
         | Some backend => JsMap.set index backend acc
         | None => acc
         end) b'
  end.

(** The handle does not denote a resolvable object: [DOM.resolveNode] is
    rejected or answers without an object id. *)
Definition unresolvable (r : Exn + RemoteObject) : Prop :=
  match r with
  | inl _ => True
  | inr object => Js.truthy_opt (objectId object) = false
  end.

(** The synthesis function fails in the page: [Runtime.callFunctionOn] is
    rejected or answers with exception details. *)
Definition synthesis_fails (r : Exn + CallResult) : Prop :=
  match r with
  | inl _ => True
  | inr result => is_Some (exceptionDetails result)
  end.

End Functions.

(** *** The shape of the trace of one call *)

Definition sent_on (s : Session) (e : Event) : Prop :=
  match e with
  | Send s' _ _ => s' = s
  | _ => False
  end.

(** What the operations of a trace do to the browser, one after the other. *)
Fixpoint replay {B} `{Browser B} (events : list Event) (b : B) : B :=
  match events with
  | [] => b
  | NewSession page _ :: rest => replay rest (newCDPSession page b).1
  | Send s _ c :: rest => replay rest (send s c b).1
  | Detach s :: rest => replay rest (detach s b).1
  end.

(** A computation that does nothing but send commands over [s]: the trace
    grows by such commands, and the browser is the one they leave. *)
Definition sends_only {B A} `{Browser B} (s : Session) (m : M B A) : Prop :=
  forall w, exists t,
    trace (m w).1 = (trace w ++ t)%list /\ Forall (sent_on s) t /\
    browser (m w).1 = replay t (browser w).

(** A session is opened first, every command goes over that session, and the
    session is detached last; or no session could be opened and nothing else
    happened. *)
Definition scoped (page : Page) (events : list Event) : Prop :=
  events = [NewSession page None] \/
  exists s body,
    events = (NewSession page (Some s) :: body ++ [Detach s])%list /\
    Forall (sent_on s) body.

(** The selectors that were queried, in order. *)
Definition queried (events : list Event) : list string :=
  flat_map (fun e =>
              match e with
              | Send _ _ (DOM_querySelector _ selector) => [selector]
              | _ => []
              end) events.

End BackendIds.

(** ** A small browser

    One page with the nodes of [Selector.sample_html].  Sessions are numbered;
    a command on a session that is not attached is rejected, and so is a new
    session once the page is closed.  The tables say which node a selector
    finds, which backend node id a node has, and which backend node ids the
    engine still knows, each with the element it denotes and the place of
    [document.body] in the tree of that element. *)

Module MiniBrowser.

Import Cdp.

Record t : Type := mk {
  page_open : bool;
  next_session : nat;
  attached : list nat;
  root_node : Z;
  found : JsMap.t string Z;
  described : JsMap.t Z Z;
  retained : JsMap.t Z (option (list nat) * Selector.ElementRef)
}.

Definition answer {R} (c : Command R) (b : t) : Exn + R :=
  match c in Command R return Exn + R with
  | DOM_getDocument _ => inr (mkNode (root_node b) 1)
  | DOM_querySelector _ selector =>
      if bool_decide (selector = "")
      then inl (Rejected "DOM Error while querying")
      else inr (default 0 (JsMap.get selector (found b)))
  | DOM_describeNode n =>
      match JsMap.get n (described b) with
      | Some backend => inr (mkNode n backend)
      | None => inl (Rejected "Could not find node with given id")
      end
  | DOM_resolveNode backend _ =>
      match JsMap.get backend (retained b) with
      | Some _ => inr (mkRemoteObject (Some (pretty backend)) "")
      | None => inl (Rejected "No node with given id found")
      end
  | Runtime_callFunctionOn oid BUILD_SELECTOR_FUNCTION _ =>
      match List.find (fun entry => bool_decide (pretty entry.1 = oid))
                      (retained b) with
      | Some entry =>
          inr (mkCallResult
                 (mkRemoteObject None
                    (Selector.BUILD_SELECTOR_FUNCTION entry.2.1 entry.2.2))
                 None)
      | None => inl (Rejected "Could not find object with given id")
      end
  | Runtime_releaseObjectGroup _ => inr ()
  end.

Definition with_sessions (b : t) (next : nat) (sessions : list nat) : t :=
  mk (page_open b) next sessions (root_node b) (found b) (described b)
     (retained b).

Global Instance browser : Browser t := {
  newCDPSession _ b :=
    if page_open b
    then (with_sessions b (S (next_session b)) (next_session b :: attached b),
          inr (next_session b))
    else (b, inl (Rejected "Target page, context or browser has been closed"));
  send R s c b :=
    (b, if bool_decide (s ∈ attached b) then answer c b
        else inl (Rejected "Session closed"));
  detach s b :=
    if bool_decide (s ∈ attached b)
    then (with_sessions b (next_session b)
            (filter (fun s' => s' <> s) (attached b)), inr ())
    else (b, inl (Rejected "Session closed"))
}.

(** A button that was removed from the page: a tree of its own, without
    body. *)
Definition removed_button : Selector.ElementRef :=
  Selector.root_ref (Selector.leaf "BUTTON" [("id", "btn")]).

(** The sample page: two of its nodes can be found by selector, and the
    engine knows their backend node ids and that of the removed button. *)
Definition sample : t :=
  mk true 0 [] 1
     [("#e\:mail", 5); ("body > div > button:nth-of-type(2)", 7)]
     [(5, 105); (7, 107)]
     [(105, (Selector.sample_body, Selector.sample_email));
      (107, (Selector.sample_body, Selector.sample_second_button));
      (109, (None, removed_button))].

(** The sample page after it was closed. *)
Definition closed : t := mk false 0 [] 1 [] [] [].

Definition start (b : t) : World t := mkWorld b [].

(** One selector that matches, one that matches nothing, one that the engine
    cannot parse, and a second one that matches. *)
Definition sample_selectors : JsMap.t Z string :=
  [(1, "#e\:mail"); (2, "#nonexistent"); (3, "");
   (4, "body > div > button:nth-of-type(2)")].

End MiniBrowser.

(** ** [dom/index.ts]

    The stages of the pipeline are imported from files that are not part of
    the sources at hand ([extract.js], [visibility.js], [filters.js],
    [serialize.js]); they are the fields of a class.  Every call of a stage is
    recorded with its argument, so that the order of the calls and the tree
    that reaches each stage can be stated. *)

Module Dom.

Record LLMTreeResult : Type := mkResult {
  tree : string;
  selectorMap : JsMap.t Z string
}.

Class Stages (Page RawDOMNode GetLLMTreeOptions : Type) : Type := {
  (** [{}], the default of the [options] parameter *)
  no_options : GetLLMTreeOptions;
  (** [RawDOMNode | null] *)
  extractRawDOM : Page -> option RawDOMNode;
  (** [RawDOMNode | null] *)
  filterVisibleNodes : RawDOMNode -> option RawDOMNode;
  filterByPaintOrder : RawDOMNode -> RawDOMNode;
  filterByBboxPropagation : RawDOMNode -> RawDOMNode;
  serializeTree : RawDOMNode -> GetLLMTreeOptions -> LLMTreeResult
}.

Inductive Call (Page RawDOMNode GetLLMTreeOptions : Type) : Type :=
| Call_extractRawDOM (page : Page)
| Call_filterVisibleNodes (rawTree : RawDOMNode)
| Call_filterByPaintOrder (visibleTree : RawDOMNode)
| Call_filterByBboxPropagation (paintFiltered : RawDOMNode)
| Call_serializeTree (bboxFiltered : RawDOMNode) (options : GetLLMTreeOptions).
Arguments Call_extractRawDOM {Page RawDOMNode GetLLMTreeOptions} _.
Arguments Call_filterVisibleNodes {Page RawDOMNode GetLLMTreeOptions} _.
Arguments Call_filterByPaintOrder {Page RawDOMNode GetLLMTreeOptions} _.
Arguments Call_filterByBboxPropagation {Page RawDOMNode GetLLMTreeOptions} _.
Arguments Call_serializeTree {Page RawDOMNode GetLLMTreeOptions} _ _.

Section Pipeline.

Context {Page RawDOMNode GetLLMTreeOptions : Type}
        `{Stages Page RawDOMNode GetLLMTreeOptions}.

(** A value together with the calls that were made to compute it. *)
Definition Logged (A : Type) : Type :=
  list (Call Page RawDOMNode GetLLMTreeOptions) * A.

Definition ret {A} (x : A) : Logged A := ([], x).

Definition bind {A A'} (m : Logged A) (f : A -> Logged A') : Logged A' :=
  let '(calls, x) := m in
  let '(calls', y) := f x in
  ((calls ++ calls')%list, y).

(** A call of a stage: the call is recorded, the result is the stage's. *)
Definition call {A} (c : Call Page RawDOMNode GetLLMTreeOptions) (x : A)
  : Logged A := ([c], x).

Notation "x <- m ;; k" := (bind m (fun x => k))
  (at level 100, m at next level, right associativity).

(** The [options] parameter with its default [{}]. *)
Definition or_default (options : option GetLLMTreeOptions)
  : GetLLMTreeOptions :=
  default no_options options.

Definition getLLMTree (page : Page) (options : option GetLLMTreeOptions)
  : Logged LLMTreeResult :=
  let options := or_default options in
  rawTree <- call (Call_extractRawDOM page) (extractRawDOM page) ;;
  match rawTree with
  | None => ret (mkResult "" JsMap.empty)
  | Some rawTree =>
      visibleTree <- call (Call_filterVisibleNodes rawTree)
                          (filterVisibleNodes rawTree) ;;
      match visibleTree with
      | None => ret (mkResult "" JsMap.empty)
      | Some visibleTree =>
          paintFiltered <- call (Call_filterByPaintOrder visibleTree)
                                (filterByPaintOrder visibleTree) ;;
          bboxFiltered <- call (Call_filterByBboxPropagation paintFiltered)
                               (filterByBboxPropagation paintFiltered) ;;
          result <- call (Call_serializeTree bboxFiltered options)
                         (serializeTree bboxFiltered options) ;;
          ret result
      end
  end.

Definition extractDOMTree (page : Page) : Logged (option RawDOMNode) :=
  call (Call_extractRawDOM page) (extractRawDOM page).

Definition processTree (rawTree : RawDOMNode) : Logged (option RawDOMNode) :=
  visibleTree <- call (Call_filterVisibleNodes rawTree)
                      (filterVisibleNodes rawTree) ;;
  match visibleTree with
  | None => ret None
  | Some visibleTree =>
      paintFiltered <- call (Call_filterByPaintOrder visibleTree)
                            (filterByPaintOrder visibleTree) ;;
      bboxFiltered <- call (Call_filterByBboxPropagation paintFiltered)
                           (filterByBboxPropagation paintFiltered) ;;
      ret (Some bboxFiltered)
  end.

Definition serializeDOMTree (tree : RawDOMNode)
    (options : option GetLLMTreeOptions) : Logged LLMTreeResult :=
  let options := or_default options in
  call (Call_serializeTree tree options) (serializeTree tree options).

End Pipeline.

End Dom.

(** ** A small pipeline

    A page is a list of nodes, each a tag with two flags.  The visibility
    stage keeps the visible nodes and gives nothing when none is left, the
    paint-order stage drops the covered nodes, the bounding-box stage keeps
    its input, and the serializer numbers the nodes from 1. *)

Module MiniDom.

Import Dom.

Record node : Type := mk {
  tag : string;
  visible : bool;
  covered : bool
}.

Definition line (i : nat) (n : node) : string :=
  "[" +:+ pretty (S i) +:+ "]<" +:+ tag n +:+ " />".

Global Instance stages : Stages (list node) (list node) nat := {
  no_options := 100%nat;
  extractRawDOM page :=
    match page with
    | [] => None
    | _ => Some page
    end;
  filterVisibleNodes rawTree :=
    match filter (fun n => visible n = true) rawTree with
    | [] => None
    | kept => Some kept
    end;
  filterByPaintOrder visibleTree :=
    filter (fun n => covered n = false) visibleTree;
  filterByBboxPropagation paintFiltered := paintFiltered;
  serializeTree bboxFiltered options :=
    mkResult (Js.join " " (take options (imap line bboxFiltered)))
             (imap (fun i n => (Z.of_nat (S i), tag n)) bboxFiltered)
}.

Definition sample_page : list node :=
  [mk "button" true false; mk "div" false false; mk "a" true true;
   mk "input" true false].

Definition hidden_page : list node :=
  [mk "div" false false; mk "span" false true].

End MiniDom.

(** ** More about the selector synthesis *)

Module SelectorMore.

Import Selector.

(** A character that [escapeSelector] puts a backslash before: a member of the
    class of its regular expression. *)
Definition escaped (c : ascii) : bool :=
  bool_decide (c ∈ Js.class_members escape_class_in_page).

Fixpoint count_escaped (s : string) : nat :=
  match s with
  | EmptyString => 0%nat
  | String c rest => ((if escaped c then 1 else 0) + count_escaped rest)%nat
  end.

(** ASCII letters and digits, the hyphen, the underscore and the space. *)
Definition word_char (c : ascii) : bool :=
  let n := N_of_ascii c in
  ((48 <=? n) && (n <=? 57) || (65 <=? n) && (n <=? 90) ||
   (97 <=? n) && (n <=? 122) || (n =? 45) || (n =? 95) || (n =? 32))%N.

Fixpoint all_chars (p : ascii -> bool) (s : string) : bool :=
  match s with
  | EmptyString => true
  | String c rest => p c && all_chars p rest
  end.

(** The element gets to priority 4: the three tests before it fail. *)
Definition reaches_path (el : Element) : bool :=
  negb (Js.truthy (element_id el)) &&
  negb (Js.truthy_opt (getAttribute el "data-testid")) &&
  negb (Js.truthy_opt (getAttribute el "name") &&
        negb (Js.indexOf
                (fun t => bool_decide (t = Js.toLowerCase (tagName el)))
                form_controls =? -1)).

(** The index that the loop writes into an [nth-of-type] segment for the
    child at [pos] of [parent]. *)
Definition nth_index (parent : Element) (pos : nat) (tag : string) : Z :=
  Js.indexOf (fun c : nat * Element => bool_decide (c.1 = pos))
             (siblings_of parent tag) + 1.

(** The parts of a path, each followed by the separator: what [join] puts in
    front of a last part. *)
Fixpoint with_separators (sep : string) (parts : list string) : string :=
  match parts with
  | [] => EmptyString
  | x :: rest => x +:+ sep +:+ with_separators sep rest
  end.

End SelectorMore.

(** ** A browser with faults

    [MiniBrowser] with switches that make single operations fail: the document
    root, the object id of a resolved node, the call of the function in the
    page, the release of the object group and the detach. *)

Module FaultyBrowser.

Import Cdp.

Record faults : Type := mkFaults {
  reject_getDocument : bool;
  no_object_id : bool;
  reject_callFunctionOn : bool;
  exception_in_page : bool;
  reject_releaseObjectGroup : bool;
  reject_detach : bool
}.

Record t : Type := mk {
  inner : MiniBrowser.t;
  switches : faults
}.

Definition no_faults : faults := mkFaults false false false false false false.

Definition lifted {A} (b : t) (r : MiniBrowser.t * A) : t * A :=
  (mk r.1 (switches b), r.2).

Definition with_exception (r : Exn + CallResult) : Exn + CallResult :=
  match r with
  | inl e => inl e
  | inr call =>
      inr (mkCallResult (result call)
             (Some (mkExceptionDetails "Uncaught TypeError")))
  end.

Definition send_with_faults {R} (s : Session) (c : Command R) (b : t)
  : t * (Exn + R) :=
  match c in Command R return MiniBrowser.t * (Exn + R) -> t * (Exn + R) with
  | DOM_getDocument _ => fun normal =>
      if reject_getDocument (switches b)
      then (b, inl (Rejected "Document is not available"))
      else lifted b normal
  | DOM_resolveNode _ _ => fun normal =>
      if no_object_id (switches b)
      then (b, inr (mkRemoteObject None ""))
      else lifted b normal
  | Runtime_callFunctionOn _ _ _ => fun normal =>
      if reject_callFunctionOn (switches b)
      then (b, inl (Rejected "Execution context was destroyed"))
      else if exception_in_page (switches b)
           then lifted b (normal.1, with_exception normal.2)
           else lifted b normal
  | Runtime_releaseObjectGroup _ => fun normal =>
      if reject_releaseObjectGroup (switches b)
      then (b, inl (Rejected "Cannot release object group"))
      else lifted b normal
  | DOM_querySelector _ _ => fun normal => lifted b normal
  | DOM_describeNode _ => fun normal => lifted b normal
  end (send s c (inner b)).

Global Instance browser : Browser t := {
  newCDPSession page b := lifted b (newCDPSession page (inner b));
  send R s c b := send_with_faults s c b;
  detach s b :=
    if reject_detach (switches b)
    then (b, inl (Rejected "Target closed"))
    else lifted b (detach s (inner b))
}.

(** The sample page of [MiniBrowser] with the given faults, before any
    call. *)
Definition start (f : faults) : World t :=
  mkWorld (mk MiniBrowser.sample f) [].

End FaultyBrowser.

(** ** [getLLMTreeWithBackendIds] of [dom/index.ts] *)

Module DomBackendIds.

Import Cdp.

Record LLMTreeWithBackendIdsResult : Type := mkResult {
  tree : string;
  selectorMap : JsMap.t Z string;
  backendNodeMap : JsMap.t Z Z
}.

Section Functions.

Context {RawDOMNode GetLLMTreeOptions : Type}
        `{Dom.Stages Page RawDOMNode GetLLMTreeOptions}
        {B : Type} `{Browser B}.

(** The pipeline runs first; its recorded calls are returned with the result.
    The session layer is used only for a selector map that is not empty. *)
Definition getLLMTreeWithBackendIds (page : Page)
    (options : option GetLLMTreeOptions)
  : M B (list (Dom.Call Page RawDOMNode GetLLMTreeOptions) *
         LLMTreeWithBackendIdsResult) :=
  let '(calls, r) := Dom.getLLMTree page options in
  let tree := Dom.tree r in
  let selectorMap := Dom.selectorMap r in
  if bool_decide (JsMap.size selectorMap = 0%nat)
  then mret (calls, mkResult tree selectorMap JsMap.empty)
  else
    backendNodeMap ← BackendIds.resolveBackendIds page selectorMap;
    mret (calls, mkResult tree selectorMap backendNodeMap).

End Functions.

End DomBackendIds.

(** ** A small site

    Page 0 shows three elements of [Selector.sample_html]; every other page
    has no tree.  The serializer numbers the elements from 1 and gives each
    the selector that the synthesis of [Selector] builds for it. *)

Module MiniSite.

Import Dom.

Definition shown : list Selector.ElementRef :=
  [Selector.sample_email; Selector.sample_span; Selector.sample_second_button].

Global Instance stages : Stages Cdp.Page (list Selector.ElementRef) nat := {
  no_options := 100%nat;
  extractRawDOM page :=
    match page with
    | O => Some shown
    | S _ => None
    end;
  filterVisibleNodes rawTree :=
    match rawTree with
    | [] => None
    | _ => Some rawTree
    end;
  filterByPaintOrder visibleTree := visibleTree;
  filterByBboxPropagation paintFiltered := paintFiltered;
  serializeTree bboxFiltered options :=
    mkResult
      (Js.join " "
         (take options
            (imap (fun i r => "[" +:+ pretty (S i) +:+ "]<" +:+
                              Js.toLowerCase
                                (Selector.tagName (Selector.target r)) +:+
                              " />")
                  bboxFiltered)))
      (imap (fun i r =>
               (Z.of_nat (S i),
                Selector.BUILD_SELECTOR_FUNCTION Selector.sample_body r))
            bboxFiltered)
}.

End MiniSite.

(** ** The server, [serve]

    The server keeps its state in the variables and the registry that the
    closures of [serve] share.  The process, the file system, the browser and
    the network are a state of a type [W] with the operations that the code
    calls on them; each call is recorded.  Ports and retry counts are
    integers; console output is left out. *)

Module Server.

Import Cdp.

Definition message (e : Exn) : string :=
  match e with
  | Rejected m => m
  | Error m => m
  end.

(** *** Options *)

Record ServeOptions : Type := mkOptions {
  port : option Z;
  host : option string;
  headless : option bool;
  cdpPort : option Z;
  profileDir : option string;
  lazy : option bool
}.

(** The constants of the first lines of [serve]: [options.x ?? default]. *)
Record Settings : Type := mkSettings {
  the_port : Z;
  the_host : string;
  the_headless : bool;
  the_cdpPort : Z;
  the_profileDir : option string;
  the_lazy : bool
}.

Definition settings_of (options : ServeOptions) : Settings :=
  mkSettings (default 9222 (port options))
             (default "localhost" (host options))
             (default false (headless options))
             (default 9223 (cdpPort options))
             (profileDir options)
             (default false (lazy options)).

(** The validation of the port numbers: the first failing test throws. *)
Definition check_ports (s : Settings) : Exn + unit :=
  if (the_port s <? 1) || (the_port s >? 65535)
  then inl (Error ("Invalid port: " +:+ pretty (the_port s) +:+
                   ". Must be between 1 and 65535"))
  else if (the_cdpPort s <? 1) || (the_cdpPort s >? 65535)
  then inl (Error ("Invalid cdpPort: " +:+ pretty (the_cdpPort s) +:+
                   ". Must be between 1 and 65535"))
  else if the_port s =? the_cdpPort s
  then inl (Error "port and cdpPort must be different")
  else inr ().

(** [host === "0.0.0.0" ? "127.0.0.1" : host]. *)
Definition advertised_host (s : Settings) : string :=
  if bool_decide (the_host s = "0.0.0.0") then "127.0.0.1" else the_host s.

(** The proxied endpoint for a path of the browser's own endpoint. *)
Definition proxied_endpoint (s : Settings) (wsPath : string) : string :=
  "ws://" +:+ advertised_host s +:+ ":" +:+ pretty (the_port s) +:+ wsPath.

(** The arguments that the browser is launched with. *)
Definition cdpArgs (s : Settings) : list string :=
  ("--remote-debugging-port=" +:+ pretty (the_cdpPort s)) ::
  (if bool_decide (the_host s = "0.0.0.0")
   then ["--remote-debugging-address=0.0.0.0"]
   else []).

(** *** The world outside *)

Definition Context : Type := nat.
Definition Socket : Type := nat.

Record HttpResponse : Type := mkHttpResponse {
  ok : bool;
  status : Z;
  statusText : string;
  (** [(await response.json()).webSocketDebuggerUrl] *)
  webSocketDebuggerUrl : Exn + string
}.

Class Host (W : Type) : Type := {
  path_join : string -> string -> string;
  process_cwd : W -> string;
  mkdirSync : string -> W -> W * (Exn + unit);
  launchPersistentContext :
    string -> bool -> list string -> W -> W * (Exn + Context);
  fetch : string -> W -> W * (Exn + HttpResponse);
  (** [await new Promise(resolve => setTimeout(resolve, ms))] *)
  sleep : Z -> W -> W;
  (** [new URL(url).pathname] *)
  url_pathname : string -> Exn + string;
  (** [context.newPage()], as far as it settles within [ms] milliseconds *)
  newPage : Context -> Z -> W -> W * option (Exn + Page);
  newTargetSession : Context -> Page -> W -> W * (Exn + Session);
  (** [(await cdpSession.send("Target.getTargetInfo")).targetInfo.targetId] *)
  getTargetInfo : Session -> W -> W * (Exn + string);
  detachTargetSession : Session -> W -> W * (Exn + unit);
  closePage : Page -> W -> W * (Exn + unit);
  closeContext : Context -> W -> W * (Exn + unit);
  decodeURIComponent : string -> Exn + string;
  (** [wss.handleUpgrade(req, socket, head, ...)] *)
  handleUpgrade : Socket -> string -> W -> W * (Exn + unit);
  listen : Z -> string -> W -> W;
  destroySocket : Socket -> W -> W;
  closeServer : W -> W
}.

Inductive HostEvent : Type :=
| Mkdir (dir : string)
| Launch (dir : string) (headless : bool) (args : list string)
| Fetch (url : string)
| Sleep (ms : Z)
| NewPage (context : Context)
| OpenTargetSession (page : Page)
| GetTargetInfo (session : Session)
| DetachTargetSession (session : Session)
| ClosePage (page : Page)
| CloseContext (context : Context)
| Upgrade (socket : Socket) (url : string)
| Listen (port : Z) (host : string)
| DestroySocket (socket : Socket)
| CloseServer.

(** *** The variables of [serve] *)

Record PageEntry : Type := mkEntry {
  page : Page;
  targetId : string
}.

Record Vars : Type := mkVars {
  context : option Context;
  wsEndpoint : option string;
  internalWsEndpoint : option string;
  (** the promise [browserLaunching], with its outcome once it is settled *)
  browserLaunching : option (Exn + unit);
  registry : JsMap.t string PageEntry;
  connections : list Socket;
  cleaningUp : bool
}.

Definition initial : Vars := mkVars None None None None [] [] false.

Record Sys (W : Type) : Type := mkSys {
  vars : Vars;
  world : W;
  calls : list HostEvent
}.
Arguments mkSys {W} _ _ _.
Arguments vars {W} _.
Arguments world {W} _.
Arguments calls {W} _.

Definition SM (W A : Type) : Type := Sys W -> Sys W * (Exn + A).

Global Instance SM_ret {W} : MRet (SM W) := fun A x s => (s, inr x).

Global Instance SM_bind {W} : MBind (SM W) := fun A A' f m s =>
  match m s with
  | (s', inl e) => (s', inl e)
  | (s', inr a) => f a s'
  end.

Definition raise {W A} (e : Exn) : SM W A := fun s => (s, inl e).

Definition catching {W A} (body : SM W A) (handler : Exn -> SM W A)
  : SM W A :=
  fun s =>
    match body s with
    | (s', inl e) => handler e s'
    | (s', inr a) => (s', inr a)
    end.

Definition finally {W A} (body : SM W A) (finalizer : SM W unit) : SM W A :=
  fun s =>
    let '(s1, outcome) := body s in
    match finalizer s1 with
    | (s2, inl e) => (s2, inl e)
    | (s2, inr _) => (s2, outcome)
    end.

(** Reading and writing the variables. *)
Definition get_vars {W} : SM W Vars := fun s => (s, inr (vars s)).

Definition set_vars {W} (f : Vars -> Vars) : SM W unit := fun s =>
  (mkSys (f (vars s)) (world s) (calls s), inr ()).

(** A host operation that may be rejected, and one that is not. *)
Definition host_call {W A} (event : HostEvent) (op : W -> W * (Exn + A))
  : SM W A := fun s =>
  let '(w, r) := op (world s) in
  (mkSys (vars s) w (calls s ++ [event]), r).

Definition host_do {W} (event : HostEvent) (op : W -> W) : SM W unit :=
  fun s => (mkSys (vars s) (op (world s)) (calls s ++ [event]), inr ()).

Definition of_result {W A} (r : Exn + A) : SM W A := fun s => (s, r).

(** Assignments to single variables. *)
Definition with_context (c : option Context) (v : Vars) : Vars :=
  mkVars c (wsEndpoint v) (internalWsEndpoint v) (browserLaunching v)
         (registry v) (connections v) (cleaningUp v).

Definition with_wsEndpoint (e : option string) (v : Vars) : Vars :=
  mkVars (context v) e (internalWsEndpoint v) (browserLaunching v)
         (registry v) (connections v) (cleaningUp v).

Definition with_internalWsEndpoint (e : option string) (v : Vars) : Vars :=
  mkVars (context v) (wsEndpoint v) e (browserLaunching v)
         (registry v) (connections v) (cleaningUp v).

Definition with_browserLaunching (p : option (Exn + unit)) (v : Vars) : Vars :=
  mkVars (context v) (wsEndpoint v) (internalWsEndpoint v) p
         (registry v) (connections v) (cleaningUp v).

Definition with_registry (r : JsMap.t string PageEntry) (v : Vars) : Vars :=
  mkVars (context v) (wsEndpoint v) (internalWsEndpoint v) (browserLaunching v)
         r (connections v) (cleaningUp v).

Definition with_connections (c : list Socket) (v : Vars) : Vars :=
  mkVars (context v) (wsEndpoint v) (internalWsEndpoint v) (browserLaunching v)
         (registry v) c (cleaningUp v).

Definition with_cleaningUp (b : bool) (v : Vars) : Vars :=
  mkVars (context v) (wsEndpoint v) (internalWsEndpoint v) (browserLaunching v)
         (registry v) (connections v) b.

(** [map.delete(k)]. *)
Fixpoint map_delete {V} (k : string) (m : JsMap.t string V)
  : JsMap.t string V :=
  match m with
  | [] => []
  | (k', v) :: rest =>
      if decide (k = k') then rest else (k', v) :: map_delete k rest
  end.

(** [set.add(x)] and [set.delete(x)] on a [Set] in insertion order. *)
Definition set_add (x : Socket) (l : list Socket) : list Socket :=
  if bool_decide (x ∈ l) then l else (l ++ [x])%list.

Definition set_delete (x : Socket) (l : list Socket) : list Socket :=
  filter (fun y => y <> x) l.

(** *** Requests and responses *)

(** A value of a JSON body, as far as the code tells values apart. *)
Inductive Json : Type :=
| JUndefined
| JNull
| JBool (b : bool)
| JNumber (n : Z)
| JString (s : string)
| JArray
| JObject.

(** [!x]. *)
Definition falsy (x : Json) : bool :=
  match x with
  | JUndefined | JNull => true
  | JBool b => negb b
  | JNumber n => n =? 0
  | JString s => negb (Js.truthy s)
  | JArray | JObject => false
  end.

(** [typeof x === "string"]. *)
Definition is_string (x : Json) : bool :=
  match x with
  | JString _ => true
  | _ => false
  end.

(** The string that a value is once it is known to be one. *)
Definition string_of (x : Json) : string :=
  match x with
  | JString s => s
  | _ => ""
  end.

(** [req.body] after [express.json()]: undefined when no body was parsed,
    or the parsed value with what its [name] is ([undefined] when it has
    none). *)
Inductive RequestBody : Type :=
| NoBody
| Parsed (name : Json).

Inductive Body : Type :=
| ServerInfo (wsEndpoint : option string)
| ListPages (pages : list string)
| GetPage (wsEndpoint : option string) (name : string) (targetId : string)
| Failure (error : string)
| Success.

Record Response : Type := mkResponse {
  code : Z;
  body : Body
}.

(** [res.json(b)] and [res.status(c).json(b)]. *)
Definition json (b : Body) : Response := mkResponse 200 b.
Definition status_json (c : Z) (b : Body) : Response := mkResponse c b.

Record DevBrowserServer : Type := mkServer {
  server_wsEndpoint : string;
  server_port : Z
}.

Inductive UpgradeOutcome : Type :=
| Upgraded
| Destroyed.

Section Code.

Context {W : Type} `{Host W}.

(** *** [fetchWithRetry] *)

(** One turn of the loop: the [try] with its [catch].  The turn gives the
    response that the function returns, or the error that becomes
    [lastError]. *)
Definition attempt (url : string) : SM W (HttpResponse + Exn) :=
  catching
    (res ← host_call (Fetch url) (fetch url);
     if ok res then mret (inl res)
     else raise (Error ("HTTP " +:+ pretty (status res) +:+ ": " +:+
                        statusText res)))
    (fun err => mret (inr err)).

Fixpoint retry_loop (url : string) (maxRetries delayMs : Z) (i : Z)
    (turns : nat) (lastError : option Exn) : SM W HttpResponse :=
  match turns with
  | O =>
      raise (Error ("Failed after " +:+ pretty maxRetries +:+ " retries: " +:+
                    default "undefined" (message <$> lastError)))
  | S turns' =>
      r ← attempt url;
      match r with
      | inl res => mret res
      | inr err =>
          _ ← (if i <? maxRetries - 1
               then host_do (Sleep (delayMs * (i + 1)))
                            (sleep (delayMs * (i + 1)))
               else mret ());
          retry_loop url maxRetries delayMs (i + 1) turns' (Some err)
      end
  end.

(** [for (let i = 0; i < maxRetries; i++)] makes [maxRetries] turns, none
    when [maxRetries] is not positive. *)
Definition fetchWithRetry (url : string) (maxRetries delayMs : option Z)
  : SM W HttpResponse :=
  let maxRetries := default 5 maxRetries in
  let delayMs := default 500 delayMs in
  retry_loop url maxRetries delayMs 0 (Z.to_nat maxRetries) None.

(** *** [withTimeout] *)

(** [Promise.race] of the promise and a timer of [ms] milliseconds: the
    outcome of the promise when it settles in time, the timeout error
    otherwise. *)
Definition withTimeout {A} (event : HostEvent)
    (promise : Z -> W -> W * option (Exn + A)) (ms : Z) (message : string)
  : SM W A := fun s =>
  let '(w, settled) := promise ms (world s) in
  (mkSys (vars s) w (calls s ++ [event]),
   match settled with
   | Some outcome => outcome
   | None => inl (Error ("Timeout: " +:+ message))
   end).

(** *** Launching the browser *)

Definition launchBrowser (s : Settings) (userDataDir : string) : SM W unit :=
  v ← get_vars;
  if bool_decide (is_Some (context v)) then mret ()
  else
    c ← host_call (Launch userDataDir (the_headless s) (cdpArgs s))
          (launchPersistentContext userDataDir (the_headless s) (cdpArgs s));
    _ ← set_vars (with_context (Some c));
    cdpResponse ← fetchWithRetry
                    ("http://127.0.0.1:" +:+ pretty (the_cdpPort s) +:+
                     "/json/version") None None;
    internal ← of_result (webSocketDebuggerUrl cdpResponse);
    _ ← set_vars (with_internalWsEndpoint (Some internal));
    wsPath ← of_result (url_pathname internal);
    set_vars (with_wsEndpoint (Some (proxied_endpoint s wsPath))).

(** [browserLaunching] is assigned the promise of [launchBrowser] and keeps
    it, however it settles. *)
Definition ensureBrowser (s : Settings) (userDataDir : string) : SM W unit :=
  v ← get_vars;
  if bool_decide (is_Some (context v)) then mret ()
  else
    match browserLaunching v with
    | Some outcome => of_result outcome
    | None =>
        fun sys =>
          let '(sys', outcome) := launchBrowser s userDataDir sys in
          (mkSys (with_browserLaunching (Some outcome) (vars sys'))
                 (world sys') (calls sys'),
           outcome)
    end.

(** [context!]: a null context makes the call on it throw. *)
Definition the_context : SM W Context :=
  v ← get_vars;
  match context v with
  | Some c => mret c
  | None => raise (Error "TypeError: Cannot read properties of null")
  end.

Definition getTargetId (page : Page) : SM W string :=
  c ← the_context;
  cdpSession ← host_call (OpenTargetSession page) (newTargetSession c page);
  finally
    (host_call (GetTargetInfo cdpSession) (getTargetInfo cdpSession))
    (host_call (DetachTargetSession cdpSession)
               (detachTargetSession cdpSession)).

(** *** The routes *)

(** [GET /]. *)
Definition get_root (s : Settings) (userDataDir : string) : SM W Response :=
  _ ← ensureBrowser s userDataDir;
  v ← get_vars;
  mret (json (ServerInfo (wsEndpoint v))).

(** [GET /pages]. *)
Definition get_pages : SM W Response :=
  v ← get_vars;
  mret (json (ListPages (JsMap.keys (registry v)))).

(** The listener of the [close] event of a page that was registered under
    [name]. *)
Definition on_page_close (name : string) : SM W unit :=
  set_vars (fun v => with_registry (map_delete name (registry v)) v).

(** [POST /pages].  The handler reads [name] off [req.body] before its
    first test; reading it off a body that is undefined throws. *)
Definition post_pages (s : Settings) (userDataDir : string)
    (body : RequestBody) : SM W Response :=
  match body with
  | NoBody =>
      raise (Error ("TypeError: Cannot destructure property 'name' of " +:+
                    "'body' as it is undefined."))
  | Parsed name =>
      if falsy name || negb (is_string name)
      then mret (status_json 400
                   (Failure "name is required and must be a string"))
      else
        let name := string_of name in
        if bool_decide (String.length name = 0%nat)
        then mret (status_json 400 (Failure "name cannot be empty"))
        else if bool_decide (256 < String.length name)%nat
        then mret (status_json 400
                     (Failure "name must be 256 characters or less"))
        else
          _ ← ensureBrowser s userDataDir;
          v ← get_vars;
          entry ←
            match JsMap.get name (registry v) with
            | Some entry => mret entry
            | None =>
                c ← the_context;
                page ← withTimeout (NewPage c) (newPage c) 30000
                         "Page creation timed out after 30s";
                targetId ← getTargetId page;
                let entry := mkEntry page targetId in
                _ ← set_vars (fun v =>
                       with_registry (JsMap.set name entry (registry v)) v);
                mret entry
            end;
          v ← get_vars;
          mret (json (GetPage (wsEndpoint v) name (targetId entry)))
  end.

(** [DELETE /pages/:name].  Closing the page runs its [close] listener
    before the entry is deleted. *)
Definition delete_page (param : string) : SM W Response :=
  name ← of_result (decodeURIComponent param);
  v ← get_vars;
  match JsMap.get name (registry v) with
  | Some entry =>
      _ ← host_call (ClosePage (page entry)) (closePage (page entry));
      _ ← on_page_close name;
      _ ← set_vars (fun v => with_registry (map_delete name (registry v)) v);
      mret (json Success)
  | None => mret (status_json 404 (Failure "page not found"))
  end.

(** [req.url?.startsWith("/devtools")]. *)
Definition devtools_url (url : option string) : bool :=
  match url with
  | Some u => String.prefix "/devtools" u
  | None => false
  end.

(** The [upgrade] listener of the HTTP server. *)
Definition on_upgrade (s : Settings) (userDataDir : string)
    (url : option string) (socket : Socket) : SM W UpgradeOutcome :=
  if devtools_url url
  then
    catching
      (_ ← ensureBrowser s userDataDir;
       _ ← host_call (Upgrade socket (default "" url))
             (handleUpgrade socket (default "" url));
       mret Upgraded)
      (fun _ =>
         _ ← host_do (DestroySocket socket) (destroySocket socket);
         mret Destroyed)
  else
    _ ← host_do (DestroySocket socket) (destroySocket socket);
    mret Destroyed.

(** The [connection] listener of the server and the [close] listener of a
    socket. *)
Definition on_connection (socket : Socket) : SM W unit :=
  set_vars (fun v => with_connections (set_add socket (connections v)) v).

Definition on_socket_close (socket : Socket) : SM W unit :=
  set_vars (fun v => with_connections (set_delete socket (connections v)) v).

(** *** Shutting down *)

Fixpoint destroy_all (sockets : list Socket) : SM W unit :=
  match sockets with
  | [] => mret ()
  | socket :: rest =>
      _ ← host_do (DestroySocket socket) (destroySocket socket);
      destroy_all rest
  end.

(** The loop over [registry.values()]: an entry that a [close] listener
    deletes during the loop has been visited already. *)
Fixpoint close_all (entries : list PageEntry) : SM W unit :=
  match entries with
  | [] => mret ()
  | entry :: rest =>
      _ ← catching
            (_ ← host_call (ClosePage (page entry)) (closePage (page entry));
             mret ())
            (fun _ => mret ());
      close_all rest
  end.

Definition cleanup : SM W unit :=
  v ← get_vars;
  if cleaningUp v then mret ()
  else
    _ ← set_vars (with_cleaningUp true);
    _ ← destroy_all (connections v);
    _ ← set_vars (with_connections []);
    v ← get_vars;
    _ ← close_all (JsMap.values (registry v));
    _ ← set_vars (with_registry []);
    v ← get_vars;
    _ ← match context v with
        | Some c =>
            catching (host_call (CloseContext c) (closeContext c))
                     (fun _ => mret ())
        | None => mret ()
        end;
    host_do CloseServer closeServer.

(** *** [serve] *)

(** [profileDir ? join(profileDir, "browser-data")
               : join(process.cwd(), ".browser-data")]. *)
Definition userDataDir_of (s : Settings) (w : W) : string :=
  if Js.truthy_opt (the_profileDir s)
  then path_join (default "" (the_profileDir s)) "browser-data"
  else path_join (process_cwd w) ".browser-data".

(** [serve] up to the value it returns; the routes and listeners above are
    what it installs. *)
Definition serve (options : ServeOptions) : SM W DevBrowserServer :=
  let s := settings_of options in
  _ ← of_result (check_ports s);
  sys ← (fun sys => (sys, inr sys));
  let userDataDir := userDataDir_of s (world sys) in
  _ ← host_call (Mkdir userDataDir) (mkdirSync userDataDir);
  _ ← (if negb (the_lazy s) then launchBrowser s userDataDir else mret ());
  _ ← host_do (Listen (the_port s) (the_host s))
        (listen (the_port s) (the_host s));
  v ← get_vars;
  mret (mkServer
          (default (proxied_endpoint s "/devtools/browser/pending")
                   (wsEndpoint v))
          (the_port s)).

End Code.

End Server.

(** ** Statements about the server *)

Module ServerSpec.

Import Cdp Server.

(** The calls of [k] turns of [fetchWithRetry] that start at turn [i]: a fetch
    per turn and a sleep between two turns, longer by [delayMs] each time. *)
Fixpoint schedule (url : string) (delayMs : Z) (i : Z) (k : nat)
  : list HostEvent :=
  match k with
  | O => []
  | S k' =>
      Fetch url ::
      match k' with
      | O => []
      | S _ => Sleep (delayMs * (i + 1)) :: schedule url delayMs (i + 1) k'
      end
  end.

(** The milliseconds slept in a list of calls. *)
Fixpoint slept (events : list HostEvent) : Z :=
  match events with
  | [] => 0
  | Sleep ms :: rest => ms + slept rest
  | _ :: rest => slept rest
  end.

(** The number of fetches in a list of calls. *)
Fixpoint fetched (events : list HostEvent) : nat :=
  match events with
  | [] => 0%nat
  | Fetch _ :: rest => S (fetched rest)
  | _ :: rest => fetched rest
  end.

(** The error that a turn of [fetchWithRetry] catches when its fetch gives
    [r]: the rejection, or the error made for a response that is not ok; none
    for a response that is ok. *)
Definition turn_error (r : Exn + HttpResponse) : option Exn :=
  match r with
  | inl e => Some e
  | inr res =>
      if ok res then None
      else Some (Error ("HTTP " +:+ pretty (status res) +:+ ": " +:+
                        statusText res))
  end.

(** [k] turns in a row fail, from turn [i] in the world [w]: the fetch of
    each gives an error, and a sleep of [delayMs * (i + 1)] follows unless the
    turn is the last that [maxRetries] allows.  [w'] is the world after them
    and [last'] the error of the last of them ([last] when there is none). *)
Inductive failed_turns {W} `{Host W} (url : string) (maxRetries delayMs : Z)
  : Z -> nat -> W -> option Exn -> W -> option Exn -> Prop :=
| failed_none i w last :
    failed_turns url maxRetries delayMs i 0 w last w last
| failed_more i k w w1 r e w' last last' :
    fetch url w = (w1, r) ->
    turn_error r = Some e ->
    failed_turns url maxRetries delayMs (i + 1) k
      (if i <? maxRetries - 1 then sleep (delayMs * (i + 1)) w1 else w1)
      (Some e) w' last' ->
    failed_turns url maxRetries delayMs i (S k) w last w' last'.

(** From variables with [P], a computation ends with [Q] when it throws and
    with [R] of its result when it returns. *)
Definition triple {W A} (P : Vars -> Prop) (m : SM W A) (Q : Vars -> Prop)
    (R : A -> Vars -> Prop) : Prop :=
  forall sys,
    P (vars sys) ->
    match m sys with
    | (sys', inl _) => Q (vars sys')
    | (sys', inr a) => R a (vars sys')
    end.

(** A computation keeps a property of the variables, whatever its outcome. *)
Definition keeps {W A} (P : Vars -> Prop) (m : SM W A) : Prop :=
  triple P m P (fun _ => P).

(** A computation calls nothing of the host and leaves the world alone. *)
Definition quiet {W A} (m : SM W A) (sys : Sys W) : Prop :=
  world (m sys).1 = world sys /\ calls (m sys).1 = calls sys.

(** A name that [POST /pages] accepts. *)
Definition valid_name (name : string) : Prop :=
  name <> "" /\ (String.length name <= 256)%nat.

(** What holds of the variables at every moment. *)
Record invariant (v : Vars) : Prop := mkInvariant {
  names_valid : Forall valid_name (JsMap.keys (registry v));
  names_once : NoDup (JsMap.keys (registry v));
  pages_need_browser : registry v <> [] -> is_Some (context v);
  endpoint_needs_browser : is_Some (wsEndpoint v) -> is_Some (context v);
  launched_has_browser :
    browserLaunching v = Some (inr ()) -> is_Some (context v)
}.

(** The browser is there, or its launch has settled well. *)
Definition launched (v : Vars) : Prop :=
  is_Some (context v) \/ browserLaunching v = Some (inr ()).

(** What reaches the server. *)
Inductive Request : Type :=
| GetRoot
| GetPages
| PostPages (body : RequestBody)
| DeletePage (param : string)
| PageClosed (name : string)
| UpgradeRequest (url : option string) (socket : Socket)
| Connection (socket : Socket)
| SocketClosed (socket : Socket)
| Shutdown.

Section Runs.

Context {W : Type} `{Host W}.

Definition forget {A} (m : SM W A) : SM W unit := _ ← m; mret ().

Definition handle (s : Settings) (userDataDir : string) (r : Request)
  : SM W unit :=
  match r with
  | GetRoot => forget (get_root s userDataDir)
  | GetPages => forget get_pages
  | PostPages body => forget (post_pages s userDataDir body)
  | DeletePage param => forget (delete_page param)
  | PageClosed name => on_page_close name
  | UpgradeRequest url socket => forget (on_upgrade s userDataDir url socket)
  | Connection socket => on_connection socket
  | SocketClosed socket => on_socket_close socket
  | Shutdown => cleanup
  end.

(** The requests one after the other; a handler that throws leaves the
    system as it is at that moment. *)
Fixpoint run (s : Settings) (userDataDir : string) (requests : list Request)
    (sys : Sys W) : Sys W :=
  match requests with
  | [] => sys
  | r :: rest => run s userDataDir rest (handle s userDataDir r sys).1
  end.

End Runs.

End ServerSpec.

(** ** A small host

    The world of [serve] with switches: the answers of the coming [fetch]
    calls, whether the browser launches, whether a new page settles in time,
    whether the target id can be read and whether a page closes. *)

Module MiniHost.

Import Cdp Server.

Record t : Type := mk {
  answers : list (Exn + HttpResponse);
  launch_rejected : bool;
  page_hangs : bool;
  target_rejected : bool;
  close_rejected : bool;
  next_page : nat
}.

Definition version_info : HttpResponse :=
  mkHttpResponse true 200 "OK"
    (inr "ws://127.0.0.1:9223/devtools/browser/abc").

Definition unavailable : HttpResponse :=
  mkHttpResponse false 503 "Service Unavailable" (inl (Error "no body")).

Definition refused : Exn := Rejected "connect ECONNREFUSED 127.0.0.1:9223".

Definition with_answers (l : list (Exn + HttpResponse)) (w : t) : t :=
  mk l (launch_rejected w) (page_hangs w) (target_rejected w)
     (close_rejected w) (next_page w).

Global Instance host : Host t := {
  path_join a b := a +:+ "/" +:+ b;
  process_cwd _ := "/srv";
  mkdirSync _ w := (w, inr ());
  launchPersistentContext _ _ _ w :=
    if launch_rejected w
    then (w, inl (Rejected "Failed to launch the browser process"))
    else (w, inr 1%nat);
  fetch _ w :=
    match answers w with
    | [] => (w, inr version_info)
    | r :: rest => (with_answers rest w, r)
    end;
  sleep _ w := w;
  url_pathname url :=
    if String.prefix "ws://127.0.0.1:9223" url
    then inr (String.substring 19 (String.length url - 19) url)
    else inl (Error "TypeError: Invalid URL");
  newPage _ _ w :=
    if page_hangs w then (w, None)
    else (mk (answers w) (launch_rejected w) (page_hangs w)
             (target_rejected w) (close_rejected w) (S (next_page w)),
          Some (inr (next_page w)));
  newTargetSession _ page w := (w, inr page);
  getTargetInfo session w :=
    if target_rejected w
    then (w, inl (Rejected "Target closed"))
    else (w, inr ("target-" +:+ pretty session));
  detachTargetSession _ w := (w, inr ());
  closePage _ w :=
    if close_rejected w
    then (w, inl (Rejected "Page crashed"))
    else (w, inr ());
  closeContext _ w := (w, inr ());
  decodeURIComponent param :=
    if bool_decide (param = "%")
    then inl (Error "URIError: URI malformed")
    else inr param;
  handleUpgrade _ _ w := (w, inr ());
  listen _ _ w := w;
  destroySocket _ w := w;
  closeServer w := w
}.

(** A host on which everything works, and the system before [serve]. *)
Definition healthy : t := mk [] false false false false 0.

Definition boot (w : t) : Sys t := mkSys initial w [].

Definition no_options : ServeOptions :=
  mkOptions None None None None None None.

Definition lazy_options : ServeOptions :=
  mkOptions None None None None None (Some true).

End MiniHost.

(** ** The WebSocket proxy

    The listener of [connection] of the WebSocket server: every client socket
    gets a socket to the browser, a queue and a flag, and seven listeners on
    the two sockets.  The ready state of a socket is kept by the library; a
    listener that reads it gets it with the event. *)

Module Proxy.

Inductive ReadyState : Type :=
| CONNECTING
| OPEN
| CLOSING
| CLOSED.

Global Instance ReadyState_eq_dec : EqDecision ReadyState.
Proof. solve_decision. Defined.

Section Connection.

Context {Data : Type}.

(** The calls of the listeners on the two sockets.  [chromeWs.send(msg)] has
    no options, [chromeWs.send(data, { binary: isBinary })] has;
    [clientWs.close(code, reason)] has arguments, [clientWs.close()] none. *)
Inductive Action : Type :=
| ChromeSend (data : Data) (binary : option bool)
| ClientSend (data : Data) (binary : bool)
| ClientClose (arguments : option (Z * string))
| ChromeClose.

Record Connection : Type := mkConnection {
  messageQueue : list Data;
  chromeReady : bool
}.

Definition connect : Connection := mkConnection [] false.

(** [chromeWs.on("open", ...)]. *)
Definition chrome_on_open (c : Connection) : Connection * list Action :=
  (mkConnection [] true, (fun msg => ChromeSend msg None) <$> messageQueue c).

(** [chromeWs.on("message", ...)]. *)
Definition chrome_on_message (data : Data) (isBinary : bool)
    (clientState : ReadyState) (c : Connection) : Connection * list Action :=
  (c, if bool_decide (clientState = OPEN) then [ClientSend data isBinary]
      else []).

(** [chromeWs.on("close", ...)] and [chromeWs.on("error", ...)]. *)
Definition chrome_on_close (code : Z) (reason : string) (c : Connection)
  : Connection * list Action :=
  (c, [ClientClose (Some (code, reason))]).

Definition chrome_on_error (c : Connection) : Connection * list Action :=
  (c, [ClientClose None]).

(** [clientWs.on("message", ...)]. *)
Definition client_on_message (data : Data) (isBinary : bool)
    (chromeState : ReadyState) (c : Connection) : Connection * list Action :=
  if chromeReady c && bool_decide (chromeState = OPEN)
  then (c, [ChromeSend data (Some isBinary)])
  else (mkConnection (messageQueue c ++ [data]) (chromeReady c), []).

(** [clientWs.on("close", ...)] and [clientWs.on("error", ...)]. *)
Definition client_on_close (c : Connection) : Connection * list Action :=
  (c, [ChromeClose]).

Definition client_on_error (c : Connection) : Connection * list Action :=
  (c, [ChromeClose]).

(** The events of the two sockets. *)
Inductive Event : Type :=
| ChromeOpen
| ChromeMessage (data : Data) (isBinary : bool) (clientState : ReadyState)
| ChromeClosed (code : Z) (reason : string)
| ChromeError
| ClientMessage (data : Data) (isBinary : bool) (chromeState : ReadyState)
| ClientClosed
| ClientError.

Definition on (e : Event) (c : Connection) : Connection * list Action :=
  match e with
  | ChromeOpen => chrome_on_open c
  | ChromeMessage data isBinary clientState =>
      chrome_on_message data isBinary clientState c
  | ChromeClosed code reason => chrome_on_close code reason c
  | ChromeError => chrome_on_error c
  | ClientMessage data isBinary chromeState =>
      client_on_message data isBinary chromeState c
  | ClientClosed => client_on_close c
  | ClientError => client_on_error c
  end.

(** The listeners run one after the other, in the order of the events. *)
Fixpoint run (events : list Event) (c : Connection)
  : Connection * list Action :=
  match events with
  | [] => (c, [])
  | e :: rest =>
      let '(c1, first) := on e c in
      let '(c2, others) := run rest c1 in
      (c2, (first ++ others)%list)
  end.

(** The messages that the client sent, in order. *)
Fixpoint received (events : list Event) : list Data :=
  match events with
  | [] => []
  | ClientMessage data _ _ :: rest => data :: received rest
  | _ :: rest => received rest
  end.

(** The same with the flag that each message came with. *)
Fixpoint flagged (events : list Event) : list (Data * option bool) :=
  match events with
  | [] => []
  | ClientMessage data isBinary _ :: rest =>
      (data, Some isBinary) :: flagged rest
  | _ :: rest => flagged rest
  end.

(** What was sent to the browser, in order. *)
Fixpoint chrome_sends (actions : list Action) : list (Data * option bool) :=
  match actions with
  | [] => []
  | ChromeSend data binary :: rest => (data, binary) :: chrome_sends rest
  | _ :: rest => chrome_sends rest
  end.

(** The browser's socket has not opened during these events. *)
Definition not_open (e : Event) : Prop :=
  match e with
  | ChromeOpen => False
  | _ => True
  end.

(** A message of the client finds the browser's socket open. *)
Definition finds_open (e : Event) : Prop :=
  match e with
  | ClientMessage _ _ chromeState => chromeState = OPEN
  | _ => True
  end.

End Connection.

Arguments Action : clear implicits.
Arguments Connection : clear implicits.
Arguments Event : clear implicits.

End Proxy.

(** * Theorems *)

(** ** The selector synthesis *)

Module SelectorFacts.

Import Selector SelectorSpec.

Lemma truthy_non_empty (s : string) : Js.truthy s = true <-> s <> "".
Proof. destruct s; simpl; split; congruence. Qed.

Lemma truthy_opt_non_empty (o : option string) :
  Js.truthy_opt o = true <-> non_empty o.
Proof.
  unfold non_empty. destruct o as [s|]; simpl.
  - rewrite truthy_non_empty. split.
    + intros Hs. exists s. split; [reflexivity | exact Hs].
    + intros (v & Hv & Hne). injection Hv as ->. exact Hne.
  - split; [discriminate |]. intros (v & Hv & _). discriminate.
Qed.

Lemma truthy_opt_false (o : option string) :
  Js.truthy_opt o = false <-> ~ non_empty o.
Proof.
  rewrite <- truthy_opt_non_empty. destruct (Js.truthy_opt o); split;
    congruence.
Qed.

(** The class of the regular expression, read through the template literal
    and the class syntax, has exactly the special characters as members. *)
Lemma escape_class_members :
  Js.class_members escape_class_in_page = list_ascii_of_string css_special.
Proof. vm_compute. reflexivity. Qed.

Lemma escape_replacement :
  forall c, Js.expand_replacement (Js.unescape escape_replacement_in_page)
              (String c EmptyString)
            = String "\" (String c EmptyString).
Proof. intros c. reflexivity. Qed.

Lemma escapeSelector_by_spec (s : string) :
  escapeSelector s = escape_by_spec s.
Proof.
  unfold escapeSelector. rewrite escape_class_members.
  induction s as [|c s IH]; [reflexivity |].
  cbn [Js.replace_class_g escape_by_spec]. rewrite IH.
  unfold is_css_special.
  destruct (bool_decide (c ∈ list_ascii_of_string css_special)).
  - rewrite escape_replacement. reflexivity.
  - reflexivity.
Qed.

Lemma is_css_special_backslash : is_css_special "\" = true.
Proof. vm_compute. reflexivity. Qed.

Lemma unescape_escape_by_spec (s : string) :
  unescape_value (escape_by_spec s) = s.
Proof.
  unfold unescape_value.
  induction s as [|c s IH]; [reflexivity |].
  cbn [escape_by_spec].
  destruct (is_css_special c) eqn:Hc.
  - cbn [Js.unescape]. rewrite IH. reflexivity.
  - assert (c <> "\"%char) as Hne.
    { intros ->. rewrite is_css_special_backslash in Hc. discriminate. }
    destruct (escape_by_spec s) as [|d r] eqn:Hr.
    + simpl in IH. subst s.
      destruct c as [[] [] [] [] [] [] [] []]; try reflexivity; congruence.
    + change (Js.unescape (String c (String d r)))
        with (match c with
              | "\"%char => String d (Js.unescape r)
              | _ => String c (Js.unescape (String d r))
              end).
      rewrite IH.
      destruct c as [[] [] [] [] [] [] [] []]; try reflexivity; congruence.
Qed.

(** *** The same-tag children and the position among them *)

Lemma siblings_length_from (l : list Element) (tag : string) (k : nat) :
  length (filter (fun c : nat * Element => Js.toLowerCase (tagName c.2) = tag)
                 (imap (fun i c => ((k + i)%nat, c)) l))
  = length (filter (fun c => lower_tag c = tag) l).
Proof.
  revert k. induction l as [|x l IH]; intros k; [reflexivity |].
  rewrite imap_cons.
  rewrite (imap_ext _ (fun i c => ((S k + i)%nat, c)))
    by (intros i y _; simpl; f_equal; lia).
  rewrite !filter_cons. cbn [snd]. unfold lower_tag at 1.
  destruct (decide (Js.toLowerCase (tagName x) = tag)); cbn [length];
    rewrite (IH (S k)); reflexivity.
Qed.

Lemma siblings_length (parent : Element) (tag : string) :
  length (siblings_of parent tag) = length (same_tag_children parent tag).
Proof. apply (siblings_length_from (children parent) tag 0). Qed.

Lemma siblings_indexOf_from (l : list Element) (tag : string) (k pos : nat)
    (j : Z) (el : Element) :
  l !! pos = Some el ->
  lower_tag el = tag ->
  Js.indexOf_from (fun c : nat * Element => bool_decide (c.1 = (k + pos)%nat))
    (filter (fun c : nat * Element => Js.toLowerCase (tagName c.2) = tag)
            (imap (fun i c => ((k + i)%nat, c)) l)) j
  = j + Z.of_nat (length (filter (fun c => lower_tag c = tag) (take pos l))).
Proof.
  revert k pos j. induction l as [|x l IH]; intros k pos j Hpos Htag.
  - destruct pos; discriminate.
  - rewrite imap_cons.
    rewrite (imap_ext _ (fun i c => ((S k + i)%nat, c)))
      by (intros i y _; simpl; f_equal; lia).
    destruct pos as [|pos].
    + simpl in Hpos. injection Hpos as ->.
      rewrite filter_cons_True by exact Htag.
      cbn [Js.indexOf_from fst]. rewrite bool_decide_eq_true_2 by lia.
      simpl. lia.
    + simpl in Hpos. cbn [take]. rewrite !filter_cons. cbn [snd].
      unfold lower_tag at 1.
      replace (k + S pos)%nat with (S k + pos)%nat by lia.
      destruct (decide (Js.toLowerCase (tagName x) = tag)).
      * cbn [Js.indexOf_from fst].
        rewrite bool_decide_eq_false_2 by lia.
        rewrite (IH (S k) pos (j + 1) Hpos Htag). cbn [length]. lia.
      * apply (IH (S k) pos j Hpos Htag).
Qed.

Lemma siblings_indexOf (parent : Element) (pos : nat) (el : Element) :
  children parent !! pos = Some el ->
  Js.indexOf (fun c : nat * Element => bool_decide (c.1 = pos))
             (siblings_of parent (lower_tag el)) + 1
  = Z.of_nat (position_of_type parent pos (lower_tag el)).
Proof.
  intros Hpos. unfold Js.indexOf, siblings_of, position_of_type.
  pose proof (siblings_indexOf_from (children parent) (lower_tag el) 0 pos 0
                el Hpos eq_refl) as Hidx.
  change (0 + pos)%nat with pos in Hidx.
  change (fun i c => ((0 + i)%nat, c)) with (fun (i : nat) (c : Element) => (i, c))
    in Hidx.
  rewrite Hidx. cbn [length]. lia.
Qed.

Lemma pretty_Z_of_nat_S (n : nat) : pretty (Z.of_nat (S n)) = pretty (S n).
Proof. reflexivity. Qed.

(** One turn of the loop adds the segment of the specification. *)
Lemma walk_segment (el : Element) (f : Frame) :
  children (frame_parent f) !! frame_position f = Some el ->
  (if bool_decide
        (1 < Z.of_nat (length (siblings_of (frame_parent f) (lower_tag el))))
   then lower_tag el +:+ ":nth-of-type(" +:+
        pretty (Js.indexOf
                  (fun c : nat * Element =>
                     bool_decide (c.1 = frame_position f))
                  (siblings_of (frame_parent f) (lower_tag el)) + 1)
        +:+ ")"
   else lower_tag el)
  = segment_by_spec el f.
Proof.
  intros Hpos. unfold segment_by_spec.
  rewrite siblings_length, (siblings_indexOf _ _ _ Hpos).
  unfold position_of_type. rewrite pretty_Z_of_nat_S.
  destruct (decide (1 < length (same_tag_children (frame_parent f)
                                  (lower_tag el)))%nat) as [Hlt|Hge].
  - rewrite bool_decide_eq_true_2 by lia. reflexivity.
  - rewrite bool_decide_eq_false_2 by lia. reflexivity.
Qed.

Lemma walk_levels (body : option (list nat)) (el : Element) (up : list Frame)
    (path : list string) :
  wf_ref el up ->
  walk body el up path
  = (rev (map (fun lv => segment_by_spec lv.1 lv.2) (levels body el up))
     ++ path)%list.
Proof.
  revert el path. induction up as [|f up IH]; intros el path Hwf.
  - simpl. destruct (is_body body []); reflexivity.
  - cbn [walk levels]. destruct (is_body body (f :: up)); [reflexivity |].
    destruct Hwf as [Hpos Hwf].
    cbn [map rev fst snd]. rewrite <- app_assoc. cbn [app].
    rewrite <- (walk_segment el f Hpos).
    unfold lower_tag.
    destruct (bool_decide
                (1 < Z.of_nat
                       (length (siblings_of (frame_parent f)
                                  (Js.toLowerCase (tagName el)))))) eqn:Hn;
      rewrite (IH _ _ Hwf); reflexivity.
Qed.

(** The levels end before the body, and the top of the tree is never one of
    them. *)
Lemma levels_at_body (body : option (list nat)) (el : Element)
    (up : list Frame) :
  body = Some (place up) -> levels body el up = [].
Proof.
  intros Hbody. destruct up; cbn [levels]; unfold is_body;
    rewrite bool_decide_eq_true_2 by exact Hbody; reflexivity.
Qed.

Lemma levels_below (body : option (list nat)) (el : Element) (f : Frame)
    (up : list Frame) :
  body <> Some (place (f :: up)) ->
  levels body el (f :: up) = (el, f) :: levels body (frame_parent f) up.
Proof.
  intros Hbody. cbn [levels]. unfold is_body.
  rewrite bool_decide_eq_false_2 by exact Hbody. reflexivity.
Qed.

Lemma levels_length (body : option (list nat)) (el : Element)
    (up : list Frame) :
  (length (levels body el up) <= length up)%nat.
Proof.
  revert el. induction up as [| f up IH]; intros el; cbn [levels].
  - destruct (is_body body []); simpl; lia.
  - destruct (is_body body (f :: up)); cbn [length]; [lia |].
    specialize (IH (frame_parent f)). lia.
Qed.

Lemma nth_of_type_path_by_spec (body : option (list nat)) (this : ElementRef) :
  wf_ref (target this) (ancestors this) ->
  nth_of_type_path body this (lower_tag (target this)) = path_by_spec body this.
Proof.
  intros Hwf. unfold nth_of_type_path, path_by_spec, segments_by_spec.
  rewrite (walk_levels _ _ _ _ Hwf), app_nil_r.
  destruct (rev _) as [|seg segs]; [reflexivity |].
  rewrite bool_decide_eq_true_2 by (cbn [length]; lia). reflexivity.
Qed.

(** References reached by going down from a well-formed one are well
    formed; going down from the root gives nothing else. *)
Lemma descend_wf (route : list nat) (r r' : ElementRef) :
  wf_ref (target r) (ancestors r) ->
  descend r route = Some r' ->
  wf_ref (target r') (ancestors r').
Proof.
  revert r. induction route as [|i route IH]; intros r Hwf Hd.
  - simpl in Hd. injection Hd as <-. exact Hwf.
  - simpl in Hd. unfold child_ref in Hd.
    destruct (children (target r) !! i) as [c|] eqn:Hc; [|discriminate].
    simpl in Hd. refine (IH _ _ Hd). simpl. split; [exact Hc | exact Hwf].
Qed.

Lemma descend_root_wf (root : Element) (route : list nat) (r : ElementRef) :
  descend (root_ref root) route = Some r ->
  wf_ref (target r) (ancestors r).
Proof. apply descend_wf. exact I. Qed.

(** *** The ladder *)

Lemma form_control_test (tag : string) :
  negb (Js.indexOf (fun t => bool_decide (t = tag)) form_controls =? -1) = true
  <-> is_form_control tag.
Proof.
  unfold is_form_control, form_controls, Js.indexOf. cbn [Js.indexOf_from].
  destruct (bool_decide_reflect ("input" = tag)) as [E1|N1];
    [split; [auto | reflexivity] |].
  destruct (bool_decide_reflect ("select" = tag)) as [E2|N2];
    [split; [auto | reflexivity] |].
  destruct (bool_decide_reflect ("textarea" = tag)) as [E3|N3];
    [split; [auto | reflexivity] |].
  simpl. split; [discriminate |].
  intros [Ht | [Ht | Ht]]; congruence.
Qed.

Lemma name_rung_test (el : Element) :
  Js.truthy_opt (getAttribute el "name") &&
  negb (Js.indexOf (fun t => bool_decide (t = lower_tag el)) form_controls
        =? -1) = true
  <-> is_form_control (lower_tag el) /\ non_empty (getAttribute el "name").
Proof.
  rewrite andb_true_iff, form_control_test, truthy_opt_non_empty. tauto.
Qed.

Lemma rung_id (body : option (list nat)) (this : ElementRef) :
  element_id (target this) <> "" ->
  BUILD_SELECTOR_FUNCTION body this
  = "#" +:+ escapeSelector (element_id (target this)).
Proof.
  intros Hid. unfold BUILD_SELECTOR_FUNCTION.
  apply truthy_non_empty in Hid. rewrite Hid. reflexivity.
Qed.

Lemma rung_testid (body : option (list nat)) (this : ElementRef) (t : string) :
  element_id (target this) = "" ->
  getAttribute (target this) "data-testid" = Some t -> t <> "" ->
  BUILD_SELECTOR_FUNCTION body this
  = "[data-testid=" +:+ Js.dquote +:+ escapeSelector t +:+ Js.dquote +:+ "]".
Proof.
  intros Hid Ht Hne. unfold BUILD_SELECTOR_FUNCTION.
  rewrite Hid, Ht. cbn [Js.truthy Js.truthy_opt default].
  apply truthy_non_empty in Hne. rewrite Hne. reflexivity.
Qed.

Lemma rung_name (body : option (list nat)) (this : ElementRef) (n : string) :
  element_id (target this) = "" ->
  ~ non_empty (getAttribute (target this) "data-testid") ->
  is_form_control (lower_tag (target this)) ->
  getAttribute (target this) "name" = Some n -> n <> "" ->
  BUILD_SELECTOR_FUNCTION body this
  = lower_tag (target this) +:+ "[name=" +:+ Js.dquote +:+ escapeSelector n
    +:+ Js.dquote +:+ "]".
Proof.
  intros Hid Ht Htag Hn Hne. unfold BUILD_SELECTOR_FUNCTION.
  rewrite Hid. cbn [Js.truthy].
  apply truthy_opt_false in Ht. rewrite Ht.
  assert (Js.truthy_opt (getAttribute (target this) "name") &&
          negb (Js.indexOf (fun t => bool_decide (t = lower_tag (target this)))
                  form_controls =? -1) = true) as Hrung.
  { apply name_rung_test. split; [exact Htag |]. exists n. auto. }
  unfold lower_tag in *. rewrite Hrung, Hn. reflexivity.
Qed.

Lemma rung_path (body : option (list nat)) (this : ElementRef) :
  element_id (target this) = "" ->
  ~ non_empty (getAttribute (target this) "data-testid") ->
  ~ (is_form_control (lower_tag (target this)) /\
     non_empty (getAttribute (target this) "name")) ->
  BUILD_SELECTOR_FUNCTION body this
  = nth_of_type_path body this (lower_tag (target this)).
Proof.
  intros Hid Ht Hn. unfold BUILD_SELECTOR_FUNCTION.
  rewrite Hid. cbn [Js.truthy].
  apply truthy_opt_false in Ht. rewrite Ht.
  rewrite <- name_rung_test in Hn. apply not_true_is_false in Hn.
  unfold lower_tag in *. rewrite Hn. reflexivity.
Qed.

(** C2: the synthesized selector follows the priority ladder.  A non-empty id
    gives the hash form of the escaped id, whatever the other attributes are,
    so also when a [data-testid] is present; without an id a non-empty
    [data-testid] gives the attribute form; without both, a form control
    (input, select, textarea) with a non-empty name gives the [tag[name=..]]
    form; only in the remaining case the path of priority 4 is produced. *)
Theorem selector_priority_ladder (body : option (list nat))
    (this : ElementRef) :
  let el := target this in
  let tag := lower_tag el in
  (element_id el <> "" ->
   BUILD_SELECTOR_FUNCTION body this = "#" +:+ escapeSelector (element_id el))
  /\
  (element_id el <> "" -> non_empty (getAttribute el "data-testid") ->
   BUILD_SELECTOR_FUNCTION body this = "#" +:+ escapeSelector (element_id el))
  /\
  (forall t, element_id el = "" ->
   getAttribute el "data-testid" = Some t -> t <> "" ->
   BUILD_SELECTOR_FUNCTION body this
   = "[data-testid=" +:+ Js.dquote +:+ escapeSelector t +:+ Js.dquote +:+ "]")
  /\
  (forall n, element_id el = "" ->
   ~ non_empty (getAttribute el "data-testid") ->
   is_form_control tag ->
   getAttribute el "name" = Some n -> n <> "" ->
   BUILD_SELECTOR_FUNCTION body this
   = tag +:+ "[name=" +:+ Js.dquote +:+ escapeSelector n +:+ Js.dquote
     +:+ "]")
  /\
  (element_id el = "" ->
   ~ non_empty (getAttribute el "data-testid") ->
   ~ (is_form_control tag /\ non_empty (getAttribute el "name")) ->
   BUILD_SELECTOR_FUNCTION body this = nth_of_type_path body this tag).
Proof.
  intros el tag. subst el tag. repeat split.
  - apply rung_id.
  - intros Hid _. apply rung_id, Hid.
  - intros t. apply rung_testid.
  - intros n. apply rung_name.
  - apply rung_path.
Qed.

(** C3: without id, [data-testid] and form-control name, the selector of a
    node of a document tree is the path of the specification: one segment per
    level from the element upwards, ending before the body (and at the top of
    the tree), [tag:nth-of-type(n)] when the parent has more than one child of
    that tag, with [n] the 1-based position among them, the bare tag
    otherwise; the segments joined by [" > "] after ["body > "], and the bare
    lower-case tag when there is no segment. *)
Theorem selector_path_by_spec (body : option (list nat)) (this : ElementRef) :
  element_id (target this) = "" ->
  ~ non_empty (getAttribute (target this) "data-testid") ->
  ~ (is_form_control (lower_tag (target this)) /\
     non_empty (getAttribute (target this) "name")) ->
  wf_ref (target this) (ancestors this) ->
  BUILD_SELECTOR_FUNCTION body this = path_by_spec body this.
Proof.
  intros Hid Ht Hn Hwf.
  rewrite (rung_path body this Hid Ht Hn).
  apply nth_of_type_path_by_spec, Hwf.
Qed.

(** C4: every identifier value that a selector interpolates (id,
    [data-testid], name) is escaped first: the class of the regular expression
    holds exactly the CSS special characters, each occurrence of one of them
    gets a backslash in front, and every other character is kept. *)
Theorem identifier_values_escaped :
  (forall c, c ∈ Js.class_members escape_class_in_page
             <-> is_css_special c = true)
  /\
  (forall s, escapeSelector s = escape_by_spec s)
  /\
  (forall body this, element_id (target this) <> "" ->
   BUILD_SELECTOR_FUNCTION body this
   = "#" +:+ escape_by_spec (element_id (target this)))
  /\
  (forall body this t, element_id (target this) = "" ->
   getAttribute (target this) "data-testid" = Some t -> t <> "" ->
   BUILD_SELECTOR_FUNCTION body this
   = "[data-testid=" +:+ Js.dquote +:+ escape_by_spec t +:+ Js.dquote
     +:+ "]")
  /\
  (forall body this n, element_id (target this) = "" ->
   ~ non_empty (getAttribute (target this) "data-testid") ->
   is_form_control (lower_tag (target this)) ->
   getAttribute (target this) "name" = Some n -> n <> "" ->
   BUILD_SELECTOR_FUNCTION body this
   = lower_tag (target this) +:+ "[name=" +:+ Js.dquote +:+ escape_by_spec n
     +:+ Js.dquote +:+ "]").
Proof.
  repeat split.
  - rewrite escape_class_members. unfold is_css_special.
    apply bool_decide_eq_true_2.
  - rewrite escape_class_members. unfold is_css_special.
    apply bool_decide_eq_true_1.
  - apply escapeSelector_by_spec.
  - intros body this Hid.
    rewrite <- escapeSelector_by_spec. apply rung_id, Hid.
  - intros body this t Hid Ht Hne.
    rewrite <- escapeSelector_by_spec. apply rung_testid; assumption.
  - intros body this n Hid Ht Htag Hn Hne.
    rewrite <- escapeSelector_by_spec. apply rung_name; assumption.
Qed.

(** *** The sample page *)

Ltac absent_attribute :=
  let v := fresh "v" in
  let Hv := fresh "Hv" in
  let Hne := fresh "Hne" in
  intros (v & Hv & Hne); vm_compute in Hv;
  first [ discriminate Hv | injection Hv as <-; apply Hne; reflexivity ].

Lemma selector_priority_ladder_witness :
  BUILD_SELECTOR_FUNCTION sample_body sample_email = "#e\:mail" /\
  BUILD_SELECTOR_FUNCTION sample_body sample_go
  = "[data-testid=" +:+ Js.dquote +:+ "go" +:+ Js.dquote +:+ "]" /\
  BUILD_SELECTOR_FUNCTION sample_body sample_user
  = "input[name=" +:+ Js.dquote +:+ "user\.name" +:+ Js.dquote +:+ "]" /\
  BUILD_SELECTOR_FUNCTION sample_body sample_named_div = "body > form > div".
Proof.
  split; [| split; [| split]].
  - apply (proj1
             (proj2 (selector_priority_ladder sample_body sample_email))).
    + vm_compute. discriminate.
    + exists "mail". split; [reflexivity | discriminate].
  - apply (proj1 (proj2 (proj2
             (selector_priority_ladder sample_body sample_go))) "go").
    + reflexivity.
    + reflexivity.
    + discriminate.
  - apply (proj1 (proj2 (proj2 (proj2
             (selector_priority_ladder sample_body sample_user))))
             "user.name").
    + reflexivity.
    + absent_attribute.
    + left. reflexivity.
    + reflexivity.
    + discriminate.
  - rewrite (proj2 (proj2 (proj2 (proj2
               (selector_priority_ladder sample_body sample_named_div))))).
    + vm_compute. reflexivity.
    + reflexivity.
    + absent_attribute.
    + intros [[Htag | [Htag | Htag]] _]; vm_compute in Htag; discriminate.
Defined.

Lemma selector_path_by_spec_witness :
  BUILD_SELECTOR_FUNCTION sample_body sample_second_button
  = "body > div > button:nth-of-type(2)" /\
  BUILD_SELECTOR_FUNCTION sample_body sample_span = "body > div > span".
Proof.
  split.
  - rewrite (selector_path_by_spec sample_body sample_second_button).
    + vm_compute. reflexivity.
    + reflexivity.
    + absent_attribute.
    + intros [_ Hname]. revert Hname. absent_attribute.
    + vm_compute. repeat split.
  - rewrite (selector_path_by_spec sample_body sample_span).
    + vm_compute. reflexivity.
    + reflexivity.
    + absent_attribute.
    + intros [_ Hname]. revert Hname. absent_attribute.
    + vm_compute. repeat split.
Defined.

Lemma identifier_values_escaped_witness :
  BUILD_SELECTOR_FUNCTION sample_body sample_email = "#e\:mail" /\
  BUILD_SELECTOR_FUNCTION sample_body sample_user
  = "input[name=" +:+ Js.dquote +:+ "user\.name" +:+ Js.dquote +:+ "]".
Proof.
  destruct identifier_values_escaped as (_ & _ & Hid & _ & Hname).
  split.
  - rewrite (Hid sample_body sample_email).
    + vm_compute. reflexivity.
    + vm_compute. discriminate.
  - rewrite (Hname sample_body sample_user "user.name").
    + vm_compute. reflexivity.
    + reflexivity.
    + absent_attribute.
    + left. reflexivity.
    + reflexivity.
    + discriminate.
Defined.

(** Scenario D: two sibling buttons without distinguishing attributes get
    the first and the second [nth-of-type] position. *)
Example sibling_buttons :
  BUILD_SELECTOR_FUNCTION sample_body (sample_ref [1; 0; 0]%nat)
  = "body > div > button:nth-of-type(1)" /\
  BUILD_SELECTOR_FUNCTION sample_body (sample_ref [1; 0; 2]%nat)
  = "body > div > button:nth-of-type(2)".
Proof. split; vm_compute; reflexivity. Qed.

(** The walk ends at the top of the tree as well: the body itself and the
    root give the bare tag, and a node outside the body still gets the
    prefix. *)
Example outside_the_body :
  BUILD_SELECTOR_FUNCTION sample_body (sample_ref [1]%nat) = "body" /\
  BUILD_SELECTOR_FUNCTION sample_body (sample_ref []) = "html" /\
  BUILD_SELECTOR_FUNCTION sample_body (sample_ref [0; 0]%nat)
  = "body > head > title".
Proof. repeat split; vm_compute; reflexivity. Qed.

End SelectorFacts.

(** ** Maps in insertion order *)

Module JsMapFacts.

Section Facts.

Context `{EqDecision K} {V : Type}.

Implicit Types (m : JsMap.t K V) (k i : K) (v : V).

Lemma keys_set k v m i :
  i ∈ JsMap.keys (JsMap.set k v m) <-> i = k \/ i ∈ JsMap.keys m.
Proof.
  unfold JsMap.keys. induction m as [| [k' v'] m IH]; cbn [JsMap.set].
  - rewrite !fmap_cons, fmap_nil. cbn [fst]. rewrite list_elem_of_singleton.
    split; [auto |]. intros [Hi | Hi]; [exact Hi | inversion Hi].
  - destruct (decide (k = k')) as [<- | Hne].
    + rewrite !fmap_cons. cbn [fst]. rewrite !elem_of_cons. tauto.
    + rewrite !fmap_cons. cbn [fst]. rewrite !elem_of_cons, IH. tauto.
Qed.

Lemma size_set k v m : (JsMap.size (JsMap.set k v m) <= S (JsMap.size m))%nat.
Proof.
  unfold JsMap.size. induction m as [| [k' v'] m IH]; cbn [JsMap.set length].
  - lia.
  - destruct (decide (k = k')); cbn [length]; lia.
Qed.

Lemma get_set_eq k v m : JsMap.get k (JsMap.set k v m) = Some v.
Proof.
  induction m as [| [k' v'] m IH]; cbn [JsMap.set JsMap.get].
  - rewrite decide_True by reflexivity. reflexivity.
  - destruct (decide (k = k')) as [<- | Hne]; cbn [JsMap.get].
    + rewrite decide_True by reflexivity. reflexivity.
    + rewrite decide_False by exact Hne. exact IH.
Qed.

Lemma get_set_ne k v m i :
  i <> k -> JsMap.get i (JsMap.set k v m) = JsMap.get i m.
Proof.
  intros Hik. induction m as [| [k' v'] m IH]; cbn [JsMap.set JsMap.get].
  - rewrite decide_False by exact Hik. reflexivity.
  - destruct (decide (k = k')) as [<- | Hne]; cbn [JsMap.get].
    + rewrite !decide_False by exact Hik. reflexivity.
    + rewrite IH. reflexivity.
Qed.

Lemma get_keys k m : is_Some (JsMap.get k m) <-> k ∈ JsMap.keys m.
Proof.
  unfold JsMap.keys. induction m as [| [k' v'] m IH]; cbn [JsMap.get].
  - rewrite fmap_nil. split; [intros [x Hx]; discriminate | inversion 1].
  - rewrite fmap_cons, elem_of_cons. cbn [fst].
    destruct (decide (k = k')) as [-> | Hne].
    + split; [auto | eauto].
    + rewrite IH. tauto.
Qed.

(** A map that is built by [set] alone has every key once. *)
Lemma NoDup_set k v m :
  NoDup (JsMap.keys m) -> NoDup (JsMap.keys (JsMap.set k v m)).
Proof.
  unfold JsMap.keys. induction m as [| [k' v'] m IH]; cbn [JsMap.set].
  - intros _. rewrite fmap_cons, fmap_nil. apply NoDup_singleton.
  - rewrite fmap_cons. cbn [fst]. intros [Hk' Hm]%NoDup_cons.
    destruct (decide (k = k')) as [<- | Hne].
    + rewrite fmap_cons. cbn [fst]. apply NoDup_cons. split; assumption.
    + rewrite fmap_cons. cbn [fst]. apply NoDup_cons. split.
      * intros Hin. apply (keys_set k v m k') in Hin.
        destruct Hin as [Heq | Hin]; [congruence | exact (Hk' Hin)].
      * apply IH, Hm.
Qed.

End Facts.

End JsMapFacts.

(** ** The identity operations *)

Module BackendIdsFacts.

Import Cdp BackendIds.

Section Facts.

Context {B : Type} `{Browser B}.

(** *** Running the operations of a session *)

Lemma run_newCDPSession (page : Page) (w : World B) b r :
  newCDPSession page (browser w) = (b, r) ->
  context_newCDPSession page w
  = (mkWorld b (trace w ++ [NewSession page (opened_session r)]), r).
Proof. intros Hb. unfold context_newCDPSession. rewrite Hb. reflexivity. Qed.

Lemma run_send {R} (s : Session) (c : Command R) (w : World B) b r :
  send s c (browser w) = (b, r) ->
  cdpSession_send s c w = (mkWorld b (trace w ++ [Send s R c]), r).
Proof. intros Hb. unfold cdpSession_send. rewrite Hb. reflexivity. Qed.

Lemma run_detach (s : Session) (w : World B) b r :
  detach s (browser w) = (b, r) ->
  cdpSession_detach s w = (mkWorld b (trace w ++ [Detach s]), r).
Proof. intros Hb. unfold cdpSession_detach. rewrite Hb. reflexivity. Qed.

Lemma run_bind {A A'} (m : M B A) (f : A -> M B A') (w : World B) :
  (m ≫= f) w
  = match m w with
    | (w', inl e) => (w', inl e)
    | (w', inr a) => f a w'
    end.
Proof. reflexivity. Qed.

(** *** Commands over one session *)

Lemma replay_app (t1 t2 : list Event) (b : B) :
  replay (t1 ++ t2) b = replay t2 (replay t1 b).
Proof.
  revert b. induction t1 as [| e t1 IH]; intros b; [reflexivity |].
  destruct e; cbn [app replay]; apply IH.
Qed.

Lemma sends_only_ret {A} (s : Session) (x : A) :
  sends_only s (mret x : M B A).
Proof.
  intros w. exists []. split; [| split; [constructor | reflexivity]].
  unfold mret, M_ret. simpl. rewrite app_nil_r. reflexivity.
Qed.

Lemma sends_only_throw {A} (s : Session) (e : Exn) :
  sends_only s (throw e : M B A).
Proof.
  intros w. exists []. split; [| split; [constructor | reflexivity]].
  unfold throw. simpl. rewrite app_nil_r. reflexivity.
Qed.

Lemma sends_only_send {R} (s : Session) (c : Command R) :
  sends_only s (cdpSession_send s c).
Proof.
  intros w. exists [Send s R c]. unfold cdpSession_send. cbn [replay].
  destruct (send s c (browser w)) as [b r]. split; [reflexivity |].
  split; [| reflexivity].
  constructor; [reflexivity | constructor].
Qed.

Lemma sends_only_bind {A A'} (s : Session) (m : M B A) (f : A -> M B A') :
  sends_only s m -> (forall a, sends_only s (f a)) -> sends_only s (m ≫= f).
Proof.
  intros Hm Hf w. rewrite run_bind.
  destruct (Hm w) as (t1 & Ht1 & Hs1 & Hb1).
  destruct (m w) as [w1 [e | a]].
  - exists t1. split; [| split]; assumption.
  - destruct (Hf a w1) as (t2 & Ht2 & Hs2 & Hb2).
    exists (t1 ++ t2)%list. split; [| split].
    + rewrite Ht2. simpl in Ht1. rewrite Ht1, app_assoc. reflexivity.
    + apply Forall_app. split; assumption.
    + rewrite Hb2, replay_app. simpl in Hb1. rewrite Hb1. reflexivity.
Qed.

Lemma sends_only_try_catch {A} (s : Session) (m : M B A)
    (h : Exn -> M B A) :
  sends_only s m -> (forall e, sends_only s (h e)) ->
  sends_only s (try_catch m h).
Proof.
  intros Hm Hh w. unfold try_catch.
  destruct (Hm w) as (t1 & Ht1 & Hs1 & Hb1).
  destruct (m w) as [w1 [e | a]].
  - destruct (Hh e w1) as (t2 & Ht2 & Hs2 & Hb2).
    exists (t1 ++ t2)%list. split; [| split].
    + rewrite Ht2. simpl in Ht1. rewrite Ht1, app_assoc. reflexivity.
    + apply Forall_app. split; assumption.
    + rewrite Hb2, replay_app. simpl in Hb1. rewrite Hb1. reflexivity.
  - exists t1. split; [| split]; assumption.
Qed.

Lemma sends_only_throw_if (s : Session) (cond : bool) (e : Exn) :
  sends_only s (throw_if cond e : M B unit).
Proof.
  unfold throw_if. destruct cond;
    [apply sends_only_throw | apply sends_only_ret].
Qed.

Lemma sends_only_resolve_entry (s : Session) (root : Node) (index : Z)
    (selector : string) (acc : JsMap.t Z Z) :
  sends_only s (resolve_entry s root index selector acc).
Proof.
  unfold resolve_entry. apply sends_only_try_catch.
  - apply sends_only_bind; [apply sends_only_send |]. intros nodeId.
    destruct (Js.truthy_num nodeId && negb (nodeId =? 0)).
    + apply sends_only_bind; [apply sends_only_send |]. intros node.
      apply sends_only_ret.
    + apply sends_only_ret.
  - intros e. apply sends_only_ret.
Qed.

Lemma sends_only_for_of (s : Session) (root : Node)
    (entries : JsMap.t Z string) (acc : JsMap.t Z Z) :
  sends_only s (for_of entries (resolve_entry s root) acc).
Proof.
  revert acc. induction entries as [| [index selector] rest IH]; intros acc.
  - apply sends_only_ret.
  - cbn [for_of]. apply sends_only_bind.
    + apply sends_only_resolve_entry.
    + intros acc'. apply IH.
Qed.

(** The pattern of the three functions: open a session, run the body in a
    [try], detach in its [finally]. *)
Lemma scoped_session {A} (page : Page) (body : Session -> M B A)
    (w : World B) :
  (forall s, sends_only s (body s)) ->
  exists t,
    trace ((context_newCDPSession page ≫=
            (fun s => try_finally (body s) (cdpSession_detach s))) w).1
    = (trace w ++ t)%list /\
    scoped page t /\
    browser ((context_newCDPSession page ≫=
              (fun s => try_finally (body s) (cdpSession_detach s))) w).1
    = replay t (browser w).
Proof.
  intros Hbody. rewrite run_bind. unfold context_newCDPSession.
  destruct (newCDPSession page (browser w)) as [b1 [e | s]] eqn:Hnew.
  - exists [NewSession page None]. split; [reflexivity |].
    split; [left; reflexivity |]. cbn [replay fst browser]. rewrite Hnew.
    reflexivity.
  - unfold try_finally.
    destruct (Hbody s (mkWorld b1 (trace w ++ [NewSession page (Some s)])))
      as (t & Ht & Hs & Hb).
    destruct (body s _) as [w1 outcome]. simpl in Ht, Hb.
    unfold cdpSession_detach.
    exists (NewSession page (Some s) :: t ++ [Detach s])%list.
    assert (replay (NewSession page (Some s) :: t ++ [Detach s]) (browser w)
            = (detach s (browser w1)).1) as Hreplay.
    { cbn [replay]. rewrite Hnew, replay_app. cbn [fst replay].
      rewrite Hb. reflexivity. }
    rewrite Hreplay.
    destruct (detach s (browser w1)) as [b2 [e | u]].
    + split; [| split; [| reflexivity]].
      * cbn [fst trace]. rewrite Ht, <- !app_assoc. reflexivity.
      * right. exists s, t. split; [reflexivity | exact Hs].
    + split; [| split; [| reflexivity]].
      * cbn [fst trace]. rewrite Ht, <- !app_assoc. reflexivity.
      * right. exists s, t. split; [reflexivity | exact Hs].
Qed.

(** *** The loop of [resolveBackendIds] *)

Lemma resolve_entry_run (s : Session) (root : Node) (index : Z)
    (selector : string) (acc : JsMap.t Z Z) (w : World B) :
  exists t,
    resolve_entry s root index selector acc w
    = (mkWorld (lookup_selector s root selector (browser w)).1
               (trace w ++ t),
       inr (match (lookup_selector s root selector (browser w)).2 with
            | Some backend => JsMap.set index backend acc
            | None => acc
            end)) /\
    queried t = [selector].
Proof.
  unfold resolve_entry, try_catch, lookup_selector. rewrite run_bind.
  unfold cdpSession_send at 1.
  destruct (send s (DOM_querySelector (nodeId root) selector) (browser w))
    as [b1 [e | n]].
  - eexists. split; [reflexivity | reflexivity].
  - destruct (Js.truthy_num n && negb (n =? 0)).
    + rewrite run_bind. unfold cdpSession_send. cbn [browser trace].
      destruct (send s (DOM_describeNode n) b1) as [b2 [e | node]].
      * exists [Send s Z (DOM_querySelector (nodeId root) selector);
                Send s Node (DOM_describeNode n)].
        cbn [fst snd]. unfold mret, M_ret. rewrite <- app_assoc.
        split; reflexivity.
      * exists [Send s Z (DOM_querySelector (nodeId root) selector);
                Send s Node (DOM_describeNode n)].
        cbn [fst snd]. unfold mret, M_ret. rewrite <- app_assoc.
        split; reflexivity.
    + eexists. split; [reflexivity | reflexivity].
Qed.

Lemma queried_app (t1 t2 : list Event) :
  queried (t1 ++ t2) = (queried t1 ++ queried t2)%list.
Proof. unfold queried. apply flat_map_app. Qed.

(** The loop visits every entry, in order, throws nothing, and builds the map
    of [collect]. *)
Lemma for_of_run (s : Session) (root : Node) (entries : JsMap.t Z string)
    (acc : JsMap.t Z Z) (w : World B) :
  exists t,
    for_of entries (resolve_entry s root) acc w
    = (mkWorld (collect s root entries acc (browser w)).1 (trace w ++ t),
       inr (collect s root entries acc (browser w)).2) /\
    queried t = JsMap.values entries.
Proof.
  revert acc w. induction entries as [| [index selector] rest IH];
    intros acc w.
  - exists []. cbn [for_of collect fst snd]. unfold mret, M_ret.
    rewrite app_nil_r. destruct w. split; reflexivity.
  - cbn [for_of]. rewrite run_bind.
    destruct (resolve_entry_run s root index selector acc w) as (t1 & -> & Hq1).
    cbn [collect].
    destruct (lookup_selector s root selector (browser w)) as [b1 found].
    cbn [fst snd].
    destruct (IH (match found with
                  | Some backend => JsMap.set index backend acc
                  | None => acc
                  end) (mkWorld b1 (trace w ++ t1))) as (t2 & -> & Hq2).
    exists (t1 ++ t2)%list. cbn [browser trace]. split.
    + rewrite app_assoc. reflexivity.
    + rewrite queried_app, Hq1, Hq2. reflexivity.
Qed.

(** *** The map that the loop builds *)

Lemma collect_keys (s : Session) (root : Node) (entries : JsMap.t Z string)
    (acc : JsMap.t Z Z) (b : B) (i : Z) :
  i ∈ JsMap.keys (collect s root entries acc b).2 ->
  i ∈ JsMap.keys acc \/ i ∈ JsMap.keys entries.
Proof.
  revert acc b. induction entries as [| [index selector] rest IH];
    intros acc b; cbn [collect].
  - cbn [snd]. auto.
  - destruct (lookup_selector s root selector b) as [b' found].
    intros Hi. apply IH in Hi.
    change (JsMap.keys ((index, selector) :: rest))
      with (index :: JsMap.keys rest).
    rewrite elem_of_cons.
    destruct Hi as [Hi | Hi]; [| right; right; exact Hi].
    destruct found as [backend |]; [| left; exact Hi].
    apply JsMapFacts.keys_set in Hi. destruct Hi as [-> | Hi]; auto.
Qed.

Lemma collect_size (s : Session) (root : Node) (entries : JsMap.t Z string)
    (acc : JsMap.t Z Z) (b : B) :
  (JsMap.size (collect s root entries acc b).2
   <= JsMap.size acc + JsMap.size entries)%nat.
Proof.
  revert acc b. induction entries as [| [index selector] rest IH];
    intros acc b; cbn [collect].
  - cbn [snd]. unfold JsMap.size. simpl. lia.
  - destruct (lookup_selector s root selector b) as [b' found].
    etrans; [apply IH |].
    change (JsMap.size ((index, selector) :: rest)) with (S (JsMap.size rest)).
    destruct found as [backend |]; [| lia].
    pose proof (JsMapFacts.size_set index backend acc). lia.
Qed.

Lemma collect_NoDup (s : Session) (root : Node) (entries : JsMap.t Z string)
    (acc : JsMap.t Z Z) (b : B) :
  NoDup (JsMap.keys acc) -> NoDup (JsMap.keys (collect s root entries acc b).2).
Proof.
  revert acc b. induction entries as [| [index selector] rest IH];
    intros acc b Hacc; cbn [collect].
  - exact Hacc.
  - destruct (lookup_selector s root selector b) as [b' found].
    apply IH. destruct found; [apply JsMapFacts.NoDup_set |]; exact Hacc.
Qed.

(** Entries under other indexes leave an index alone. *)
Lemma collect_preserves (s : Session) (root : Node)
    (entries : JsMap.t Z string) (acc : JsMap.t Z Z) (b : B) (i : Z) :
  i ∉ JsMap.keys entries ->
  JsMap.get i (collect s root entries acc b).2 = JsMap.get i acc.
Proof.
  revert acc b. induction entries as [| [index selector] rest IH];
    intros acc b Hi; cbn [collect].
  - reflexivity.
  - unfold JsMap.keys in Hi. rewrite fmap_cons, not_elem_of_cons in Hi.
    cbn [fst] in Hi. destruct Hi as [Hne Hi].
    destruct (lookup_selector s root selector b) as [b' found].
    rewrite (IH _ _ Hi). destruct found; [| reflexivity].
    apply JsMapFacts.get_set_ne, Hne.
Qed.

Section Alive.

(** [alive] holds of the browser as long as the session [s] can be used:
    sending a command keeps it. *)
Variables (s : Session) (alive : B -> Prop).

Hypothesis alive_send :
  forall R (c : Command R) b, alive b -> alive (send s c b).1.

Lemma lookup_alive (root : Node) (selector : string) (b : B) :
  alive b -> alive (lookup_selector s root selector b).1.
Proof.
  intros Hb. unfold lookup_selector.
  pose proof (alive_send _ (DOM_querySelector (nodeId root) selector) b Hb)
    as H1.
  destruct (send s (DOM_querySelector (nodeId root) selector) b)
    as [b1 [e | n]]; [exact H1 |].
  destruct (Js.truthy_num n && negb (n =? 0)); [| exact H1].
  pose proof (alive_send _ (DOM_describeNode n) b1 H1) as H2.
  destruct (send s (DOM_describeNode n) b1) as [b2 [e | node]]; exact H2.
Qed.

Lemma collect_alive (root : Node) (entries : JsMap.t Z string)
    (acc : JsMap.t Z Z) (b : B) :
  alive b -> alive (collect s root entries acc b).1.
Proof.
  revert acc b. induction entries as [| [index selector] rest IH];
    intros acc b Hb; cbn [collect].
  - exact Hb.
  - pose proof (lookup_alive root selector b Hb) as Hb'.
    destruct (lookup_selector s root selector b) as [b' found].
    apply IH, Hb'.
Qed.

(** An index whose selectors find nothing is not in the map. *)
Lemma collect_omits (root : Node) (entries : JsMap.t Z string)
    (acc : JsMap.t Z Z) (b : B) (i : Z) :
  alive b ->
  i ∉ JsMap.keys acc ->
  (forall selector, (i, selector) ∈ entries ->
     forall b', alive b' -> (lookup_selector s root selector b').2 = None) ->
  i ∉ JsMap.keys (collect s root entries acc b).2.
Proof.
  revert acc b. induction entries as [| [index selector] rest IH];
    intros acc b Hb Hacc Hfail; cbn [collect].
  - exact Hacc.
  - pose proof (lookup_alive root selector b Hb) as Hb'.
    destruct (lookup_selector s root selector b) as [b' found] eqn:Hlook.
    apply IH; [exact Hb' | |].
    + destruct found as [backend |]; [| exact Hacc].
      rewrite JsMapFacts.keys_set. intros [-> | Hin]; [| exact (Hacc Hin)].
      pose proof (Hfail selector (list_elem_of_here _ _) b Hb) as Hnone.
      rewrite Hlook in Hnone. discriminate.
    + intros selector' Hin. apply Hfail. apply list_elem_of_further, Hin.
Qed.

(** An index whose selector finds a node is in the map with the backend node
    id of that node, whatever happens to the other entries. *)
Lemma collect_finds (root : Node) (entries : JsMap.t Z string)
    (acc : JsMap.t Z Z) (b : B) (i : Z) (selector : string) (backend : Z) :
  alive b ->
  NoDup (JsMap.keys entries) ->
  (i, selector) ∈ entries ->
  (forall b', alive b' ->
     (lookup_selector s root selector b').2 = Some backend) ->
  JsMap.get i (collect s root entries acc b).2 = Some backend.
Proof.
  revert acc b. induction entries as [| [index selector'] rest IH];
    intros acc b Hb Hnodup Hin Hfound; [inversion Hin |].
  unfold JsMap.keys in Hnodup. rewrite fmap_cons, NoDup_cons in Hnodup.
  cbn [fst] in Hnodup. destruct Hnodup as [Hfresh Hnodup].
  cbn [collect].
  pose proof (lookup_alive root selector' b Hb) as Hb'.
  destruct (lookup_selector s root selector' b) as [b' found] eqn:Hlook.
  apply elem_of_cons in Hin. destruct Hin as [Heq | Hin].
  - injection Heq as -> ->.
    rewrite (collect_preserves s root rest _ b' index Hfresh).
    pose proof (Hfound b Hb) as Hsome. rewrite Hlook in Hsome.
    cbn [snd] in Hsome. subst found. apply JsMapFacts.get_set_eq.
  - apply IH; assumption.
Qed.

End Alive.

(** C5, amended: with a session that opens and detaches,
    [isBackendNodeIdValid] returns a boolean and throws nothing: [true]
    exactly when [DOM.resolveNode] is answered for the handle, [false] for
    every rejection of it.  Nothing but the handle is asked of the engine, so
    whether the element is still attached to its document plays no part.
    A rejection of [newCDPSession], which precedes the [try], or of the
    detach in the [finally] is thrown. *)
Theorem isBackendNodeIdValid_boolean (page : Page) (backendNodeId : Z)
    (w : World B) :
  (forall b1 b2 b3 s r,
     newCDPSession page (browser w) = (b1, inr s) ->
     send s (DOM_resolveNode backendNodeId None) b1 = (b2, r) ->
     detach s b2 = (b3, inr ()) ->
     exists w',
       isBackendNodeIdValid page backendNodeId w = (w', inr (answered r)) /\
       browser w' = b3 /\
       trace w' = (trace w ++
                   [NewSession page (Some s);
                    Send s RemoteObject (DOM_resolveNode backendNodeId None);
                    Detach s])%list) /\
  (forall b1 e,
     newCDPSession page (browser w) = (b1, inl e) ->
     (isBackendNodeIdValid page backendNodeId w).2 = inl e) /\
  (forall b1 b2 b3 s r e,
     newCDPSession page (browser w) = (b1, inr s) ->
     send s (DOM_resolveNode backendNodeId None) b1 = (b2, r) ->
     detach s b2 = (b3, inl e) ->
     (isBackendNodeIdValid page backendNodeId w).2 = inl e).
Proof.
  split; [| split].
  - intros b1 b2 b3 s r Hnew Hsend Hdetach.
    unfold isBackendNodeIdValid.
    rewrite run_bind, (run_newCDPSession _ _ _ _ Hnew).
    unfold try_finally, try_catch. rewrite run_bind.
    rewrite (run_send s _ (mkWorld b1 _) b2 r Hsend).
    destruct r as [e | object]; cbn [answered].
    + unfold mret, M_ret. rewrite (run_detach s (mkWorld b2 _) b3 _ Hdetach).
      eexists. split; [reflexivity |]. cbn [browser trace opened_session].
      split; [reflexivity |]. rewrite <- !app_assoc. reflexivity.
    + unfold mret, M_ret. rewrite (run_detach s (mkWorld b2 _) b3 _ Hdetach).
      eexists. split; [reflexivity |]. cbn [browser trace opened_session].
      split; [reflexivity |]. rewrite <- !app_assoc. reflexivity.
  - intros b1 e Hnew. unfold isBackendNodeIdValid.
    rewrite run_bind, (run_newCDPSession _ _ _ _ Hnew). reflexivity.
  - intros b1 b2 b3 s r e Hnew Hsend Hdetach.
    unfold isBackendNodeIdValid.
    rewrite run_bind, (run_newCDPSession _ _ _ _ Hnew).
    unfold try_finally, try_catch. rewrite run_bind.
    rewrite (run_send s _ (mkWorld b1 _) b2 r Hsend).
    destruct r as [e' | object]; unfold mret, M_ret;
      rewrite (run_detach s (mkWorld b2 _) b3 _ Hdetach); reflexivity.
Qed.

(** The whole of [resolveBackendIds] once the session is open and the
    document root is known: the loop, then the detach. *)
Lemma resolveBackendIds_run (page : Page) (selectorMap : JsMap.t Z string)
    (w : World B) (b1 b2 : B) (s : Session) (root : Node) :
  newCDPSession page (browser w) = (b1, inr s) ->
  send s (DOM_getDocument 0) b1 = (b2, inr root) ->
  exists t,
    Forall (sent_on s) t /\
    queried t = JsMap.values selectorMap /\
    resolveBackendIds page selectorMap w
    = (let '(b3, m) := collect s root selectorMap JsMap.empty b2 in
       let '(b4, r) := detach s b3 in
       (mkWorld b4
          (trace w ++
           NewSession page (Some s) :: Send s Node (DOM_getDocument 0) ::
           t ++ [Detach s]),
        match r with
        | inl e => inl e
        | inr _ => inr m
        end)).
Proof.
  intros Hnew Hdoc.
  unfold resolveBackendIds.
  rewrite run_bind, (run_newCDPSession _ _ _ _ Hnew).
  unfold try_finally. rewrite run_bind.
  rewrite (run_send s _ (mkWorld b1 _) b2 _ Hdoc). rewrite run_bind.
  destruct (for_of_run s root selectorMap JsMap.empty
              (mkWorld b2 ((trace w ++ [NewSession page (opened_session (inr s))])
                           ++ [Send s Node (DOM_getDocument 0)])))
    as (t & Hrun & Hq).
  destruct (sends_only_for_of s root selectorMap JsMap.empty
              (mkWorld b2 ((trace w ++ [NewSession page (opened_session (inr s))])
                           ++ [Send s Node (DOM_getDocument 0)])))
    as (t' & Ht' & Hs' & _).
  rewrite Hrun in Ht'. cbn [fst trace] in Ht'. apply app_inv_head in Ht'.
  subst t'. exists t. split; [exact Hs' |]. split; [exact Hq |].
  cbn [browser trace] in Hrun |- *.
  rewrite Hrun. cbn [browser trace opened_session].
  destruct (collect s root selectorMap JsMap.empty b2) as [b3 m].
  cbn [fst snd]. unfold mret, M_ret, cdpSession_detach. cbn [browser trace].
  destruct (detach s b3) as [b4 [e | u]];
    rewrite <- !app_assoc; reflexivity.
Qed.

(** C1: once the session is open and the document root is known,
    [resolveBackendIds] returns a map and throws nothing, whatever the
    selectors do: its keys are keys of the selector map and it is no larger;
    every selector is queried, in the order of the map, also after one that
    failed; an index whose selector finds nothing, or is rejected, is left out
    of the map; an index whose selector finds a node is in the map with the
    backend node id of that node; and the map may be empty, as it is for the
    empty selector map. *)
Theorem resolveBackendIds_partial (page : Page)
    (selectorMap : JsMap.t Z string) (w : World B) (b1 b2 : B) (s : Session)
    (root : Node) (alive : B -> Prop) :
  (forall R (c : Command R) b, alive b -> alive (send s c b).1) ->
  (forall b, alive b -> exists b', detach s b = (b', inr ())) ->
  newCDPSession page (browser w) = (b1, inr s) ->
  alive b1 ->
  send s (DOM_getDocument 0) b1 = (b2, inr root) ->
  exists w' m t,
    resolveBackendIds page selectorMap w = (w', inr m) /\
    (forall i, i ∈ JsMap.keys m -> i ∈ JsMap.keys selectorMap) /\
    NoDup (JsMap.keys m) /\
    (JsMap.size m <= JsMap.size selectorMap)%nat /\
    trace w' = (trace w ++
                NewSession page (Some s) :: Send s Node (DOM_getDocument 0) ::
                t ++ [Detach s])%list /\
    queried t = JsMap.values selectorMap /\
    (forall i,
       (forall selector, (i, selector) ∈ selectorMap ->
          forall b, alive b -> (lookup_selector s root selector b).2 = None) ->
       i ∉ JsMap.keys m) /\
    (forall i selector backend,
       NoDup (JsMap.keys selectorMap) ->
       (i, selector) ∈ selectorMap ->
       (forall b, alive b ->
          (lookup_selector s root selector b).2 = Some backend) ->
       JsMap.get i m = Some backend) /\
    (selectorMap = [] -> m = []).
Proof.
  intros Hsend Hdetach Hnew Halive1 Hdoc.
  assert (alive b2) as Halive2.
  { pose proof (Hsend _ (DOM_getDocument 0) b1 Halive1) as Ha.
    rewrite Hdoc in Ha. exact Ha. }
  destruct (resolveBackendIds_run page selectorMap w b1 b2 s root Hnew Hdoc)
    as (t & _ & Hq & Hrun).
  pose proof (collect_alive s alive Hsend root selectorMap JsMap.empty b2
                Halive2) as Halive3.
  pose proof (collect_keys s root selectorMap JsMap.empty b2) as Hkeys.
  pose proof (collect_size s root selectorMap JsMap.empty b2) as Hsize.
  pose proof (collect_NoDup s root selectorMap JsMap.empty b2) as Hnodup.
  pose proof (collect_omits s alive Hsend root selectorMap JsMap.empty b2)
    as Homits.
  pose proof (collect_finds s alive Hsend root selectorMap JsMap.empty b2)
    as Hfinds.
  assert (selectorMap = [] ->
          (collect s root selectorMap JsMap.empty b2).2 = []) as Hempty.
  { intros ->. reflexivity. }
  destruct (collect s root selectorMap JsMap.empty b2) as [b3 m].
  cbn [fst snd] in *.
  destruct (Hdetach b3 Halive3) as (b4 & Hb4). rewrite Hb4 in Hrun.
  eexists _, m, t. split; [exact Hrun |]. cbn [trace].
  split.
  { intros i Hi. destruct (Hkeys i Hi) as [Hin | Hin]; [inversion Hin | exact Hin]. }
  split; [apply Hnodup; constructor |].
  split; [exact Hsize |].
  split; [reflexivity |].
  split; [exact Hq |].
  split.
  { intros i Hfail. apply Homits; [exact Halive2 | inversion 1 | exact Hfail]. }
  split; [| exact Hempty].
  intros i selector backend Hnd Hin Hfound.
  apply (Hfinds i selector backend Halive2 Hnd Hin Hfound).
Qed.

(** C6: [resolveSelectorFromBackendId] throws whenever the handle does not
    denote a resolvable object for the engine ([DOM.resolveNode] is rejected
    or gives no object id), and whenever the synthesis function fails in the
    page ([Runtime.callFunctionOn] is rejected or reports an exception): the
    call ends with a thrown value, not with a selector. *)
Theorem resolveSelectorFromBackendId_raises (page : Page) (backendNodeId : Z)
    (w : World B) (b1 b2 : B) (s : Session) (r : Exn + RemoteObject) :
  newCDPSession page (browser w) = (b1, inr s) ->
  send s (DOM_resolveNode backendNodeId (Some "devbrowser-selector")) b1
  = (b2, r) ->
  unresolvable r \/
  (exists object,
     r = inr object /\
     synthesis_fails
       (send s (Runtime_callFunctionOn (default "" (objectId object))
                  BUILD_SELECTOR_FUNCTION true) b2).2) ->
  exists w' e,
    resolveSelectorFromBackendId page backendNodeId w = (w', inl e).
Proof.
  intros Hnew Hresolve Hfail.
  unfold resolveSelectorFromBackendId.
  rewrite run_bind, (run_newCDPSession _ _ _ _ Hnew).
  unfold try_finally. rewrite run_bind.
  rewrite (run_send s _ (mkWorld b1 _) b2 r Hresolve).
  destruct r as [e | object].
  - (* DOM.resolveNode is rejected *)
    unfold cdpSession_detach. cbn [browser].
    destruct (detach s b2) as [b3 [e3 | u]]; eauto.
  - rewrite run_bind. unfold throw_if at 1.
    destruct (Js.truthy_opt (objectId object)) eqn:Hoid; cbn [negb].
    + destruct Hfail as [Hun | (object' & Heq & Hsyn)].
      { simpl in Hun. congruence. }
      injection Heq as <-.
      unfold mret at 1, M_ret at 1. rewrite run_bind.
      unfold cdpSession_send at 1. cbn [browser trace].
      destruct (send s (Runtime_callFunctionOn (default "" (objectId object))
                          BUILD_SELECTOR_FUNCTION true) b2)
        as [b3 [e | result]].
      * unfold cdpSession_detach. cbn [browser].
        destruct (detach s b3) as [b4 [e4 | u]]; eauto.
      * rewrite run_bind. unfold cdpSession_send at 1. cbn [browser trace].
        destruct (send s (Runtime_releaseObjectGroup "devbrowser-selector") b3)
          as [b4 [e | u]].
        -- unfold cdpSession_detach. cbn [browser].
           destruct (detach s b4) as [b5 [e5 | u]]; eauto.
        -- rewrite run_bind. unfold throw_if.
           cbn [snd synthesis_fails] in Hsyn.
           rewrite (bool_decide_eq_true_2 _ Hsyn). unfold throw.
           unfold cdpSession_detach. cbn [browser].
           destruct (detach s b4) as [b5 [e5 | u']]; eauto.
    + unfold throw. unfold cdpSession_detach. cbn [browser].
      destruct (detach s b2) as [b3 [e3 | u]]; eauto.
Qed.

(** When every step is answered, the call returns the string that the page
    computed. *)
Lemma resolveSelectorFromBackendId_returns (page : Page) (backendNodeId : Z)
    (w : World B) (b1 b2 b3 b4 b5 : B) (s : Session) (oid selector : string)
    (object result : RemoteObject) :
  newCDPSession page (browser w) = (b1, inr s) ->
  send s (DOM_resolveNode backendNodeId (Some "devbrowser-selector")) b1
  = (b2, inr object) ->
  objectId object = Some oid -> oid <> "" ->
  send s (Runtime_callFunctionOn oid BUILD_SELECTOR_FUNCTION true) b2
  = (b3, inr (mkCallResult result None)) ->
  send s (Runtime_releaseObjectGroup "devbrowser-selector") b3
  = (b4, inr ()) ->
  detach s b4 = (b5, inr ()) ->
  (resolveSelectorFromBackendId page backendNodeId w).2 = inr (value result).
Proof.
  intros Hnew Hresolve Hoid Hne Hcall Hrelease Hdetach.
  unfold resolveSelectorFromBackendId.
  rewrite run_bind, (run_newCDPSession _ _ _ _ Hnew).
  unfold try_finally. rewrite run_bind.
  rewrite (run_send s _ (mkWorld b1 _) b2 _ Hresolve).
  rewrite run_bind, Hoid. cbn [Js.truthy_opt default].
  destruct oid as [| c oid]; [congruence |].
  cbn [Js.truthy negb throw_if]. unfold mret at 1, M_ret at 1.
  rewrite run_bind, (run_send s _ (mkWorld b2 _) b3 _ Hcall).
  rewrite run_bind, (run_send s _ (mkWorld b3 _) b4 _ Hrelease).
  rewrite run_bind. cbn [exceptionDetails].
  rewrite bool_decide_eq_false_2 by (intros [x Hx]; discriminate).
  cbn [throw_if]. unfold mret, M_ret.
  rewrite (run_detach s (mkWorld b4 _) b5 _ Hdetach). reflexivity.
Qed.

(** C7: each of the three operations opens a session of its own first, sends
    every command over that session, and detaches it last, on every way out:
    when the body returns, when a selector failed, when something was thrown.
    When no session can be opened nothing else happens.  The browser after
    the call is the one that these operations leave, the detach of the
    session included.  In [resolveBackendIds] the selectors are queried one
    after the other, in the order of the map, over that one session, and the
    detach comes after the last of them. *)
Theorem session_scoped (page : Page) (selectorMap : JsMap.t Z string)
    (backendNodeId : Z) (w : World B) :
  (exists t,
     trace (resolveBackendIds page selectorMap w).1 = (trace w ++ t)%list /\
     scoped page t /\
     browser (resolveBackendIds page selectorMap w).1
     = replay t (browser w)) /\
  (exists t,
     trace (resolveSelectorFromBackendId page backendNodeId w).1
     = (trace w ++ t)%list /\
     scoped page t /\
     browser (resolveSelectorFromBackendId page backendNodeId w).1
     = replay t (browser w)) /\
  (exists t,
     trace (isBackendNodeIdValid page backendNodeId w).1
     = (trace w ++ t)%list /\
     scoped page t /\
     browser (isBackendNodeIdValid page backendNodeId w).1
     = replay t (browser w)) /\
  (forall b1 b2 s root,
     newCDPSession page (browser w) = (b1, inr s) ->
     send s (DOM_getDocument 0) b1 = (b2, inr root) ->
     exists t,
       trace (resolveBackendIds page selectorMap w).1
       = (trace w ++
          NewSession page (Some s) :: Send s Node (DOM_getDocument 0) ::
          t ++ [Detach s])%list /\
       Forall (sent_on s) t /\
       queried t = JsMap.values selectorMap /\
       browser (resolveBackendIds page selectorMap w).1
       = (detach s (replay t b2)).1).
Proof.
  split; [| split; [| split]].
  - apply (scoped_session page
             (fun s => root ← cdpSession_send s (DOM_getDocument 0);
                       m ← for_of selectorMap (resolve_entry s root)
                             JsMap.empty;
                       mret m)).
    intros s. apply sends_only_bind; [apply sends_only_send |]. intros root.
    apply sends_only_bind; [apply sends_only_for_of |]. intros m.
    apply sends_only_ret.
  - apply (scoped_session page
             (fun s =>
                object ← cdpSession_send s
                           (DOM_resolveNode backendNodeId
                              (Some "devbrowser-selector"));
                _ ← throw_if (negb (Js.truthy_opt (objectId object)))
                      (Error "Could not resolve node to object");
                result ← cdpSession_send s
                           (Runtime_callFunctionOn
                              (default "" (objectId object))
                              BUILD_SELECTOR_FUNCTION true);
                _ ← cdpSession_send s
                      (Runtime_releaseObjectGroup "devbrowser-selector");
                _ ← throw_if (bool_decide (is_Some (exceptionDetails result)))
                      (Error ("Failed to build selector: " +:+
                              default "" (text <$> exceptionDetails result)));
                mret (value (Cdp.result result)))).
    intros s. apply sends_only_bind; [apply sends_only_send |]. intros object.
    apply sends_only_bind; [apply sends_only_throw_if |]. intros _.
    apply sends_only_bind; [apply sends_only_send |]. intros result.
    apply sends_only_bind; [apply sends_only_send |]. intros _.
    apply sends_only_bind; [apply sends_only_throw_if |]. intros _.
    apply sends_only_ret.
  - apply (scoped_session page
             (fun s =>
                try_catch
                  (_ ← cdpSession_send s (DOM_resolveNode backendNodeId None);
                   mret true)
                  (fun _ => mret false))).
    intros s. apply sends_only_try_catch.
    + apply sends_only_bind; [apply sends_only_send |]. intros _.
      apply sends_only_ret.
    + intros e. apply sends_only_ret.
  - intros b1 b2 s root Hnew Hdoc.
    destruct (resolveBackendIds_run page selectorMap w b1 b2 s root Hnew Hdoc)
      as (t & Hs & Hq & Hrun).
    assert (trace (resolveBackendIds page selectorMap w).1
            = (trace w ++
               NewSession page (Some s) :: Send s Node (DOM_getDocument 0) ::
               t ++ [Detach s])%list) as Htrace.
    { rewrite Hrun.
      destruct (collect s root selectorMap JsMap.empty b2) as [b3 m].
      destruct (detach s b3) as [b4 r]. reflexivity. }
    exists t. split; [exact Htrace |]. split; [exact Hs |].
    split; [exact Hq |].
    destruct (scoped_session page
                (fun s => root ← cdpSession_send s (DOM_getDocument 0);
                          m ← for_of selectorMap (resolve_entry s root)
                                JsMap.empty;
                          mret m) w) as (t0 & Ht0 & _ & Hb0).
    { intros s0. apply sends_only_bind; [apply sends_only_send |].
      intros root0.
      apply sends_only_bind; [apply sends_only_for_of |]. intros m.
      apply sends_only_ret. }
    fold (resolveBackendIds page selectorMap) in Ht0, Hb0.
    rewrite Htrace in Ht0. apply app_inv_head in Ht0. subst t0.
    rewrite Hb0. cbn [replay]. rewrite Hnew. cbn [fst]. rewrite Hdoc.
    cbn [fst]. rewrite replay_app. reflexivity.
Qed.

End Facts.

End BackendIdsFacts.

(** ** The small browser *)

Module MiniBrowserFacts.

Import Cdp BackendIds BackendIdsFacts.
Import MiniBrowser.

(** Scenario C: of a matching, a dangling, an unparsable and another matching
    selector, the two matching ones are resolved; the session is detached and
    nothing is left attached. *)
Example resolve_sample_selectors :
  (resolveBackendIds 0%nat sample_selectors (start sample)).2
  = inr [(1, 105); (4, 107)] /\
  attached (Cdp.browser (resolveBackendIds 0%nat sample_selectors
                           (start sample)).1) = [].
Proof. split; vm_compute; reflexivity. Qed.

Example resolve_nothing :
  (resolveBackendIds 0%nat [] (start sample)).2 = inr [] /\
  (resolveBackendIds 0%nat [(2, "#nonexistent")] (start sample)).2 = inr [].
Proof. split; vm_compute; reflexivity. Qed.

(** The selector of a known handle is synthesized in the page. *)
Example selector_of_handle :
  (resolveSelectorFromBackendId 0%nat 105 (start sample)).2 = inr "#e\:mail" /\
  (resolveSelectorFromBackendId 0%nat 107 (start sample)).2
  = inr "body > div > button:nth-of-type(2)".
Proof. split; vm_compute; reflexivity. Qed.

(** The session layer is outside the [try] blocks: on a closed page no session
    opens and each of the three operations throws. *)
Example closed_page :
  (resolveBackendIds 0%nat sample_selectors (start closed)).2
  = inl (Rejected "Target page, context or browser has been closed") /\
  (isBackendNodeIdValid 0%nat 105 (start closed)).2
  = inl (Rejected "Target page, context or browser has been closed").
Proof. split; vm_compute; reflexivity. Qed.

(** Scenario E: the engine still knows the handle of the removed button and
    still builds its selector, and the selector finds nothing in the page. *)
Example removed_element :
  (isBackendNodeIdValid 0%nat 109 (start sample)).2 = inr true /\
  (resolveSelectorFromBackendId 0%nat 109 (start sample)).2 = inr "#btn" /\
  (resolveBackendIds 0%nat [(1, "#btn")] (start sample)).2 = inr [].
Proof. repeat split; vm_compute; reflexivity. Qed.

(** Two calls in a row: each opens a session of its own, and none stays
    attached. *)
Example two_calls :
  let w1 := (isBackendNodeIdValid 0%nat 105 (start sample)).1 in
  let w2 := (isBackendNodeIdValid 0%nat 999 w1).1 in
  trace w2
  = [NewSession 0%nat (Some 0%nat);
     Send 0%nat RemoteObject (DOM_resolveNode 105 None); Detach 0%nat;
     NewSession 0%nat (Some 1%nat);
     Send 1%nat RemoteObject (DOM_resolveNode 999 None); Detach 1%nat] /\
  attached (Cdp.browser w2) = [].
Proof. split; vm_compute; reflexivity. Qed.

Lemma resolveBackendIds_partial_witness :
  exists w' m,
    resolveBackendIds 0%nat sample_selectors (start sample) = (w', inr m) /\
    (forall i, i ∈ JsMap.keys m -> i ∈ JsMap.keys sample_selectors) /\
    (JsMap.size m <= 4)%nat /\
    (2 ∉ JsMap.keys m) /\
    JsMap.get 4 m = Some 107.
Proof.
  destruct (resolveBackendIds_partial 0%nat sample_selectors (start sample)
              (newCDPSession 0%nat sample).1 (newCDPSession 0%nat sample).1
              0%nat (mkNode 1 1)
              (fun b => b = (newCDPSession 0%nat sample).1))
    as (w' & m & t & Hrun & Hkeys & _ & Hsize & _ & _ & Homit & Hfind & _).
  - intros R c b ->. reflexivity.
  - intros b ->. eexists. reflexivity.
  - reflexivity.
  - reflexivity.
  - reflexivity.
  - exists w', m. split; [exact Hrun |]. split; [exact Hkeys |].
    split; [exact Hsize |]. split.
    + apply Homit. intros selector Hin b ->.
      unfold sample_selectors in Hin. rewrite !elem_of_cons in Hin.
      destruct Hin as [Heq | [Heq | [Heq | [Heq | Hin]]]];
        try discriminate Heq; [| inversion Hin].
      injection Heq as ->. reflexivity.
    + apply (Hfind 4 "body > div > button:nth-of-type(2)" 107).
      * vm_compute. repeat constructor; rewrite ?elem_of_cons;
          intros Hin; repeat (destruct Hin as [Hin | Hin];
                              [discriminate Hin |]); inversion Hin.
      * unfold sample_selectors. rewrite !elem_of_cons.
        right. right. right. left. reflexivity.
      * intros b ->. reflexivity.
Defined.

Lemma isBackendNodeIdValid_boolean_witness :
  (exists w', isBackendNodeIdValid 0%nat 105 (start sample) = (w', inr true)) /\
  (exists w', isBackendNodeIdValid 0%nat 999 (start sample) = (w', inr false)) /\
  (isBackendNodeIdValid 0%nat 105 (start closed)).2
  = inl (Rejected "Target page, context or browser has been closed").
Proof.
  split; [| split].
  - edestruct (proj1 (isBackendNodeIdValid_boolean 0%nat 105 (start sample)))
      as (w' & Hrun & _).
    + reflexivity.
    + reflexivity.
    + reflexivity.
    + exists w'. exact Hrun.
  - edestruct (proj1 (isBackendNodeIdValid_boolean 0%nat 999 (start sample)))
      as (w' & Hrun & _).
    + reflexivity.
    + reflexivity.
    + reflexivity.
    + exists w'. exact Hrun.
  - eapply (proj1 (proj2 (isBackendNodeIdValid_boolean 0%nat 105
                            (start closed)))).
    reflexivity.
Defined.

(** C5 as it is worded fails: the session is opened before the [try] and
    detached in its [finally], so on a page that was closed
    [isBackendNodeIdValid] returns no boolean and throws the rejection of
    [newCDPSession]; and with a detach that is rejected, a handle that the
    engine does not know is not reported as [false], the rejection of the
    detach is thrown. *)
Lemma isBackendNodeIdValid_throws :
  (isBackendNodeIdValid 0%nat 105 (start closed)).2
  = inl (Rejected "Target page, context or browser has been closed") /\
  ~ (exists valid : bool,
       (isBackendNodeIdValid 0%nat 105 (start closed)).2 = inr valid) /\
  (isBackendNodeIdValid 0%nat 999
     (FaultyBrowser.start
        (FaultyBrowser.mkFaults false false false false false true))).2
  = inl (Rejected "Target closed").
Proof.
  split; [vm_compute; reflexivity |]. split; [| vm_compute; reflexivity].
  intros [valid Hvalid]. vm_compute in Hvalid. discriminate.
Qed.

Lemma resolveSelectorFromBackendId_raises_witness :
  exists w' e,
    resolveSelectorFromBackendId 0%nat 999 (start sample) = (w', inl e).
Proof.
  eapply (resolveSelectorFromBackendId_raises 0%nat 999 (start sample)).
  - reflexivity.
  - reflexivity.
  - left. exact I.
Defined.

(** On the small browser a command changes nothing: what is attached changes
    with the opening and the detaching of sessions only. *)
Lemma replay_sends (s : Session) (t : list Event) (b : MiniBrowser.t) :
  Forall (sent_on s) t -> replay t b = b.
Proof.
  intros Ht. induction Ht as [| e t He Ht IH]; [reflexivity |].
  destruct e; try contradiction. cbn [replay]. exact IH.
Qed.

Lemma session_scoped_witness :
  (exists t,
     trace (resolveBackendIds 0%nat sample_selectors (start sample)).1
     = (NewSession 0%nat (Some 0%nat) :: Send 0%nat Node (DOM_getDocument 0) ::
        t ++ [Detach 0%nat])%list /\
     Forall (sent_on 0%nat) t /\
     queried t = ["#e\:mail"; "#nonexistent"; "";
                  "body > div > button:nth-of-type(2)"]) /\
  attached (Cdp.browser (resolveBackendIds 0%nat sample_selectors
                           (start sample)).1) = [].
Proof.
  edestruct (proj2 (proj2 (proj2
               (session_scoped 0%nat sample_selectors 0 (start sample)))))
    as (t & Htrace & Hsent & Hqueried & Hbrowser).
  - reflexivity.
  - reflexivity.
  - split.
    + exists t. split; [exact Htrace |]. split; [exact Hsent | exact Hqueried].
    + rewrite Hbrowser, (replay_sends 0%nat t _ Hsent). reflexivity.
Defined.

End MiniBrowserFacts.

(** ** The pipeline *)

Module DomFacts.

Import Dom.

Section Facts.

Context {Page RawDOMNode GetLLMTreeOptions : Type}
        `{Stages Page RawDOMNode GetLLMTreeOptions}.

(** C8: when extraction yields a tree and the visibility stage keeps some of
    it, [getLLMTree] calls the stages in the order extraction, visibility,
    paint order, bounding boxes, serialization, each once and each on the
    result of the one before, and returns what the serializer makes of the
    fully filtered tree. *)
Theorem getLLMTree_pipeline (page : Page) (options : option GetLLMTreeOptions)
    (rawTree visibleTree : RawDOMNode) :
  extractRawDOM page = Some rawTree ->
  filterVisibleNodes rawTree = Some visibleTree ->
  getLLMTree page options
  = ([Call_extractRawDOM page;
      Call_filterVisibleNodes rawTree;
      Call_filterByPaintOrder visibleTree;
      Call_filterByBboxPropagation (filterByPaintOrder visibleTree);
      Call_serializeTree
        (filterByBboxPropagation (filterByPaintOrder visibleTree))
        (or_default options)],
     serializeTree (filterByBboxPropagation (filterByPaintOrder visibleTree))
                   (or_default options)).
Proof.
  intros Hraw Hvisible. unfold getLLMTree, call, bind, ret.
  rewrite Hraw, Hvisible. reflexivity.
Qed.

(** C9: when extraction yields no tree, and when the visibility stage removes
    the whole tree, [getLLMTree] returns the empty text with the empty
    selector map; no stage after the one that gave nothing is called. *)
Theorem getLLMTree_nothing (page : Page) (options : option GetLLMTreeOptions) :
  (extractRawDOM page = None ->
   getLLMTree page options = ([Call_extractRawDOM page], mkResult "" JsMap.empty)) /\
  (forall rawTree,
     extractRawDOM page = Some rawTree ->
     filterVisibleNodes rawTree = None ->
     getLLMTree page options
     = ([Call_extractRawDOM page; Call_filterVisibleNodes rawTree],
        mkResult "" JsMap.empty)).
Proof.
  split.
  - intros Hraw. unfold getLLMTree, call, bind, ret. rewrite Hraw. reflexivity.
  - intros rawTree Hraw Hvisible. unfold getLLMTree, call, bind, ret.
    rewrite Hraw, Hvisible. reflexivity.
Qed.

(** What [processTree] returns and calls. *)
Lemma processTree_Some (rawTree tree : RawDOMNode)
    (calls : list (Call Page RawDOMNode GetLLMTreeOptions)) :
  processTree rawTree = (calls, Some tree) ->
  exists visibleTree,
    filterVisibleNodes rawTree = Some visibleTree /\
    tree = filterByBboxPropagation (filterByPaintOrder visibleTree) /\
    calls = [Call_filterVisibleNodes rawTree;
             Call_filterByPaintOrder visibleTree;
             Call_filterByBboxPropagation (filterByPaintOrder visibleTree)].
Proof.
  unfold processTree, call, bind, ret.
  destruct (filterVisibleNodes rawTree) as [visibleTree |]; [| discriminate].
  intros Heq. injection Heq as <- <-. exists visibleTree. auto.
Qed.

(** C10: when [processTree] returns a tree for the raw tree of a page,
    [serializeDOMTree] of that tree gives, under the same options, the text
    and the selector map of [getLLMTree]; and [getLLMTree] makes the calls of
    the extraction, then those of [processTree], then those of
    [serializeDOMTree], which are the same three filters in the same order. *)
Theorem processTree_serializeDOMTree (page : Page)
    (options : option GetLLMTreeOptions) (rawTree tree : RawDOMNode)
    (calls : list (Call Page RawDOMNode GetLLMTreeOptions)) :
  extractRawDOM page = Some rawTree ->
  processTree rawTree = (calls, Some tree) ->
  (getLLMTree page options).2 = (serializeDOMTree tree options).2 /\
  (getLLMTree page options).1
  = (Call_extractRawDOM page :: calls ++ (serializeDOMTree tree options).1)%list.
Proof.
  intros Hraw Hprocess.
  destruct (processTree_Some rawTree tree calls Hprocess)
    as (visibleTree & Hvisible & -> & ->).
  unfold getLLMTree, serializeDOMTree, call, bind, ret.
  rewrite Hraw, Hvisible. split; reflexivity.
Qed.

(** [processTree] gives nothing exactly when the visibility stage does, which
    is when [getLLMTree] stops after it. *)
Lemma processTree_None (rawTree : RawDOMNode) :
  (processTree rawTree).2 = None <-> filterVisibleNodes rawTree = None.
Proof.
  unfold processTree, call, bind, ret.
  destruct (filterVisibleNodes rawTree); simpl; split; congruence.
Qed.

End Facts.

(** *** The small pipeline *)

Lemma getLLMTree_pipeline_witness :
  (getLLMTree MiniDom.sample_page None).2
  = mkResult "[1]<button /> [2]<input />" [(1, "button"); (2, "input")].
Proof.
  rewrite (getLLMTree_pipeline MiniDom.sample_page None MiniDom.sample_page
             [MiniDom.mk "button" true false; MiniDom.mk "a" true true;
              MiniDom.mk "input" true false]).
  - vm_compute. reflexivity.
  - reflexivity.
  - reflexivity.
Defined.

Lemma getLLMTree_nothing_witness :
  getLLMTree ([] : list MiniDom.node) (Some 5%nat)
  = ([Call_extractRawDOM []], mkResult "" JsMap.empty) /\
  getLLMTree MiniDom.hidden_page (Some 5%nat)
  = ([Call_extractRawDOM MiniDom.hidden_page;
      Call_filterVisibleNodes MiniDom.hidden_page], mkResult "" JsMap.empty).
Proof.
  split.
  - apply (proj1 (getLLMTree_nothing [] (Some 5%nat))). reflexivity.
  - apply (proj2 (getLLMTree_nothing MiniDom.hidden_page (Some 5%nat))
             MiniDom.hidden_page); reflexivity.
Defined.

Lemma processTree_serializeDOMTree_witness :
  (getLLMTree MiniDom.sample_page (Some 1%nat)).2
  = (serializeDOMTree [MiniDom.mk "button" true false;
                       MiniDom.mk "input" true false] (Some 1%nat)).2.
Proof.
  eapply (processTree_serializeDOMTree MiniDom.sample_page (Some 1%nat)
            MiniDom.sample_page).
  - reflexivity.
  - vm_compute. reflexivity.
Defined.

End DomFacts.

(** ** More about the selector synthesis *)

Module SelectorMoreFacts.

Import Selector SelectorSpec SelectorFacts SelectorMore.

(** *** Strings *)

Lemma string_length_app (s1 s2 : string) :
  String.length (s1 +:+ s2) = (String.length s1 + String.length s2)%nat.
Proof. induction s1 as [| c s1 IH]; simpl; [reflexivity | rewrite IH; reflexivity]. Qed.

Lemma list_ascii_app (s1 s2 : string) :
  list_ascii_of_string (s1 +:+ s2)
  = (list_ascii_of_string s1 ++ list_ascii_of_string s2)%list.
Proof. induction s1 as [| c s1 IH]; simpl; [reflexivity | rewrite IH; reflexivity]. Qed.

Lemma string_app_inv_tail (s1 s2 t : string) :
  s1 +:+ t = s2 +:+ t -> s1 = s2.
Proof.
  intros Heq. apply (f_equal list_ascii_of_string) in Heq.
  rewrite !list_ascii_app in Heq. apply app_inv_tail in Heq.
  rewrite <- (string_of_list_ascii_of_string s1),
          <- (string_of_list_ascii_of_string s2), Heq.
  reflexivity.
Qed.

Lemma string_app_assoc (s1 s2 s3 : string) :
  (s1 +:+ s2) +:+ s3 = s1 +:+ (s2 +:+ s3).
Proof.
  induction s1 as [| c s1 IH]; [reflexivity |].
  change (String c ((s1 +:+ s2) +:+ s3) = String c (s1 +:+ s2 +:+ s3)).
  rewrite IH. reflexivity.
Qed.

Lemma join_snoc (sep : string) (parts : list string) (last : string) :
  Js.join sep (parts ++ [last]) = with_separators sep parts +:+ last.
Proof.
  unfold Js.join. induction parts as [| x rest IH]; [reflexivity |].
  assert (String.concat sep ((x :: rest) ++ [last])
          = x +:+ sep +:+ String.concat sep (rest ++ [last])) as ->.
  { destruct rest; reflexivity. }
  rewrite IH. cbn [with_separators].
  rewrite !string_app_assoc. reflexivity.
Qed.

(** *** [escapeSelector] *)

Lemma escaped_is_css_special (c : ascii) : escaped c = is_css_special c.
Proof. unfold escaped, is_css_special. rewrite escape_class_members. reflexivity. Qed.

(** X1: [escapeSelector] loses nothing: reading the backslash escapes of its
    result gives the value back, so two different values never get the same
    escaped text. *)
Theorem escapeSelector_round_trip :
  (forall s, Js.unescape (escapeSelector s) = s) /\
  Inj (=) (=) escapeSelector.
Proof.
  assert (forall s, Js.unescape (escapeSelector s) = s) as Hback.
  { intros s. rewrite escapeSelector_by_spec. apply unescape_escape_by_spec. }
  split; [exact Hback |].
  intros s1 s2 Heq. rewrite <- (Hback s1), <- (Hback s2), Heq. reflexivity.
Qed.

Lemma escapeSelector_cons (c : ascii) (s : string) :
  escapeSelector (String c s)
  = if escaped c then String "\" (String c (escapeSelector s))
    else String c (escapeSelector s).
Proof.
  rewrite !escapeSelector_by_spec, escaped_is_css_special. reflexivity.
Qed.

(** X2: the result of [escapeSelector] is longer than the value by the number
    of special characters in it, so never more than twice as long, and it is
    the value itself exactly when the value has no special character. *)
Theorem escapeSelector_length (s : string) :
  String.length (escapeSelector s)
  = (String.length s + count_escaped s)%nat /\
  (String.length (escapeSelector s) <= 2 * String.length s)%nat /\
  (escapeSelector s = s <-> count_escaped s = 0%nat).
Proof.
  assert (String.length (escapeSelector s)
          = (String.length s + count_escaped s)%nat) as Hlen.
  { induction s as [| c s IH]; [reflexivity |].
    rewrite escapeSelector_cons. cbn [count_escaped String.length].
    destruct (escaped c); cbn [String.length]; rewrite IH; lia. }
  assert (count_escaped s <= String.length s)%nat as Hcount.
  { clear Hlen. induction s as [| c s IH]; cbn [count_escaped String.length];
      [lia |]. destruct (escaped c); lia. }
  split; [exact Hlen |]. split; [lia |]. split.
  - intros Heq. rewrite Heq in Hlen. lia.
  - clear Hlen Hcount. induction s as [| c s IH]; [reflexivity |].
    cbn [count_escaped]. rewrite escapeSelector_cons.
    destruct (escaped c); [intros Hc; lia |].
    intros Hc. rewrite IH by lia. reflexivity.
Qed.

Lemma word_char_not_escaped (c : ascii) : word_char c = true -> escaped c = false.
Proof.
  destruct c as [[] [] [] [] [] [] [] []]; vm_compute; congruence.
Qed.

(** X3: letters, digits, hyphens, underscores and spaces are never escaped: a
    value made of them is interpolated as it is, a space or a leading digit
    included. *)
Theorem escapeSelector_word (s : string) :
  all_chars word_char s = true -> escapeSelector s = s.
Proof.
  induction s as [| c s IH]; [reflexivity |].
  cbn [all_chars]. intros [Hc Hs]%andb_true_iff.
  rewrite escapeSelector_cons, (word_char_not_escaped c Hc), (IH Hs).
  reflexivity.
Qed.

Lemma escapeSelector_word_witness : escapeSelector "my id 2" = "my id 2".
Proof. apply escapeSelector_word. reflexivity. Defined.

(** *** Positions among the children of one tag *)

Lemma filter_take_lt {A} (P : A -> Prop) `{forall x, Decision (P x)}
    (l : list A) (p q : nat) (x : A) :
  l !! p = Some x -> P x -> (p < q)%nat ->
  (length (filter P (take p l)) < length (filter P (take q l)))%nat.
Proof.
  intros Hp Hx Hpq.
  replace q with (p + S (q - S p))%nat by lia.
  rewrite <- (take_take_drop l p (S (q - S p))).
  rewrite (drop_S l x p Hp). cbn [take].
  rewrite filter_app, filter_cons_True by exact Hx.
  rewrite length_app. cbn [length]. lia.
Qed.

Lemma filter_take_le {A} (P : A -> Prop) `{forall x, Decision (P x)}
    (l : list A) (p : nat) :
  (length (filter P (take p l)) <= length (filter P l))%nat.
Proof.
  rewrite <- (take_drop p l) at 2. rewrite filter_app, length_app. lia.
Qed.

Lemma position_of_type_le (parent el : Element) (pos : nat) :
  children parent !! pos = Some el ->
  (position_of_type parent pos (lower_tag el)
   <= length (same_tag_children parent (lower_tag el)))%nat.
Proof.
  intros Hpos. unfold position_of_type, same_tag_children.
  pose proof (filter_take_lt (fun c => lower_tag c = lower_tag el)
                (children parent) pos (S pos) el Hpos eq_refl
                (Nat.lt_succ_diag_r pos)) as Hlt.
  pose proof (filter_take_le (fun c => lower_tag c = lower_tag el)
                (children parent) (S pos)) as Hle.
  lia.
Qed.

Lemma position_of_type_lt (parent c1 c2 : Element) (p q : nat) :
  children parent !! p = Some c1 ->
  lower_tag c1 = lower_tag c2 ->
  (p < q)%nat ->
  (position_of_type parent p (lower_tag c2)
   < position_of_type parent q (lower_tag c2))%nat.
Proof.
  intros Hp Htag Hpq. unfold position_of_type.
  pose proof (filter_take_lt (fun c => lower_tag c = lower_tag c2)
                (children parent) p q c1 Hp Htag Hpq).
  lia.
Qed.

(** X4: the index in an [nth-of-type] segment is a position among the
    children of the node's tag: at least 1 and at most their number. *)
Theorem nth_index_bounds (parent el : Element) (pos : nat) :
  children parent !! pos = Some el ->
  1 <= nth_index parent pos (Js.toLowerCase (tagName el))
    <= Z.of_nat (length (siblings_of parent (Js.toLowerCase (tagName el)))).
Proof.
  intros Hpos. unfold nth_index.
  change (Js.toLowerCase (tagName el)) with (lower_tag el).
  rewrite (siblings_indexOf parent pos el Hpos).
  rewrite (siblings_length parent (lower_tag el)).
  pose proof (position_of_type_le parent el pos Hpos).
  unfold position_of_type in *. lia.
Qed.

Lemma nth_index_bounds_witness :
  1 <= nth_index (target (sample_ref [1; 0]%nat)) 2 "button" <= 2.
Proof.
  assert (children (target (sample_ref [1; 0]%nat)) !! 2%nat
          = Some (target sample_second_button)) as Hpos by reflexivity.
  exact (nth_index_bounds _ _ 2 Hpos).
Defined.

(** *** Two children of one parent *)

Lemma reaches_path_selector (body : option (list nat)) (this : ElementRef) :
  reaches_path (target this) = true ->
  BUILD_SELECTOR_FUNCTION body this
  = nth_of_type_path body this (lower_tag (target this)).
Proof.
  unfold reaches_path, BUILD_SELECTOR_FUNCTION, lower_tag.
  intros [[Hid Htest]%andb_true_iff Hname]%andb_true_iff.
  apply negb_true_iff in Hid, Htest, Hname.
  rewrite Hid, Htest, Hname. reflexivity.
Qed.

(** The path of a child that is not the body: the segments of the levels
    above it, then its own. *)
Lemma child_path (body : option (list nat)) (parent el : Element)
    (pos : nat) (up : list Frame) :
  children parent !! pos = Some el ->
  wf_ref parent up ->
  body <> Some (pos :: place up) ->
  nth_of_type_path body (mkRef el (mkFrame parent pos :: up)) (lower_tag el)
  = "body > " +:+
    with_separators " > "
      (rev (map (fun lv => segment_by_spec lv.1 lv.2) (levels body parent up)))
    +:+ segment_by_spec el (mkFrame parent pos).
Proof.
  intros Hpos Hwf Hbody.
  rewrite nth_of_type_path_by_spec by (split; assumption).
  unfold path_by_spec, segments_by_spec. cbn [target ancestors].
  rewrite levels_below by exact Hbody. cbn [map rev fst snd frame_parent].
  rewrite <- join_snoc.
  destruct (rev _ ++ [_])%list as [| seg segs] eqn:Hsegs; [| reflexivity].
  apply app_eq_nil in Hsegs. destruct Hsegs as [_ Hsegs]. discriminate.
Qed.

Lemma segment_same_tag (parent c1 c2 : Element) (p q : nat) :
  children parent !! p = Some c1 ->
  children parent !! q = Some c2 ->
  lower_tag c1 = lower_tag c2 ->
  p <> q ->
  segment_by_spec c1 (mkFrame parent p) <> segment_by_spec c2 (mkFrame parent q).
Proof.
  intros Hp Hq Htag Hpq. unfold segment_by_spec. cbn [frame_parent frame_position].
  rewrite Htag.
  assert (1 < length (same_tag_children parent (lower_tag c2)))%nat as Hmany.
  { destruct (Nat.lt_total p q) as [Hlt | [Heq | Hgt]]; [| congruence |].
    - pose proof (position_of_type_lt parent c1 c2 p q Hp Htag Hlt).
      pose proof (position_of_type_le parent c2 q Hq).
      unfold position_of_type in *. lia.
    - pose proof (position_of_type_lt parent c2 c1 q p Hq (eq_sym Htag) Hgt)
        as Hlt. rewrite Htag in Hlt.
      pose proof (position_of_type_le parent c1 p Hp) as Hle.
      rewrite Htag in Hle. unfold position_of_type in *. lia. }
  rewrite !decide_True by exact Hmany.
  intros Heq. apply String.app_inj, String.app_inj in Heq.
  apply string_app_inv_tail in Heq. apply (inj pretty) in Heq.
  destruct (Nat.lt_total p q) as [Hlt | [Hpq' | Hgt]]; [| congruence |].
  - pose proof (position_of_type_lt parent c1 c2 p q Hp Htag Hlt). lia.
  - pose proof (position_of_type_lt parent c2 c1 q p Hq (eq_sym Htag) Hgt)
      as Hlt. rewrite Htag in Hlt. lia.
Qed.

(** X5: two different children of one parent that have the same tag and
    neither id, [data-testid] nor form-control name get different selectors:
    their last segments carry different [nth-of-type] positions. *)
Theorem sibling_selectors_differ (body : option (list nat))
    (parent c1 c2 : Element) (p q : nat) (up : list Frame) :
  children parent !! p = Some c1 ->
  children parent !! q = Some c2 ->
  p <> q ->
  Js.toLowerCase (tagName c1) = Js.toLowerCase (tagName c2) ->
  reaches_path c1 = true ->
  reaches_path c2 = true ->
  wf_ref parent up ->
  body <> Some (p :: place up) ->
  body <> Some (q :: place up) ->
  BUILD_SELECTOR_FUNCTION body (mkRef c1 (mkFrame parent p :: up))
  <> BUILD_SELECTOR_FUNCTION body (mkRef c2 (mkFrame parent q :: up)).
Proof.
  intros Hp Hq Hpq Htag Hr1 Hr2 Hwf Hb1 Hb2.
  rewrite (reaches_path_selector body (mkRef c1 _) Hr1),
          (reaches_path_selector body (mkRef c2 _) Hr2).
  cbn [target].
  rewrite (child_path body parent c1 p up Hp Hwf Hb1),
          (child_path body parent c2 q up Hq Hwf Hb2).
  intros Heq. apply String.app_inj, String.app_inj in Heq.
  exact (segment_same_tag parent c1 c2 p q Hp Hq Htag Hpq Heq).
Qed.

Lemma sibling_selectors_differ_witness :
  BUILD_SELECTOR_FUNCTION sample_body (sample_ref [1; 0; 0]%nat)
  <> BUILD_SELECTOR_FUNCTION sample_body (sample_ref [1; 0; 2]%nat).
Proof.
  apply (sibling_selectors_differ sample_body (target (sample_ref [1; 0]%nat))
           (target (sample_ref [1; 0; 0]%nat))
           (target (sample_ref [1; 0; 2]%nat)) 0 2
           (ancestors (sample_ref [1; 0]%nat))).
  - reflexivity.
  - reflexivity.
  - lia.
  - reflexivity.
  - reflexivity.
  - reflexivity.
  - vm_compute. repeat split.
  - vm_compute. congruence.
  - vm_compute. congruence.
Defined.

End SelectorMoreFacts.

(** ** More about the identity operations *)

Module BackendIdsMoreFacts.

Import Cdp BackendIds BackendIdsFacts.

Section Facts.

Context {B : Type} `{Browser B}.

(** X6: when no session can be opened, each of the three operations throws
    the rejection of [newCDPSession] and does nothing else: no command is
    sent and nothing is detached. *)
Theorem no_session_nothing_sent (page : Page) (selectorMap : JsMap.t Z string)
    (backendNodeId : Z) (w : World B) (b1 : B) (e : Exn) :
  newCDPSession page (browser w) = (b1, inl e) ->
  resolveBackendIds page selectorMap w
  = (mkWorld b1 (trace w ++ [NewSession page None]), inl e) /\
  resolveSelectorFromBackendId page backendNodeId w
  = (mkWorld b1 (trace w ++ [NewSession page None]), inl e) /\
  isBackendNodeIdValid page backendNodeId w
  = (mkWorld b1 (trace w ++ [NewSession page None]), inl e).
Proof.
  intros Hnew.
  unfold resolveBackendIds, resolveSelectorFromBackendId, isBackendNodeIdValid.
  rewrite !run_bind, (run_newCDPSession _ _ _ _ Hnew).
  repeat split; reflexivity.
Qed.

(** X7: when [DOM.getDocument] is rejected, [resolveBackendIds] queries no
    selector, detaches the session and throws: the rejection of
    [DOM.getDocument], or that of the detach when the detach is rejected
    too. *)
Theorem getDocument_rejected (page : Page) (selectorMap : JsMap.t Z string)
    (w : World B) (b1 b2 b3 : B) (s : Session) (e : Exn) (r : Exn + unit) :
  newCDPSession page (browser w) = (b1, inr s) ->
  send s (DOM_getDocument 0) b1 = (b2, inl e) ->
  detach s b2 = (b3, r) ->
  resolveBackendIds page selectorMap w
  = (mkWorld b3 (trace w ++ [NewSession page (Some s);
                             Send s Node (DOM_getDocument 0); Detach s]),
     inl (match r with
          | inl e' => e'
          | inr _ => e
          end)).
Proof.
  intros Hnew Hdoc Hdetach. unfold resolveBackendIds.
  rewrite run_bind, (run_newCDPSession _ _ _ _ Hnew).
  unfold try_finally. rewrite run_bind.
  rewrite (run_send s _ (mkWorld b1 _) b2 _ Hdoc).
  rewrite (run_detach s (mkWorld b2 _) b3 r Hdetach). cbn [trace opened_session].
  rewrite <- !app_assoc. destruct r as [e' | u]; reflexivity.
Qed.

(** X8: a rejected detach replaces the outcome of the call: the boolean of
    [isBackendNodeIdValid] and the map of [resolveBackendIds] are lost and
    the rejection of the detach is thrown instead. *)
Theorem detach_rejected (page : Page) (selectorMap : JsMap.t Z string)
    (backendNodeId : Z) (w : World B) (b1 : B) (s : Session) :
  newCDPSession page (browser w) = (b1, inr s) ->
  (forall b2 b3 r e,
     send s (DOM_resolveNode backendNodeId None) b1 = (b2, r) ->
     detach s b2 = (b3, inl e) ->
     (isBackendNodeIdValid page backendNodeId w).2 = inl e) /\
  (forall b2 b4 root e,
     send s (DOM_getDocument 0) b1 = (b2, inr root) ->
     detach s (collect s root selectorMap JsMap.empty b2).1 = (b4, inl e) ->
     (resolveBackendIds page selectorMap w).2 = inl e).
Proof.
  intros Hnew. split.
  - intros b2 b3 r e Hsend Hdetach. unfold isBackendNodeIdValid.
    rewrite run_bind, (run_newCDPSession _ _ _ _ Hnew).
    unfold try_finally, try_catch. rewrite run_bind.
    rewrite (run_send s _ (mkWorld b1 _) b2 r Hsend).
    destruct r as [e' | object]; unfold mret, M_ret;
      rewrite (run_detach s (mkWorld b2 _) b3 _ Hdetach); reflexivity.
  - intros b2 b4 root e Hdoc Hdetach.
    destruct (resolveBackendIds_run page selectorMap w b1 b2 s root Hnew Hdoc)
      as (t & _ & _ & ->).
    destruct (collect s root selectorMap JsMap.empty b2) as [b3 m].
    cbn [fst] in Hdetach. rewrite Hdetach. reflexivity.
Qed.

(** *** [resolveSelectorFromBackendId], step by step *)

Lemma selector_after_resolve (page : Page) (backendNodeId : Z) (w : World B)
    (b1 b2 : B) (s : Session) (r : Exn + RemoteObject) :
  newCDPSession page (browser w) = (b1, inr s) ->
  send s (DOM_resolveNode backendNodeId (Some "devbrowser-selector")) b1
  = (b2, r) ->
  resolveSelectorFromBackendId page backendNodeId w
  = try_finally
      (match r with
       | inl e => throw e
       | inr object =>
           _ ← throw_if (negb (Js.truthy_opt (objectId object)))
                 (Error "Could not resolve node to object");
           result ← cdpSession_send s
                      (Runtime_callFunctionOn (default "" (objectId object))
                         BUILD_SELECTOR_FUNCTION true);
           _ ← cdpSession_send s
                 (Runtime_releaseObjectGroup "devbrowser-selector");
           _ ← throw_if (bool_decide (is_Some (exceptionDetails result)))
                 (Error ("Failed to build selector: " +:+
                         default "" (text <$> exceptionDetails result)));
           mret (value (Cdp.result result))
       end)
      (cdpSession_detach s)
      (mkWorld b2
         (trace w ++
          [NewSession page (Some s);
           Send s RemoteObject
             (DOM_resolveNode backendNodeId (Some "devbrowser-selector"))])).
Proof.
  intros Hnew Hresolve. unfold resolveSelectorFromBackendId.
  rewrite run_bind, (run_newCDPSession _ _ _ _ Hnew).
  unfold try_finally. rewrite run_bind.
  rewrite (run_send s _ (mkWorld b1 _) b2 r Hresolve).
  cbn [trace opened_session]. rewrite <- !app_assoc.
  destruct r as [e | object]; reflexivity.
Qed.

(** X9: when every step is answered and the page reports no exception,
    [resolveSelectorFromBackendId] returns the string that the page computed,
    after exactly these operations in this order: the session is opened, the
    node resolved in the object group, the function called on the object, the
    object group released, the session detached. *)
Theorem selector_returned (page : Page) (backendNodeId : Z) (w : World B)
    (b1 b2 b3 b4 b5 : B) (s : Session) (oid : string)
    (object result : RemoteObject) :
  newCDPSession page (browser w) = (b1, inr s) ->
  send s (DOM_resolveNode backendNodeId (Some "devbrowser-selector")) b1
  = (b2, inr object) ->
  objectId object = Some oid -> oid <> "" ->
  send s (Runtime_callFunctionOn oid BUILD_SELECTOR_FUNCTION true) b2
  = (b3, inr (mkCallResult result None)) ->
  send s (Runtime_releaseObjectGroup "devbrowser-selector") b3
  = (b4, inr ()) ->
  detach s b4 = (b5, inr ()) ->
  resolveSelectorFromBackendId page backendNodeId w
  = (mkWorld b5
       (trace w ++
        [NewSession page (Some s);
         Send s RemoteObject
           (DOM_resolveNode backendNodeId (Some "devbrowser-selector"));
         Send s CallResult
           (Runtime_callFunctionOn oid BUILD_SELECTOR_FUNCTION true);
         Send s unit (Runtime_releaseObjectGroup "devbrowser-selector");
         Detach s]),
     inr (value result)).
Proof.
  intros Hnew Hresolve Hoid Hne Hcall Hrelease Hdetach.
  rewrite (selector_after_resolve page backendNodeId w b1 b2 s _ Hnew Hresolve).
  unfold try_finally. rewrite run_bind, Hoid. cbn [Js.truthy_opt default].
  apply SelectorFacts.truthy_non_empty in Hne. rewrite Hne.
  cbn [negb throw_if]. unfold mret at 1, M_ret at 1.
  rewrite run_bind, (run_send s _ (mkWorld b2 _) b3 _ Hcall).
  rewrite run_bind, (run_send s _ (mkWorld b3 _) b4 _ Hrelease).
  rewrite run_bind. cbn [exceptionDetails].
  rewrite bool_decide_eq_false_2 by (intros [x Hx]; discriminate).
  cbn [throw_if]. unfold mret, M_ret.
  rewrite (run_detach s (mkWorld b4 _) b5 _ Hdetach). cbn [trace Cdp.result].
  rewrite <- !app_assoc. reflexivity.
Qed.

(** X10: when the page reports an exception of the synthesis function, the
    object group is still released before the call throws, and the thrown
    error names the text of the exception. *)
Theorem synthesis_exception (page : Page) (backendNodeId : Z) (w : World B)
    (b1 b2 b3 b4 b5 : B) (s : Session) (oid : string)
    (object result : RemoteObject) (details : ExceptionDetails) :
  newCDPSession page (browser w) = (b1, inr s) ->
  send s (DOM_resolveNode backendNodeId (Some "devbrowser-selector")) b1
  = (b2, inr object) ->
  objectId object = Some oid -> oid <> "" ->
  send s (Runtime_callFunctionOn oid BUILD_SELECTOR_FUNCTION true) b2
  = (b3, inr (mkCallResult result (Some details))) ->
  send s (Runtime_releaseObjectGroup "devbrowser-selector") b3
  = (b4, inr ()) ->
  detach s b4 = (b5, inr ()) ->
  resolveSelectorFromBackendId page backendNodeId w
  = (mkWorld b5
       (trace w ++
        [NewSession page (Some s);
         Send s RemoteObject
           (DOM_resolveNode backendNodeId (Some "devbrowser-selector"));
         Send s CallResult
           (Runtime_callFunctionOn oid BUILD_SELECTOR_FUNCTION true);
         Send s unit (Runtime_releaseObjectGroup "devbrowser-selector");
         Detach s]),
     inl (Error ("Failed to build selector: " +:+ text details))).
Proof.
  intros Hnew Hresolve Hoid Hne Hcall Hrelease Hdetach.
  rewrite (selector_after_resolve page backendNodeId w b1 b2 s _ Hnew Hresolve).
  unfold try_finally. rewrite run_bind, Hoid. cbn [Js.truthy_opt default].
  apply SelectorFacts.truthy_non_empty in Hne. rewrite Hne.
  cbn [negb throw_if]. unfold mret at 1, M_ret at 1.
  rewrite run_bind, (run_send s _ (mkWorld b2 _) b3 _ Hcall).
  rewrite run_bind, (run_send s _ (mkWorld b3 _) b4 _ Hrelease).
  rewrite run_bind. cbn [exceptionDetails].
  rewrite bool_decide_eq_true_2 by eauto.
  cbn [throw_if]. unfold throw.
  rewrite (run_detach s (mkWorld b4 _) b5 _ Hdetach). cbn [trace fmap option_fmap option_map default].
  rewrite <- !app_assoc. reflexivity.
Qed.

(** X11: a step that fails ends the body at once.  After a rejected
    [DOM.resolveNode], and after an answer without object id, nothing is
    called in the page and nothing is released; after a rejected
    [Runtime.callFunctionOn] the object group is not released.  The session is
    detached in each case, and with a detach that succeeds the thrown value is
    the rejection, or the error of the missing object. *)
Theorem selector_fails_early (page : Page) (backendNodeId : Z) (w : World B)
    (b1 b2 : B) (s : Session) :
  newCDPSession page (browser w) = (b1, inr s) ->
  (forall b3 e,
     send s (DOM_resolveNode backendNodeId (Some "devbrowser-selector")) b1
     = (b2, inl e) ->
     detach s b2 = (b3, inr ()) ->
     resolveSelectorFromBackendId page backendNodeId w
     = (mkWorld b3
          (trace w ++
           [NewSession page (Some s);
            Send s RemoteObject
              (DOM_resolveNode backendNodeId (Some "devbrowser-selector"));
            Detach s]),
        inl e)) /\
  (forall b3 object,
     send s (DOM_resolveNode backendNodeId (Some "devbrowser-selector")) b1
     = (b2, inr object) ->
     Js.truthy_opt (objectId object) = false ->
     detach s b2 = (b3, inr ()) ->
     resolveSelectorFromBackendId page backendNodeId w
     = (mkWorld b3
          (trace w ++
           [NewSession page (Some s);
            Send s RemoteObject
              (DOM_resolveNode backendNodeId (Some "devbrowser-selector"));
            Detach s]),
        inl (Error "Could not resolve node to object"))) /\
  (forall b3 b4 object oid e,
     send s (DOM_resolveNode backendNodeId (Some "devbrowser-selector")) b1
     = (b2, inr object) ->
     objectId object = Some oid -> oid <> "" ->
     send s (Runtime_callFunctionOn oid BUILD_SELECTOR_FUNCTION true) b2
     = (b3, inl e) ->
     detach s b3 = (b4, inr ()) ->
     resolveSelectorFromBackendId page backendNodeId w
     = (mkWorld b4
          (trace w ++
           [NewSession page (Some s);
            Send s RemoteObject
              (DOM_resolveNode backendNodeId (Some "devbrowser-selector"));
            Send s CallResult
              (Runtime_callFunctionOn oid BUILD_SELECTOR_FUNCTION true);
            Detach s]),
        inl e)).
Proof.
  intros Hnew. split; [| split].
  - intros b3 e Hresolve Hdetach.
    rewrite (selector_after_resolve page backendNodeId w b1 b2 s _ Hnew
               Hresolve).
    unfold try_finally, throw.
    rewrite (run_detach s (mkWorld b2 _) b3 _ Hdetach). cbn [trace].
    rewrite <- !app_assoc. reflexivity.
  - intros b3 object Hresolve Hoid Hdetach.
    rewrite (selector_after_resolve page backendNodeId w b1 b2 s _ Hnew
               Hresolve).
    unfold try_finally. rewrite run_bind, Hoid. cbn [negb throw_if].
    unfold throw.
    rewrite (run_detach s (mkWorld b2 _) b3 _ Hdetach). cbn [trace].
    rewrite <- !app_assoc. reflexivity.
  - intros b3 b4 object oid e Hresolve Hoid Hne Hcall Hdetach.
    rewrite (selector_after_resolve page backendNodeId w b1 b2 s _ Hnew
               Hresolve).
    unfold try_finally. rewrite run_bind, Hoid. cbn [Js.truthy_opt default].
    apply SelectorFacts.truthy_non_empty in Hne. rewrite Hne.
    cbn [negb throw_if]. unfold mret at 1, M_ret at 1.
    rewrite run_bind, (run_send s _ (mkWorld b2 _) b3 _ Hcall).
    rewrite (run_detach s (mkWorld b3 _) b4 _ Hdetach). cbn [trace].
    rewrite <- !app_assoc. reflexivity.
Qed.

(** X12: a rejected [Runtime.releaseObjectGroup] makes the call throw although
    the page has computed the selector: the string is lost. *)
Theorem release_rejected (page : Page) (backendNodeId : Z) (w : World B)
    (b1 b2 b3 b4 b5 : B) (s : Session) (oid : string)
    (object : RemoteObject) (result : CallResult) (e : Exn) :
  newCDPSession page (browser w) = (b1, inr s) ->
  send s (DOM_resolveNode backendNodeId (Some "devbrowser-selector")) b1
  = (b2, inr object) ->
  objectId object = Some oid -> oid <> "" ->
  send s (Runtime_callFunctionOn oid BUILD_SELECTOR_FUNCTION true) b2
  = (b3, inr result) ->
  send s (Runtime_releaseObjectGroup "devbrowser-selector") b3
  = (b4, inl e) ->
  detach s b4 = (b5, inr ()) ->
  (resolveSelectorFromBackendId page backendNodeId w).2 = inl e.
Proof.
  intros Hnew Hresolve Hoid Hne Hcall Hrelease Hdetach.
  rewrite (selector_after_resolve page backendNodeId w b1 b2 s _ Hnew Hresolve).
  unfold try_finally. rewrite run_bind, Hoid. cbn [Js.truthy_opt default].
  apply SelectorFacts.truthy_non_empty in Hne. rewrite Hne.
  cbn [negb throw_if]. unfold mret at 1, M_ret at 1.
  rewrite run_bind, (run_send s _ (mkWorld b2 _) b3 _ Hcall).
  rewrite run_bind, (run_send s _ (mkWorld b3 _) b4 _ Hrelease).
  rewrite (run_detach s (mkWorld b4 _) b5 _ Hdetach). reflexivity.
Qed.

(** *** The map of [resolveBackendIds], in order *)

Lemma resolveBackendIds_returned (page : Page)
    (selectorMap : JsMap.t Z string) (w w' : World B) (m : JsMap.t Z Z) :
  resolveBackendIds page selectorMap w = (w', inr m) ->
  exists s root b2, m = (collect s root selectorMap JsMap.empty b2).2.
Proof.
  intros Hrun.
  destruct (newCDPSession page (browser w)) as [b1 [e | s]] eqn:Hnew.
  - unfold resolveBackendIds in Hrun.
    rewrite run_bind, (run_newCDPSession _ _ _ _ Hnew) in Hrun. discriminate.
  - destruct (send s (DOM_getDocument 0) b1) as [b2 [e | root]] eqn:Hdoc.
    + unfold resolveBackendIds in Hrun.
      rewrite run_bind, (run_newCDPSession _ _ _ _ Hnew) in Hrun.
      unfold try_finally in Hrun. rewrite run_bind in Hrun.
      rewrite (run_send s _ (mkWorld b1 _) b2 _ Hdoc) in Hrun.
      destruct (cdpSession_detach s _) as [w2 [e' | u]]; discriminate.
    + destruct (resolveBackendIds_run page selectorMap w b1 b2 s root Hnew
                  Hdoc) as (t & _ & _ & Heq).
      rewrite Heq in Hrun. exists s, root, b2.
      destruct (collect s root selectorMap JsMap.empty b2) as [b3 m'].
      destruct (detach s b3) as [b4 [e | u]]; [discriminate |].
      injection Hrun as _ <-. reflexivity.
Qed.

Lemma set_fresh (k v : Z) (m : JsMap.t Z Z) :
  k ∉ JsMap.keys m -> JsMap.set k v m = (m ++ [(k, v)])%list.
Proof.
  unfold JsMap.keys. induction m as [| [k' v'] m IH]; [reflexivity |].
  rewrite fmap_cons, not_elem_of_cons. cbn [fst]. intros [Hne Hm].
  cbn [JsMap.set]. rewrite decide_False by exact Hne.
  rewrite (IH Hm). reflexivity.
Qed.

Lemma collect_in_order (s : Session) (root : Node)
    (entries : JsMap.t Z string) (acc : JsMap.t Z Z) (b : B) :
  NoDup (JsMap.keys entries) ->
  (forall k, k ∈ JsMap.keys entries -> k ∉ JsMap.keys acc) ->
  exists ks,
    ks `sublist_of` JsMap.keys entries /\
    JsMap.keys (collect s root entries acc b).2 = (JsMap.keys acc ++ ks)%list.
Proof.
  revert acc b. induction entries as [| [index selector] rest IH];
    intros acc b Hnodup Hfresh.
  - exists []. split; [constructor |]. cbn [collect snd].
    rewrite app_nil_r. reflexivity.
  - change (JsMap.keys ((index, selector) :: rest))
      with (index :: JsMap.keys rest) in *.
    apply NoDup_cons in Hnodup. destruct Hnodup as [Hindex Hnodup].
    cbn [collect].
    destruct (lookup_selector s root selector b) as [b' [backend |]].
    + destruct (IH (JsMap.set index backend acc) b' Hnodup) as (ks & Hks & Heq).
      { intros k Hk. rewrite JsMapFacts.keys_set. intros [-> | Hin].
        - exact (Hindex Hk).
        - apply (Hfresh k); [apply list_elem_of_further, Hk | exact Hin]. }
      exists (index :: ks). split; [apply sublist_skip, Hks |].
      rewrite Heq, set_fresh by (apply Hfresh, list_elem_of_here).
      unfold JsMap.keys. rewrite fmap_app, <- app_assoc. reflexivity.
    + destruct (IH acc b' Hnodup) as (ks & Hks & Heq).
      { intros k Hk. apply Hfresh, list_elem_of_further, Hk. }
      exists ks. split; [apply sublist_cons, Hks | exact Heq].
Qed.

(** X13: for a selector map whose indexes are all different, the indexes of
    the map that [resolveBackendIds] returns come in the order of the selector
    map: they are the indexes of the selector map with some left out. *)
Theorem resolveBackendIds_in_order (page : Page)
    (selectorMap : JsMap.t Z string) (w w' : World B) (m : JsMap.t Z Z) :
  resolveBackendIds page selectorMap w = (w', inr m) ->
  NoDup (JsMap.keys selectorMap) ->
  JsMap.keys m `sublist_of` JsMap.keys selectorMap.
Proof.
  intros Hrun Hnodup.
  destruct (resolveBackendIds_returned page selectorMap w w' m Hrun)
    as (s & root & b2 & ->).
  destruct (collect_in_order s root selectorMap JsMap.empty b2 Hnodup)
    as (ks & Hks & ->).
  - intros k _. inversion 1.
  - exact Hks.
Qed.

(** Whatever the browser does, a map that is returned has indexes of the
    selector map, each once, and is no larger. *)
Lemma resolveBackendIds_returned_keys (page : Page)
    (selectorMap : JsMap.t Z string) (w w' : World B) (m : JsMap.t Z Z) :
  resolveBackendIds page selectorMap w = (w', inr m) ->
  (forall i, i ∈ JsMap.keys m -> i ∈ JsMap.keys selectorMap) /\
  NoDup (JsMap.keys m) /\
  (JsMap.size m <= JsMap.size selectorMap)%nat.
Proof.
  intros Hrun.
  destruct (resolveBackendIds_returned page selectorMap w w' m Hrun)
    as (s & root & b2 & ->).
  split; [| split].
  - intros i Hi.
    destruct (collect_keys s root selectorMap JsMap.empty b2 i Hi) as [Hin | Hin];
      [inversion Hin | exact Hin].
  - apply collect_NoDup. constructor.
  - apply (collect_size s root selectorMap JsMap.empty b2).
Qed.

End Facts.

End BackendIdsMoreFacts.

(** ** [getLLMTreeWithBackendIds] *)

Module DomBackendIdsFacts.

Import Cdp BackendIds BackendIdsFacts BackendIdsMoreFacts DomBackendIds.

Section Facts.

Context {RawDOMNode GetLLMTreeOptions : Type}
        `{Dom.Stages Page RawDOMNode GetLLMTreeOptions}
        {B : Type} `{Browser B}.

(** X14: when the pipeline gives an empty selector map,
    [getLLMTreeWithBackendIds] opens no session and sends nothing: the browser
    and the trace stay as they were, and the result is the tree text of the
    pipeline with two empty maps. *)
Theorem no_selectors_no_session (page : Page)
    (options : option GetLLMTreeOptions) (w : World B) :
  Dom.selectorMap (Dom.getLLMTree page options).2 = [] ->
  getLLMTreeWithBackendIds page options w
  = (w, inr ((Dom.getLLMTree page options).1,
             mkResult (Dom.tree (Dom.getLLMTree page options).2) [] [])).
Proof.
  intros Hempty. unfold getLLMTreeWithBackendIds.
  destruct (Dom.getLLMTree page options) as [calls r]. cbn [fst snd] in *.
  rewrite Hempty. reflexivity.
Qed.

(** X15: whenever [getLLMTreeWithBackendIds] returns, the tree text and the
    selector map are those of [getLLMTree] for the same page and options, and
    the backend node map has indexes of that selector map only, each once, and
    is no larger than it. *)
Theorem with_backend_ids_returned (page : Page)
    (options : option GetLLMTreeOptions) (w w' : World B)
    (calls : list (Dom.Call Page RawDOMNode GetLLMTreeOptions))
    (r : LLMTreeWithBackendIdsResult) :
  getLLMTreeWithBackendIds page options w = (w', inr (calls, r)) ->
  Dom.getLLMTree page options
  = (calls, Dom.mkResult (tree r) (selectorMap r)) /\
  (forall i, i ∈ JsMap.keys (backendNodeMap r) ->
             i ∈ JsMap.keys (selectorMap r)) /\
  NoDup (JsMap.keys (backendNodeMap r)) /\
  (JsMap.size (backendNodeMap r) <= JsMap.size (selectorMap r))%nat.
Proof.
  unfold getLLMTreeWithBackendIds.
  destruct (Dom.getLLMTree page options) as [calls0 [tree0 map0]].
  cbn [Dom.tree Dom.selectorMap].
  destruct (bool_decide (JsMap.size map0 = 0%nat)) eqn:Hsize.
  - intros Hrun. injection Hrun as _ <- <-. cbn [tree selectorMap backendNodeMap].
    split; [reflexivity |]. split; [inversion 1 |]. split; [constructor |].
    unfold JsMap.size. simpl. lia.
  - rewrite run_bind.
    destruct (resolveBackendIds page map0 w) as [w1 [e | m]] eqn:Hresolve;
      [discriminate |].
    intros Hrun. injection Hrun as _ <- <-. cbn [tree selectorMap backendNodeMap].
    split; [reflexivity |].
    exact (resolveBackendIds_returned_keys page map0 w w1 m Hresolve).
Qed.

End Facts.

End DomBackendIdsFacts.

(** *** The small browsers *)

Module BackendIdsMoreWitnesses.

Import Cdp BackendIds BackendIdsMoreFacts DomBackendIds DomBackendIdsFacts.

Local Abbreviation closed_world := (MiniBrowser.start MiniBrowser.closed).
Local Abbreviation sample_world := (MiniBrowser.start MiniBrowser.sample).

Lemma no_session_nothing_sent_witness :
  trace (isBackendNodeIdValid 0%nat 105 closed_world).1
  = [NewSession 0%nat None].
Proof.
  pose proof (no_session_nothing_sent 0%nat [] 105 closed_world
                MiniBrowser.closed
                (Rejected "Target page, context or browser has been closed"))
    as Hnone.
  destruct Hnone as (_ & _ & ->); reflexivity.
Defined.

Lemma getDocument_rejected_witness :
  (resolveBackendIds 0%nat MiniBrowser.sample_selectors
     (FaultyBrowser.start
        (FaultyBrowser.mkFaults true false false false false false))).2
  = inl (Rejected "Document is not available").
Proof.
  pose (w := FaultyBrowser.start
               (FaultyBrowser.mkFaults true false false false false false)).
  pose (b1 := (newCDPSession 0%nat (browser w)).1).
  rewrite (getDocument_rejected 0%nat MiniBrowser.sample_selectors w
             b1 b1 (detach 0%nat b1).1 0%nat
             (Rejected "Document is not available") (inr ()));
    reflexivity.
Defined.

Lemma detach_rejected_witness :
  (isBackendNodeIdValid 0%nat 105
     (FaultyBrowser.start
        (FaultyBrowser.mkFaults false false false false false true))).2
  = inl (Rejected "Target closed").
Proof.
  edestruct (detach_rejected 0%nat [] 105
               (FaultyBrowser.start
                  (FaultyBrowser.mkFaults false false false false false true)))
    as [Hvalid _].
  - reflexivity.
  - eapply Hvalid; reflexivity.
Defined.

Lemma selector_returned_witness :
  (resolveSelectorFromBackendId 0%nat 105 sample_world).2 = inr "#e\:mail".
Proof.
  erewrite (selector_returned 0%nat 105 sample_world); cycle 1.
  - reflexivity.
  - reflexivity.
  - reflexivity.
  - discriminate.
  - reflexivity.
  - reflexivity.
  - reflexivity.
  - reflexivity.
Defined.

Lemma synthesis_exception_witness :
  (resolveSelectorFromBackendId 0%nat 105
     (FaultyBrowser.start
        (FaultyBrowser.mkFaults false false false true false false))).2
  = inl (Error "Failed to build selector: Uncaught TypeError").
Proof.
  erewrite (synthesis_exception 0%nat 105); cycle 1.
  - reflexivity.
  - reflexivity.
  - reflexivity.
  - discriminate.
  - reflexivity.
  - reflexivity.
  - reflexivity.
  - reflexivity.
Defined.

Lemma selector_fails_early_witness :
  (resolveSelectorFromBackendId 0%nat 999 sample_world).2
  = inl (Rejected "No node with given id found") /\
  (resolveSelectorFromBackendId 0%nat 105
     (FaultyBrowser.start
        (FaultyBrowser.mkFaults false true false false false false))).2
  = inl (Error "Could not resolve node to object") /\
  (resolveSelectorFromBackendId 0%nat 105
     (FaultyBrowser.start
        (FaultyBrowser.mkFaults false false true false false false))).2
  = inl (Rejected "Execution context was destroyed").
Proof.
  split; [| split].
  - edestruct (selector_fails_early 0%nat 999 sample_world) as (Hearly & _);
      [reflexivity |].
    erewrite Hearly; cycle 1; reflexivity.
  - edestruct (selector_fails_early 0%nat 105
                 (FaultyBrowser.start
                    (FaultyBrowser.mkFaults false true false false false
                       false))) as (_ & Hearly & _); [reflexivity |].
    erewrite Hearly; cycle 1; reflexivity.
  - edestruct (selector_fails_early 0%nat 105
                 (FaultyBrowser.start
                    (FaultyBrowser.mkFaults false false true false false
                       false))) as (_ & _ & Hearly); [reflexivity |].
    erewrite Hearly; cycle 1.
    + reflexivity.
    + reflexivity.
    + discriminate.
    + reflexivity.
    + reflexivity.
    + reflexivity.
Defined.

Lemma release_rejected_witness :
  (resolveSelectorFromBackendId 0%nat 105
     (FaultyBrowser.start
        (FaultyBrowser.mkFaults false false false false true false))).2
  = inl (Rejected "Cannot release object group").
Proof.
  eapply (release_rejected 0%nat 105).
  - reflexivity.
  - reflexivity.
  - reflexivity.
  - discriminate.
  - reflexivity.
  - reflexivity.
  - reflexivity.
Defined.

Lemma resolveBackendIds_in_order_witness :
  [1; 4] `sublist_of` [1; 2; 3; 4].
Proof.
  apply (resolveBackendIds_in_order 0%nat MiniBrowser.sample_selectors
           sample_world
           (resolveBackendIds 0%nat MiniBrowser.sample_selectors
              sample_world).1
           [(1, 105); (4, 107)]).
  - vm_compute. reflexivity.
  - vm_compute. repeat constructor; rewrite ?elem_of_cons;
      intros Hin; repeat (destruct Hin as [Hin | Hin];
                          [discriminate Hin |]); inversion Hin.
Defined.

Lemma no_selectors_no_session_witness :
  getLLMTreeWithBackendIds (H := MiniSite.stages) 1%nat None sample_world
  = (sample_world, inr ([Dom.Call_extractRawDOM 1%nat], mkResult "" [] [])).
Proof.
  rewrite (no_selectors_no_session (H := MiniSite.stages) 1%nat None
             sample_world); reflexivity.
Defined.

Lemma with_backend_ids_returned_witness :
  Dom.getLLMTree (H := MiniSite.stages) 0%nat None
  = ((Dom.getLLMTree (H := MiniSite.stages) 0%nat None).1,
     Dom.mkResult "[1]<input /> [2]<span /> [3]<button />"
       [(1, "#e\:mail"); (2, "body > div > span");
        (3, "body > div > button:nth-of-type(2)")]) /\
  NoDup (JsMap.keys [(1, 105); (3, 107)]).
Proof.
  destruct (with_backend_ids_returned (H := MiniSite.stages) 0%nat None
              sample_world
              (getLLMTreeWithBackendIds (H := MiniSite.stages) 0%nat None
                 sample_world).1
              (Dom.getLLMTree (H := MiniSite.stages) 0%nat None).1
              (mkResult "[1]<input /> [2]<span /> [3]<button />"
                 [(1, "#e\:mail"); (2, "body > div > span");
                  (3, "body > div > button:nth-of-type(2)")]
                 [(1, 105); (3, 107)]))
    as (Htree & _ & Hnodup & _).
  - vm_compute. reflexivity.
  - split; [exact Htree | exact Hnodup].
Defined.

End BackendIdsMoreWitnesses.

(** ** The server *)

Module ServerFacts.

Import Cdp Server ServerSpec.

Section Facts.

Context {W : Type} `{Host W}.

Lemma sm_bind {A A'} (m : SM W A) (f : A -> SM W A') (sys : Sys W) :
  (m ≫= f) sys
  = match m sys with
    | (sys', inl e) => (sys', inl e)
    | (sys', inr a) => f a sys'
    end.
Proof. reflexivity. Qed.

(** *** [fetchWithRetry] *)

Lemma attempt_fetch (url : string) (sys : Sys W) :
  attempt url sys
  = (mkSys (vars sys) (fetch url (world sys)).1 (calls sys ++ [Fetch url]),
     inr match (fetch url (world sys)).2 with
         | inl e => inr e
         | inr res =>
             if ok res then inl res
             else inr (Error ("HTTP " +:+ pretty (status res) +:+ ": " +:+
                              statusText res))
         end).
Proof.
  unfold attempt, catching. rewrite sm_bind. unfold host_call.
  destruct (fetch url (world sys)) as [w [e | res]]; [reflexivity |].
  cbn [fst snd]. destruct (ok res); reflexivity.
Qed.

Lemma retry_loop_run (url : string) (maxRetries delayMs i : Z) (turns : nat)
    (lastError : option Exn) (sys : Sys W) :
  i + Z.of_nat turns = maxRetries ->
  exists k w out,
    (k <= turns)%nat /\
    retry_loop url maxRetries delayMs i turns lastError sys
    = (mkSys (vars sys) w (calls sys ++ schedule url delayMs i k), out) /\
    match out with
    | inr res =>
        exists j w0 last,
          k = S j /\
          failed_turns url maxRetries delayMs i j (world sys) lastError
            w0 last /\
          fetch url w0 = (w, inr res) /\
          ok res = true
    | inl e =>
        k = turns /\
        exists last,
          failed_turns url maxRetries delayMs i turns (world sys) lastError
            w last /\
          e = Error ("Failed after " +:+ pretty maxRetries +:+ " retries: " +:+
                     default "undefined" (message <$> last))
    end.
Proof.
  revert i lastError sys. induction turns as [| turns IH];
    intros i lastError sys Hi.
  - exists 0%nat, (world sys). eexists. cbn [retry_loop schedule]. unfold raise.
    rewrite app_nil_r. split; [lia |]. split; [destruct sys; reflexivity |].
    split; [reflexivity |]. exists lastError. split; [constructor | reflexivity].
  - cbn [retry_loop]. rewrite sm_bind, attempt_fetch.
    destruct (fetch url (world sys)) as [w r] eqn:Hfetch. cbn [fst snd].
    assert (forall err, turn_error r = Some err ->
              exists k w' out,
                (k <= S turns)%nat /\
                (_ ← (if i <? maxRetries - 1
                      then host_do (Sleep (delayMs * (i + 1)))
                                   (sleep (delayMs * (i + 1)))
                      else mret ());
                 retry_loop url maxRetries delayMs (i + 1) turns (Some err))
                  (mkSys (vars sys) w (calls sys ++ [Fetch url]))
                = (mkSys (vars sys) w'
                     (calls sys ++ schedule url delayMs i k), out) /\
                match out with
                | inr res =>
                    exists j w0 last,
                      k = S j /\
                      failed_turns url maxRetries delayMs i j (world sys)
                        lastError w0 last /\
                      fetch url w0 = (w', inr res) /\
                      ok res = true
                | inl e =>
                    k = S turns /\
                    exists last,
                      failed_turns url maxRetries delayMs i (S turns)
                        (world sys) lastError w' last /\
                      e = Error ("Failed after " +:+ pretty maxRetries +:+
                                 " retries: " +:+
                                 default "undefined" (message <$> last))
                end) as Hfailed.
    { intros err Herr. rewrite sm_bind.
      destruct (i <? maxRetries - 1) eqn:Hlast.
      - unfold host_do. cbn [vars world calls].
        destruct (IH (i + 1) (Some err)
                    (mkSys (vars sys) (sleep (delayMs * (i + 1)) w)
                       ((calls sys ++ [Fetch url]) ++
                        [Sleep (delayMs * (i + 1))])))
          as (k & w' & out & Hk & -> & Hout); [lia |].
        cbn [vars calls world] in *.
        destruct turns as [| turns]; [lia |].
        destruct k as [| k].
        { destruct out as [e | res];
            [destruct Hout as [Hk0 _]; discriminate
            | destruct Hout as (j & ? & ? & Hj & _); discriminate]. }
        exists (S (S k)), w', out. split; [lia |]. split.
        + cbn [schedule]. rewrite <- !app_assoc. reflexivity.
        + destruct out as [e | res].
          * destruct Hout as (Hkt & last & Hturns & He). split; [lia |].
            exists last. split; [| exact He].
            eapply failed_more; [exact Hfetch | exact Herr |].
            rewrite Hlast. exact Hturns.
          * destruct Hout as (j & w0 & last & Hj & Hturns & Hlastfetch & Hok).
            exists (S j), w0, last. split; [lia |].
            split; [| split; assumption].
            eapply failed_more; [exact Hfetch | exact Herr |].
            rewrite Hlast. exact Hturns.
      - unfold mret at 1, SM_ret at 1.
        assert (turns = 0%nat) as -> by lia.
        exists 1%nat, w. eexists. cbn [retry_loop schedule]. unfold raise.
        split; [lia |]. split; [reflexivity |]. split; [reflexivity |].
        exists (Some err). split; [| reflexivity].
        eapply failed_more; [exact Hfetch | exact Herr |].
        rewrite Hlast. constructor. }
    destruct r as [e | res]; [exact (Hfailed e eq_refl) |].
    cbn [turn_error] in Hfailed. destruct (ok res) eqn:Hok.
    + exists 1%nat, w, (inr res). unfold mret, SM_ret. cbn [schedule].
      split; [lia |]. split; [reflexivity |].
      exists 0%nat, (world sys), lastError. split; [reflexivity |].
      split; [constructor |]. split; [exact Hfetch | exact Hok].
    + exact (Hfailed _ eq_refl).
Qed.

Lemma slept_app (l1 l2 : list HostEvent) :
  slept (l1 ++ l2) = slept l1 + slept l2.
Proof.
  induction l1 as [| e l1 IH]; [reflexivity |].
  destruct e; cbn [app slept]; rewrite IH; lia.
Qed.

Lemma slept_schedule (url : string) (delayMs i : Z) (k : nat) :
  2 * slept (schedule url delayMs i k)
  = delayMs * (Z.of_nat k - 1) * (2 * i + Z.of_nat k) \/ k = 0%nat.
Proof.
  revert i. induction k as [| k IH]; intros i; [right; reflexivity |].
  left. cbn [schedule slept]. destruct k as [| k]; [simpl; lia |].
  destruct (IH (i + 1)) as [Hs | Hk]; [| discriminate].
  cbn [slept]. nia.
Qed.

(** X16: [fetchWithRetry] returns the first response that is ok, at once:
    the response of a fetch that follows turns which all failed, each
    followed by its sleep.  It throws when [maxRetries] turns have failed,
    with the message of the error of the last of them, and without a fetch at
    all when [maxRetries] is not positive.  It fetches once per turn and
    sleeps between two turns only, [delayMs] longer each time (500, 1000,
    1500, ... with the default), and leaves the variables of the server
    alone. *)
Theorem fetchWithRetry_schedule (url : string) (maxRetries delayMs : option Z)
    (sys : Sys W) :
  exists k w out,
    (Z.of_nat k <= Z.max 0 (default 5 maxRetries)) /\
    fetchWithRetry url maxRetries delayMs sys
    = (mkSys (vars sys) w
         (calls sys ++ schedule url (default 500 delayMs) 0 k), out) /\
    match out with
    | inr res =>
        exists j w0 last,
          k = S j /\
          failed_turns url (default 5 maxRetries) (default 500 delayMs) 0 j
            (world sys) None w0 last /\
          fetch url w0 = (w, inr res) /\
          ok res = true
    | inl e =>
        Z.of_nat k = Z.max 0 (default 5 maxRetries) /\
        exists last,
          failed_turns url (default 5 maxRetries) (default 500 delayMs) 0 k
            (world sys) None w last /\
          e = Error ("Failed after " +:+ pretty (default 5 maxRetries) +:+
                     " retries: " +:+ default "undefined" (message <$> last))
    end.
Proof.
  unfold fetchWithRetry.
  set (n := default 5 maxRetries). set (d := default 500 delayMs).
  destruct (Z.le_gt_cases n 0) as [Hn | Hn].
  - replace (Z.to_nat n) with 0%nat by lia.
    exists 0%nat, (world sys). eexists. cbn [retry_loop schedule]. unfold raise.
    rewrite app_nil_r. split; [lia |]. split; [destruct sys; reflexivity |].
    split; [lia |]. exists None. split; [constructor | reflexivity].
  - destruct (retry_loop_run url n d 0 (Z.to_nat n) None sys)
      as (k & w & out & Hk & Hrun & Hout); [lia |].
    exists k, w, out. split; [lia |]. split; [exact Hrun |].
    destruct out as [e | res]; [| exact Hout].
    destruct Hout as (Hkn & last & Hturns & He). split; [lia |].
    exists last. split; [| exact He]. rewrite Hkn. exact Hturns.
Qed.

Lemma fetched_schedule (url : string) (delayMs i : Z) (k : nat) :
  fetched (schedule url delayMs i k) = k.
Proof.
  revert i. induction k as [| k IH]; intros i; [reflexivity |].
  cbn [schedule fetched]. destruct k as [| k]; [reflexivity |].
  cbn [fetched]. rewrite IH. reflexivity.
Qed.

(** X17: the time that [fetchWithRetry] sleeps is fixed by the number of
    fetches it makes: with [k] fetches it has slept
    [delayMs * k * (k - 1) / 2] milliseconds, so 5000 with the defaults when
    all five fetches fail. *)
Theorem fetchWithRetry_slept (url : string) (maxRetries delayMs : option Z)
    (sys : Sys W) :
  exists new,
    calls (fetchWithRetry url maxRetries delayMs sys).1
    = (calls sys ++ new)%list /\
    Z.of_nat (fetched new) <= Z.max 0 (default 5 maxRetries) /\
    2 * slept new
    = default 500 delayMs * Z.of_nat (fetched new)
      * (Z.of_nat (fetched new) - 1).
Proof.
  unfold fetchWithRetry.
  set (n := default 5 maxRetries). set (d := default 500 delayMs).
  destruct (retry_loop_run url n d (n - Z.of_nat (Z.to_nat n)) (Z.to_nat n)
              None sys) as (k & w & out & Hk & Hrun & _); [lia |].
  destruct (Z.le_gt_cases n 0) as [Hn | Hn].
  - replace (Z.to_nat n) with 0%nat by lia. exists [].
    cbn [retry_loop]. unfold raise. cbn [fst calls fetched slept].
    rewrite app_nil_r. split; [reflexivity |]. split; lia.
  - replace (n - Z.of_nat (Z.to_nat n)) with 0 in Hrun by lia.
    rewrite Hrun. exists (schedule url d 0 k). cbn [fst calls].
    split; [reflexivity |]. rewrite fetched_schedule. split; [lia |].
    destruct (slept_schedule url d 0 k) as [Hs | ->]; [| simpl; lia].
    rewrite Hs. lia.
Qed.

(** *** Rules for [triple] *)

Lemma triple_weaken {A} (P P' Q Q' : Vars -> Prop) (R R' : A -> Vars -> Prop)
    (m : SM W A) :
  triple P m Q R ->
  (forall v, P' v -> P v) -> (forall v, Q v -> Q' v) ->
  (forall a v, R a v -> R' a v) ->
  triple P' m Q' R'.
Proof.
  intros Hm HP HQ HR sys Hsys. specialize (Hm sys (HP _ Hsys)).
  destruct (m sys) as [sys' [e | a]]; auto.
Qed.

Lemma triple_pre {A} (P P' Q : Vars -> Prop) (R : A -> Vars -> Prop)
    (m : SM W A) :
  triple P m Q R -> (forall v, P' v -> P v) -> triple P' m Q R.
Proof. intros Hm HP sys Hsys. exact (Hm sys (HP _ Hsys)). Qed.

Lemma triple_ret {A} (P Q : Vars -> Prop) (x : A) :
  triple P (mret x : SM W A) Q (fun _ => P).
Proof. intros sys Hsys. exact Hsys. Qed.

Lemma triple_raise {A} (P : Vars -> Prop) (R : A -> Vars -> Prop) (e : Exn) :
  triple P (raise e : SM W A) P R.
Proof. intros sys Hsys. exact Hsys. Qed.

Lemma triple_of_result {A} (P : Vars -> Prop) (r : Exn + A) :
  triple P (of_result r : SM W A) P (fun _ => P).
Proof. intros sys Hsys. unfold of_result. destruct r; exact Hsys. Qed.

Lemma triple_get (P : Vars -> Prop) :
  triple P (get_vars : SM W Vars) P (fun v v' => P v' /\ v = v').
Proof. intros sys Hsys. simpl. auto. Qed.

Lemma triple_set (P Q Q' : Vars -> Prop) (f : Vars -> Vars) :
  (forall v, P v -> Q (f v)) ->
  triple P (set_vars f : SM W unit) Q' (fun _ => Q).
Proof. intros Hf sys Hsys. simpl. auto. Qed.

Lemma triple_host_call {A} (P : Vars -> Prop) (event : HostEvent)
    (op : W -> W * (Exn + A)) :
  triple P (host_call event op) P (fun _ => P).
Proof.
  intros sys Hsys. unfold host_call.
  destruct (op (world sys)) as [w [e | a]]; exact Hsys.
Qed.

Lemma triple_host_do (P : Vars -> Prop) (event : HostEvent) (op : W -> W) :
  triple P (host_do event op) P (fun _ => P).
Proof. intros sys Hsys. exact Hsys. Qed.

Lemma triple_withTimeout {A} (P : Vars -> Prop) (event : HostEvent)
    (promise : Z -> W -> W * option (Exn + A)) (ms : Z) (msg : string) :
  triple P (withTimeout event promise ms msg) P (fun _ => P).
Proof.
  intros sys Hsys. unfold withTimeout.
  destruct (promise ms (world sys)) as [w [[e | a] |]]; exact Hsys.
Qed.

Lemma triple_bind {A A'} (P Q : Vars -> Prop) (R : A -> Vars -> Prop)
    (R' : A' -> Vars -> Prop) (m : SM W A) (f : A -> SM W A') :
  triple P m Q R ->
  (forall a, triple (R a) (f a) Q R') ->
  triple P (m ≫= f) Q R'.
Proof.
  intros Hm Hf sys Hsys. rewrite sm_bind. specialize (Hm sys Hsys).
  destruct (m sys) as [sys' [e | a]]; [exact Hm |].
  exact (Hf a sys' Hm).
Qed.

Lemma triple_catching {A} (P Q Q' : Vars -> Prop) (R : A -> Vars -> Prop)
    (m : SM W A) (h : Exn -> SM W A) :
  triple P m Q R ->
  (forall e, triple Q (h e) Q' R) ->
  triple P (catching m h) Q' R.
Proof.
  intros Hm Hh sys Hsys. unfold catching. specialize (Hm sys Hsys).
  destruct (m sys) as [sys' [e | a]]; [| exact Hm].
  exact (Hh e sys' Hm).
Qed.

Lemma triple_finally {A} (P : Vars -> Prop) (m : SM W A)
    (fin : SM W unit) :
  keeps P m -> keeps P fin -> keeps P (finally m fin).
Proof.
  intros Hm Hfin sys Hsys. unfold finally. specialize (Hm sys Hsys).
  destruct (m sys) as [sys1 outcome].
  assert (P (vars sys1)) as H1 by (destruct outcome; exact Hm).
  specialize (Hfin sys1 H1).
  destruct (fin sys1) as [sys2 [e | u]]; [exact Hfin |].
  destruct outcome; exact Hfin.
Qed.

Lemma keeps_bind {A A'} (P : Vars -> Prop) (m : SM W A) (f : A -> SM W A') :
  keeps P m -> (forall a, keeps P (f a)) -> keeps P (m ≫= f).
Proof. intros Hm Hf. apply (triple_bind P P (fun _ => P)); assumption. Qed.

Lemma keeps_get_bind {A} (P : Vars -> Prop) (f : Vars -> SM W A) :
  (forall v, triple (fun v' => P v' /\ v = v') (f v) P (fun _ => P)) ->
  keeps P (get_vars ≫= f).
Proof.
  intros Hf. apply (triple_bind P P (fun v v' => P v' /\ v = v'));
    [apply triple_get | exact Hf].
Qed.

(** *** What leaves the variables alone *)

Lemma keeps_attempt (P : Vars -> Prop) (url : string) :
  keeps P (attempt url).
Proof.
  unfold attempt.
  apply (triple_catching P P P).
  - apply keeps_bind; [apply triple_host_call |]. intros res.
    destruct (ok res); [apply triple_ret | apply triple_raise].
  - intros e. apply triple_ret.
Qed.

Lemma keeps_retry_loop (P : Vars -> Prop) (url : string)
    (maxRetries delayMs i : Z) (turns : nat) (lastError : option Exn) :
  keeps P (retry_loop url maxRetries delayMs i turns lastError).
Proof.
  revert i lastError. induction turns as [| turns IH]; intros i lastError.
  - apply triple_raise.
  - cbn [retry_loop]. apply keeps_bind; [apply keeps_attempt |].
    intros [res | err]; [apply triple_ret |].
    apply keeps_bind; [| intros _; apply IH].
    destruct (i <? maxRetries - 1); [apply triple_host_do | apply triple_ret].
Qed.

Lemma keeps_fetchWithRetry (P : Vars -> Prop) (url : string)
    (maxRetries delayMs : option Z) :
  keeps P (fetchWithRetry url maxRetries delayMs).
Proof. apply keeps_retry_loop. Qed.

(** *** The invariant *)

Lemma invariant_initial : invariant initial.
Proof.
  constructor; cbn.
  - constructor.
  - constructor.
  - congruence.
  - intros [x Hx]. discriminate.
  - discriminate.
Qed.

Lemma invariant_with_context (c : Context) (v : Vars) :
  invariant v -> invariant (with_context (Some c) v).
Proof. intros [H1 H2 H3 H4 H5]. constructor; cbn; eauto. Qed.

Lemma invariant_with_internal (e : option string) (v : Vars) :
  invariant v -> invariant (with_internalWsEndpoint e v).
Proof. intros [H1 H2 H3 H4 H5]. constructor; cbn; eauto. Qed.

Lemma invariant_with_wsEndpoint (e : option string) (v : Vars) :
  invariant v -> is_Some (context v) -> invariant (with_wsEndpoint e v).
Proof. intros [H1 H2 H3 H4 H5] Hc. constructor; cbn; eauto. Qed.

Lemma invariant_with_browserLaunching (p : option (Exn + unit)) (v : Vars) :
  invariant v -> (p = Some (inr ()) -> is_Some (context v)) ->
  invariant (with_browserLaunching p v).
Proof. intros [H1 H2 H3 H4 H5] Hp. constructor; cbn; eauto. Qed.

Lemma invariant_with_connections (c : list Socket) (v : Vars) :
  invariant v -> invariant (with_connections c v).
Proof. intros [H1 H2 H3 H4 H5]. constructor; cbn; eauto. Qed.

Lemma invariant_with_cleaningUp (b : bool) (v : Vars) :
  invariant v -> invariant (with_cleaningUp b v).
Proof. intros [H1 H2 H3 H4 H5]. constructor; cbn; eauto. Qed.

Lemma invariant_clear (v : Vars) :
  invariant v -> invariant (with_registry [] v).
Proof.
  intros [H1 H2 H3 H4 H5].
  constructor; cbn; eauto; try constructor; congruence.
Qed.

Lemma map_delete_sublist {V} (k : string) (m : JsMap.t string V) :
  JsMap.keys (map_delete k m) `sublist_of` JsMap.keys m.
Proof.
  unfold JsMap.keys. induction m as [| [k' v] m IH]; [constructor |].
  cbn [map_delete]. destruct (decide (k = k')).
  - rewrite fmap_cons. apply sublist_cons. reflexivity.
  - rewrite !fmap_cons. apply sublist_skip, IH.
Qed.

Lemma invariant_delete (name : string) (v : Vars) :
  invariant v -> invariant (with_registry (map_delete name (registry v)) v).
Proof.
  intros [H1 H2 H3 H4 H5]. constructor; cbn; eauto.
  - rewrite Forall_forall in H1 |- *. intros k Hk. apply H1.
    eapply elem_of_sublist; [exact Hk | apply map_delete_sublist].
  - eapply sublist_NoDup; [exact H2 | apply map_delete_sublist].
  - intros Hne. apply H3. intros Hnil. rewrite Hnil in Hne. apply Hne.
    reflexivity.
Qed.

Lemma invariant_set (name : string) (entry : PageEntry) (v : Vars) :
  invariant v -> is_Some (context v) -> valid_name name ->
  invariant (with_registry (JsMap.set name entry (registry v)) v).
Proof.
  intros [H1 H2 H3 H4 H5] Hc Hname. constructor; cbn; eauto.
  - rewrite Forall_forall in H1 |- *. intros k Hk.
    apply JsMapFacts.keys_set in Hk. destruct Hk as [-> | Hk]; auto.
  - apply JsMapFacts.NoDup_set, H2.
Qed.

Lemma keeps_launchBrowser (s : Settings) (dir : string) :
  triple invariant (launchBrowser s dir) invariant
    (fun _ v => invariant v /\ is_Some (context v)).
Proof.
  unfold launchBrowser.
  apply (triple_bind _ _ (fun v v' => invariant v' /\ v = v'));
    [apply triple_get |].
  intros v. case_bool_decide as Hc.
  - intros sys [Hinv ->]. simpl. auto.
  - set (Q := fun v => invariant v /\ is_Some (context v)).
    apply (triple_weaken invariant _ invariant _ (fun _ => Q) (fun _ => Q));
      [| tauto | auto | auto].
    apply (triple_bind _ _ (fun _ => invariant)); [apply triple_host_call |].
    intros c.
    apply (triple_bind _ _ (fun _ => Q)).
    { apply triple_set. intros v' Hv'. split.
      - apply invariant_with_context, Hv'.
      - cbn. eauto. }
    intros _.
    assert (forall v', Q v' -> invariant v') as HQ by (intros v' [Hv' _]; exact Hv').
    apply (triple_weaken Q _ Q _ (fun _ => Q) (fun _ => Q)); auto.
    apply keeps_bind; [apply keeps_fetchWithRetry |]. intros res.
    apply keeps_bind; [apply triple_of_result |]. intros internal.
    apply keeps_bind.
    { apply triple_set. intros v' [Hv' Hctx]. split.
      - apply invariant_with_internal, Hv'.
      - exact Hctx. }
    intros _.
    apply keeps_bind; [apply triple_of_result |]. intros wsPath.
    apply triple_set. intros v' [Hv' Hctx]. split.
    + apply invariant_with_wsEndpoint; assumption.
    + exact Hctx.
Qed.

Lemma keeps_ensureBrowser (s : Settings) (dir : string) :
  triple invariant (ensureBrowser s dir) invariant
    (fun _ v => invariant v /\ is_Some (context v)).
Proof.
  unfold ensureBrowser.
  apply (triple_bind _ _ (fun v v' => invariant v' /\ v = v'));
    [apply triple_get |].
  intros v. case_bool_decide as Hc.
  - intros sys [Hinv ->]. simpl. auto.
  - destruct (browserLaunching v) as [outcome |] eqn:Hlaunching.
    + intros sys [Hinv ->]. unfold of_result.
      destruct outcome as [e | []]; [exact Hinv |].
      split; [exact Hinv |]. apply (launched_has_browser _ Hinv), Hlaunching.
    + intros sys [Hinv _].
      pose proof (keeps_launchBrowser s dir sys Hinv) as Hlaunch.
      destruct (launchBrowser s dir sys) as [sys' [e | []]]; cbn [vars].
      * apply invariant_with_browserLaunching; [exact Hlaunch | discriminate].
      * destruct Hlaunch as [Hinv' Hctx]. split.
        -- apply invariant_with_browserLaunching; auto.
        -- exact Hctx.
Qed.

Lemma keeps_the_context (P : Vars -> Prop) :
  keeps P (the_context : SM W Context).
Proof.
  unfold the_context. apply keeps_get_bind. intros v.
  destruct (context v).
  - intros sys [Hsys _]. exact Hsys.
  - intros sys [Hsys _]. exact Hsys.
Qed.

Lemma keeps_getTargetId (P : Vars -> Prop) (p : Page) :
  keeps P (getTargetId p).
Proof.
  unfold getTargetId. apply keeps_bind; [apply keeps_the_context |].
  intros c. apply keeps_bind; [apply triple_host_call |]. intros session.
  apply triple_finally; apply triple_host_call.
Qed.

(** A value that passes the tests of [POST /pages] is a valid name. *)
Lemma accepted_name (name : Json) :
  falsy name || negb (is_string name) = false ->
  bool_decide (256 < String.length (string_of name))%nat = false ->
  valid_name (string_of name).
Proof.
  intros Hfirst Hlong. apply bool_decide_eq_false in Hlong.
  destruct name as [| | b | n | str | |];
    try (cbn in Hfirst; rewrite ?orb_true_r in Hfirst; discriminate).
  cbn [string_of] in *.
  destruct str as [| c str]; [discriminate |].
  split; [discriminate | lia].
Qed.

Lemma with_browser_weaken {A} (m : SM W A) :
  keeps (fun v => invariant v /\ is_Some (context v)) m ->
  triple (fun v => invariant v /\ is_Some (context v)) m invariant
    (fun _ => invariant).
Proof.
  intros Hm. eapply triple_weaken; [exact Hm | auto | |].
  - intros v [Hv _]. exact Hv.
  - intros _ v [Hv _]. exact Hv.
Qed.

Lemma keeps_get_root (s : Settings) (dir : string) :
  keeps invariant (get_root s dir).
Proof.
  unfold get_root.
  eapply triple_bind; [apply keeps_ensureBrowser |]. intros ?.
  apply with_browser_weaken.
  apply keeps_get_bind. intros v sys [Hsys _]. exact Hsys.
Qed.

Lemma keeps_get_pages : keeps invariant (get_pages : SM W Response).
Proof.
  unfold get_pages. apply keeps_get_bind. intros v sys [Hsys _]. exact Hsys.
Qed.

Lemma keeps_on_page_close (name : string) :
  keeps invariant (on_page_close name : SM W unit).
Proof. apply triple_set. intros v. apply invariant_delete. Qed.

Lemma keeps_post_pages (s : Settings) (dir : string) (body : RequestBody) :
  keeps invariant (post_pages s dir body).
Proof.
  unfold post_pages. destruct body as [| name]; [apply triple_raise |].
  destruct (falsy name || negb (is_string name)) eqn:Hfirst;
    [apply triple_ret |].
  case_bool_decide as Hempty; [apply triple_ret |].
  destruct (bool_decide (256 < String.length (string_of name))%nat) eqn:Hlong;
    [apply triple_ret |].
  pose proof (accepted_name name Hfirst Hlong) as Hname.
  eapply triple_bind; [apply keeps_ensureBrowser |]. intros ?.
  apply with_browser_weaken.
  apply keeps_get_bind. intros v.
  apply (triple_pre (fun v' => invariant v' /\ is_Some (context v')));
    [| intros v0 [Hv0 _]; exact Hv0].
  apply keeps_bind.
  - destruct (JsMap.get (string_of name) (registry v)); [apply triple_ret |].
    apply keeps_bind; [apply keeps_the_context |]. intros c.
    apply keeps_bind; [apply triple_withTimeout |]. intros p.
    apply keeps_bind; [apply keeps_getTargetId |]. intros target.
    apply keeps_bind; [| intros ?; apply triple_ret].
    apply triple_set. intros v' [Hv' Hctx]. split.
    + apply invariant_set; assumption.
    + exact Hctx.
  - intros entry. apply keeps_get_bind. intros v' sys [Hsys _]. exact Hsys.
Qed.

Lemma keeps_delete_page (param : string) :
  keeps invariant (delete_page param : SM W Response).
Proof.
  unfold delete_page. apply keeps_bind; [apply triple_of_result |].
  intros name. apply keeps_get_bind. intros v.
  apply (triple_pre invariant); [| intros v0 [Hv0 _]; exact Hv0].
  destruct (JsMap.get name (registry v)); [| apply triple_ret].
  apply keeps_bind; [apply triple_host_call |]. intros ?.
  apply keeps_bind; [apply keeps_on_page_close |]. intros ?.
  apply keeps_bind; [apply keeps_on_page_close |]. intros ?.
  apply triple_ret.
Qed.

Lemma keeps_on_upgrade (s : Settings) (dir : string) (url : option string)
    (socket : Socket) :
  keeps invariant (on_upgrade s dir url socket).
Proof.
  unfold on_upgrade. destruct (devtools_url url).
  - apply (triple_catching invariant invariant invariant).
    + eapply triple_bind; [apply keeps_ensureBrowser |]. intros ?.
      apply with_browser_weaken.
      apply keeps_bind; [apply triple_host_call |]. intros ?. apply triple_ret.
    + intros e. apply keeps_bind; [apply triple_host_do |]. intros ?.
      apply triple_ret.
  - apply keeps_bind; [apply triple_host_do |]. intros ?. apply triple_ret.
Qed.

Lemma keeps_destroy_all (P : Vars -> Prop) (sockets : list Socket) :
  keeps P (destroy_all sockets : SM W unit).
Proof.
  induction sockets as [| socket rest IH]; [apply triple_ret |].
  cbn [destroy_all]. apply keeps_bind; [apply triple_host_do |].
  intros ?. exact IH.
Qed.

Lemma keeps_close_all (P : Vars -> Prop) (entries : list PageEntry) :
  keeps P (close_all entries : SM W unit).
Proof.
  induction entries as [| entry rest IH]; [apply triple_ret |].
  cbn [close_all]. apply keeps_bind; [| intros ?; exact IH].
  apply (triple_catching P P P).
  - apply keeps_bind; [apply triple_host_call |]. intros ?. apply triple_ret.
  - intros e. apply triple_ret.
Qed.

Lemma keeps_cleanup : keeps invariant (cleanup : SM W unit).
Proof.
  unfold cleanup. apply keeps_get_bind. intros v.
  apply (triple_pre invariant); [| intros v0 [Hv0 _]; exact Hv0].
  destruct (cleaningUp v); [apply triple_ret |].
  apply keeps_bind;
    [apply triple_set; intros v'; apply invariant_with_cleaningUp |].
  intros ?. apply keeps_bind; [apply keeps_destroy_all |]. intros ?.
  apply keeps_bind;
    [apply triple_set; intros v'; apply invariant_with_connections |].
  intros ?. apply keeps_get_bind. intros v1.
  apply (triple_pre invariant); [| intros v0 [Hv0 _]; exact Hv0].
  apply keeps_bind; [apply keeps_close_all |]. intros ?.
  apply keeps_bind; [apply triple_set; intros v'; apply invariant_clear |].
  intros ?. apply keeps_get_bind. intros v2.
  apply (triple_pre invariant); [| intros v0 [Hv0 _]; exact Hv0].
  apply keeps_bind; [| intros ?; apply triple_host_do].
  destruct (context v2); [| apply triple_ret].
  apply (triple_catching invariant invariant invariant).
  - apply triple_host_call.
  - intros e. apply triple_ret.
Qed.

Lemma keeps_forget {A} (P : Vars -> Prop) (m : SM W A) :
  keeps P m -> keeps P (forget m).
Proof.
  intros Hm. unfold forget. apply keeps_bind; [exact Hm |].
  intros a. apply triple_ret.
Qed.

Lemma keeps_handle (s : Settings) (dir : string) (r : Request) :
  keeps invariant (handle s dir r).
Proof.
  destruct r; cbn [handle].
  - apply keeps_forget, keeps_get_root.
  - apply keeps_forget, keeps_get_pages.
  - apply keeps_forget, keeps_post_pages.
  - apply keeps_forget, keeps_delete_page.
  - apply keeps_on_page_close.
  - apply keeps_forget, keeps_on_upgrade.
  - apply triple_set. intros v. apply invariant_with_connections.
  - apply triple_set. intros v. apply invariant_with_connections.
  - apply keeps_cleanup.
Qed.

Lemma keeps_serve (options : ServeOptions) :
  keeps invariant (serve options).
Proof.
  unfold serve. apply keeps_bind; [apply triple_of_result |]. intros ?.
  apply keeps_bind; [intros sys Hsys; exact Hsys |]. intros sys0.
  apply keeps_bind; [apply triple_host_call |]. intros ?.
  apply keeps_bind.
  - destruct (negb (the_lazy (settings_of options))); [| apply triple_ret].
    eapply triple_weaken; [apply keeps_launchBrowser | auto | auto |].
    intros _ v [Hv _]. exact Hv.
  - intros ?. apply keeps_bind; [apply triple_host_do |]. intros ?.
    apply keeps_get_bind. intros v sys [Hsys _]. exact Hsys.
Qed.

Lemma keeps_outcome {A} (P : Vars -> Prop) (m : SM W A) (sys : Sys W) :
  keeps P m -> P (vars sys) -> P (vars (m sys).1).
Proof.
  intros Hm Hsys. specialize (Hm sys Hsys).
  destruct (m sys) as [sys' [e | a]]; exact Hm.
Qed.

(** X18: at every moment of a run of the server in which the requests are
    handled one after the other, whatever the host does and whatever
    requests arrive (also after requests that threw): every name in
    the registry is a non-empty string of at most 256 characters, no name is
    registered twice, and a page is registered, or an endpoint known, only
    when the browser context exists. *)
Theorem server_invariant (options : ServeOptions) (dir : string)
    (requests : list Request) (w : W) :
  invariant
    (vars (run (settings_of options) dir requests
             (serve options (mkSys initial w [])).1)).
Proof.
  assert (invariant (vars (serve options (mkSys initial w [])).1)) as Hstart.
  { apply keeps_outcome; [apply keeps_serve | apply invariant_initial]. }
  revert Hstart. generalize ((serve options (mkSys initial w [])).1).
  induction requests as [| r rest IH]; intros sys Hsys; [exact Hsys |].
  cbn [run]. apply IH. apply keeps_outcome; [apply keeps_handle | exact Hsys].
Qed.

(** *** The start *)

Lemma check_ports_ok (s : Settings) :
  1 <= the_port s <= 65535 -> 1 <= the_cdpPort s <= 65535 ->
  the_port s <> the_cdpPort s ->
  check_ports s = inr ().
Proof.
  intros Hp Hc Hne. unfold check_ports.
  replace (the_port s <? 1) with false by lia.
  replace (the_port s >? 65535) with false by lia.
  replace (the_cdpPort s <? 1) with false by lia.
  replace (the_cdpPort s >? 65535) with false by lia.
  replace (the_port s =? the_cdpPort s) with false by lia.
  reflexivity.
Qed.

(** X19: [serve] with a port or a debugging port outside 1..65535, or with
    the two equal (as with port 9223 and the default debugging port), throws
    an error before it touches anything: no directory is made, no browser
    launched, nothing listens. *)
Theorem serve_rejects_ports (options : ServeOptions) (sys : Sys W) :
  ~ (1 <= default 9222 (port options) <= 65535 /\
     1 <= default 9223 (cdpPort options) <= 65535 /\
     default 9222 (port options) <> default 9223 (cdpPort options)) ->
  exists msg, serve options sys = (sys, inl (Error msg)).
Proof.
  intros Hbad. unfold serve. rewrite sm_bind. unfold of_result, check_ports.
  cbn [settings_of the_port the_cdpPort].
  set (p := default 9222 (port options)) in *.
  set (c := default 9223 (cdpPort options)) in *.
  destruct ((p <? 1) || (p >? 65535)) eqn:Hp; [eauto |].
  destruct ((c <? 1) || (c >? 65535)) eqn:Hc; [eauto |].
  destruct (p =? c) eqn:Hpc; [eauto |].
  exfalso. apply Hbad. lia.
Qed.

(** X20: in lazy mode [serve] starts without a browser: with valid ports and
    a directory that can be made it calls [mkdirSync] and [listen] and nothing
    else, changes no variable, and returns the endpoint known so far, the
    pending endpoint when none is.  Without lazy mode a browser that cannot
    be launched makes [serve] throw before it listens. *)
Theorem serve_start (options : ServeOptions) (sys : Sys W) (w1 : W) :
  let s := settings_of options in
  let dir := userDataDir_of s (world sys) in
  check_ports s = inr () ->
  mkdirSync dir (world sys) = (w1, inr ()) ->
  (the_lazy s = true ->
   serve options sys
   = (mkSys (vars sys) (listen (the_port s) (the_host s) w1)
        (calls sys ++ [Mkdir dir; Listen (the_port s) (the_host s)]),
      inr (mkServer
             (default (proxied_endpoint s "/devtools/browser/pending")
                      (wsEndpoint (vars sys)))
             (the_port s)))) /\
  (forall w2 e,
     the_lazy s = false ->
     context (vars sys) = None ->
     launchPersistentContext dir (the_headless s) (cdpArgs s) w1
     = (w2, inl e) ->
     serve options sys
     = (mkSys (vars sys) w2
          (calls sys ++ [Mkdir dir; Launch dir (the_headless s) (cdpArgs s)]),
        inl e)).
Proof.
  intros s dir Hports Hmkdir. split.
  - intros Hlazy. unfold serve. fold s. rewrite Hports.
    rewrite sm_bind. unfold of_result at 1. rewrite sm_bind. rewrite sm_bind.
    unfold host_call. fold dir. rewrite Hmkdir, Hlazy. cbn [negb].
    rewrite sm_bind. unfold mret at 1, SM_ret at 1. rewrite sm_bind.
    unfold host_do. cbn [vars world calls]. unfold get_vars.
    rewrite sm_bind. cbn [vars]. unfold mret, SM_ret.
    rewrite <- app_assoc. reflexivity.
  - intros w2 e Hlazy Hctx Hlaunch. unfold serve. fold s. rewrite Hports.
    rewrite sm_bind. unfold of_result at 1. rewrite sm_bind. rewrite sm_bind.
    unfold host_call at 1. fold dir. rewrite Hmkdir, Hlazy. cbn [negb].
    rewrite sm_bind. unfold launchBrowser. rewrite sm_bind.
    unfold get_vars at 1. cbn [vars]. rewrite Hctx.
    rewrite bool_decide_eq_false_2 by (intros [x Hx]; discriminate).
    rewrite sm_bind. unfold host_call. cbn [vars world calls].
    rewrite Hlaunch. rewrite <- app_assoc. reflexivity.
Qed.

(** *** The browser on demand *)

Lemma bind_inr {A A'} (m : SM W A) (f : A -> SM W A') (sys sys' : Sys W)
    (b : A') :
  (m ≫= f) sys = (sys', inr b) ->
  exists a sys1, m sys = (sys1, inr a) /\ f a sys1 = (sys', inr b).
Proof.
  rewrite sm_bind. destruct (m sys) as [sys1 [e | a]]; [discriminate | eauto].
Qed.

Lemma bind_inl {A A'} (m : SM W A) (f : A -> SM W A') (sys sys' : Sys W)
    (e : Exn) :
  (m ≫= f) sys = (sys', inl e) ->
  m sys = (sys', inl e) \/
  exists a sys1, m sys = (sys1, inr a) /\ f a sys1 = (sys', inl e).
Proof.
  rewrite sm_bind. destruct (m sys) as [sys1 [e' | a]]; intros Hrun.
  - left. injection Hrun as -> ->. reflexivity.
  - right. exists a, sys1. split; [reflexivity | exact Hrun].
Qed.

Lemma same_vars {A} (m : SM W A) (sys sys' : Sys W) (out : Exn + A) :
  (forall P, keeps P m) -> m sys = (sys', out) -> vars sys' = vars sys.
Proof.
  intros Hm Hrun. specialize (Hm (fun v => v = vars sys) sys eq_refl).
  rewrite Hrun in Hm. destruct out; exact Hm.
Qed.

Lemma ensureBrowser_launched (s : Settings) (dir : string) (sys : Sys W) :
  launched (vars sys) -> ensureBrowser s dir sys = (sys, inr ()).
Proof.
  intros Hsys. unfold ensureBrowser. rewrite sm_bind. unfold get_vars.
  destruct (bool_decide_reflect (is_Some (context (vars sys)))) as [Hc | Hc];
    [reflexivity |].
  destruct Hsys as [Hsys | Hsys]; [contradiction |].
  rewrite Hsys. reflexivity.
Qed.

Lemma ensureBrowser_success (s : Settings) (dir : string) (sys sys' : Sys W) :
  ensureBrowser s dir sys = (sys', inr ()) -> launched (vars sys').
Proof.
  unfold ensureBrowser. rewrite sm_bind. unfold get_vars.
  destruct (bool_decide_reflect (is_Some (context (vars sys)))) as [Hc | Hc].
  - intros [= <-]. left. exact Hc.
  - destruct (browserLaunching (vars sys)) as [outcome |] eqn:Hl.
    + unfold of_result. intros [= <- ->]. right. exact Hl.
    + destruct (launchBrowser s dir sys) as [sys1 outcome].
      intros [= <- ->]. right. reflexivity.
Qed.

Lemma launchBrowser_wsEndpoint (s : Settings) (dir : string) (x : option string) :
  triple (fun v => wsEndpoint v = x) (launchBrowser s dir : SM W unit)
         (fun v => wsEndpoint v = x) (fun _ _ => True).
Proof.
  set (P := fun v => wsEndpoint v = x).
  assert (forall A (m : SM W A), keeps P m -> triple P m P (fun _ => P))
    as Hkeeps by (intros A m Hm; exact Hm).
  unfold launchBrowser.
  apply (triple_bind P P (fun v v' => P v' /\ v = v')); [apply triple_get |].
  intros v. destruct (bool_decide (is_Some (context v))).
  { intros sys _. exact I. }
  apply (triple_pre P); [| intros v0 [Hv0 _]; exact Hv0].
  apply (triple_bind P P (fun _ => P)); [apply triple_host_call |].
  intros c. apply (triple_bind P P (fun _ => P));
    [apply triple_set; intros v0 Hv0; exact Hv0 |].
  intros _. apply (triple_bind P P (fun _ => P));
    [apply keeps_fetchWithRetry |].
  intros res. apply (triple_bind P P (fun _ => P)); [apply triple_of_result |].
  intros internal. apply (triple_bind P P (fun _ => P));
    [apply triple_set; intros v0 Hv0; exact Hv0 |].
  intros _. apply (triple_bind P P (fun _ => P)); [apply triple_of_result |].
  intros wsPath. apply triple_set. intros v0 _. exact I.
Qed.

(** X21: a launch that failed is not tried again.  When [ensureBrowser]
    throws, then either the browser context is still missing, and every later
    call throws the same error without calling the host; or the context was
    made and only the look-up of its endpoint failed, and then every later
    call returns at once and [GET /] answers 200 with the endpoint as it was
    before the launch, which is [null] on a fresh server. *)
Theorem ensureBrowser_failure_sticks (s : Settings) (dir : string)
    (sys sys' : Sys W) (e : Exn) :
  ensureBrowser s dir sys = (sys', inl e) ->
  (context (vars sys') = None ->
   ensureBrowser s dir sys' = (sys', inl e)) /\
  (is_Some (context (vars sys')) ->
   ensureBrowser s dir sys' = (sys', inr ()) /\
   get_root s dir sys' = (sys', inr (json (ServerInfo (wsEndpoint (vars sys)))))).
Proof.
  intros Hrun.
  assert (wsEndpoint (vars sys') = wsEndpoint (vars sys) /\
          (context (vars sys') = None ->
           browserLaunching (vars sys') = Some (inl e))) as [Hws Hsticky].
  { revert Hrun. unfold ensureBrowser. rewrite sm_bind. unfold get_vars.
    destruct (bool_decide_reflect (is_Some (context (vars sys)))) as [Hc | Hc];
      [discriminate |].
    destruct (browserLaunching (vars sys)) as [outcome |] eqn:Hl.
    - unfold of_result. intros [= <- ->]. auto.
    - pose proof (launchBrowser_wsEndpoint s dir (wsEndpoint (vars sys)) sys
                    eq_refl) as Hlaunch.
      destruct (launchBrowser s dir sys) as [sys1 outcome].
      intros [= <- ->]. cbn [vars with_browserLaunching wsEndpoint
                             browserLaunching context]. auto. }
  split.
  - intros Hnone. unfold ensureBrowser. rewrite sm_bind. unfold get_vars.
    rewrite Hnone.
    rewrite bool_decide_eq_false_2 by (intros [x Hx]; discriminate).
    rewrite (Hsticky Hnone). reflexivity.
  - intros Hsome.
    assert (ensureBrowser s dir sys' = (sys', inr ())) as Hagain
      by (apply ensureBrowser_launched; left; exact Hsome).
    split; [exact Hagain |].
    unfold get_root. rewrite sm_bind, Hagain. rewrite sm_bind.
    unfold get_vars. rewrite Hws. reflexivity.
Qed.

(** *** [POST /pages] *)

Lemma classic_name (body : RequestBody) :
  (exists str, body = Parsed (JString str) /\ valid_name str) \/
  ~ (exists str, body = Parsed (JString str) /\ valid_name str).
Proof.
  destruct body as [| name];
    [right; intros (str' & Heq & _); discriminate |].
  destruct name as [| | b | n | str | |];
    try (right; intros (str' & Heq & _); discriminate).
  destruct (decide (str = "")) as [-> | Hne].
  { right. intros (str' & [= <-] & [Hne _]). contradiction. }
  destruct (decide (String.length str <= 256)%nat) as [Hlen | Hlen].
  - left. exists str. split; [reflexivity | split; assumption].
  - right. intros (str' & [= <-] & [_ Hlen']). contradiction.
Qed.

Lemma post_pages_invalid (s : Settings) (dir : string) (body : RequestBody)
    (sys : Sys W) :
  ~ (exists str, body = Parsed (JString str) /\ valid_name str) ->
  match body with
  | NoBody => exists msg, post_pages s dir body sys = (sys, inl (Error msg))
  | Parsed _ =>
      exists msg,
        post_pages s dir body sys
        = (sys, inr (status_json 400 (Failure msg))) /\
        msg <> "name cannot be empty"
  end.
Proof.
  intros Hbad. unfold post_pages. destruct body as [| name].
  { eexists. reflexivity. }
  destruct (falsy name || negb (is_string name)) eqn:Hfirst.
  { eexists. split; [reflexivity | discriminate]. }
  destruct (bool_decide (256 < String.length (string_of name))%nat) eqn:Hlong.
  - destruct name as [| | b | n | str | |];
      try (cbn in Hfirst; rewrite ?orb_true_r in Hfirst; discriminate).
    destruct str as [| c str]; [discriminate |].
    rewrite bool_decide_eq_false_2 by discriminate.
    eexists. split; [reflexivity | discriminate].
  - exfalso. apply Hbad. pose proof (accepted_name name Hfirst Hlong) as Hname.
    destruct name as [| | b | n | str | |];
      try (cbn in Hfirst; rewrite ?orb_true_r in Hfirst; discriminate).
    exists str. split; [reflexivity | exact Hname].
Qed.

Lemma post_pages_invalid_answer (s : Settings) (dir : string)
    (body : RequestBody) (sys sys' : Sys W) (out : Exn + Response) :
  ~ (exists str, body = Parsed (JString str) /\ valid_name str) ->
  post_pages s dir body sys = (sys', out) ->
  sys' = sys /\
  match out with
  | inl _ => body = NoBody
  | inr resp => code resp = 400
  end.
Proof.
  intros Hbad Hrun. pose proof (post_pages_invalid s dir body sys Hbad) as Hrej.
  destruct body as [| name].
  - destruct Hrej as (msg & Hrej). rewrite Hrej in Hrun.
    injection Hrun as <- <-. split; reflexivity.
  - destruct Hrej as (msg & Hrej & _). rewrite Hrej in Hrun.
    injection Hrun as <- <-. split; reflexivity.
Qed.

(** X22: [POST /pages] whose body has no name that is a non-empty string of
    at most 256 characters does nothing to the server: no variable changes
    and the host is not called.  Without a parsed body the handler throws,
    as reading [name] off [undefined] does; with one it answers 400, and
    the error is never the one of the test for an empty name, since the
    empty string fails the first test already. *)
Theorem post_pages_rejects (s : Settings) (dir : string) (body : RequestBody)
    (sys : Sys W) :
  ~ (exists str, body = Parsed (JString str) /\ valid_name str) ->
  match body with
  | NoBody => exists msg, post_pages s dir body sys = (sys, inl (Error msg))
  | Parsed _ =>
      exists msg,
        post_pages s dir body sys
        = (sys, inr (status_json 400 (Failure msg))) /\
        msg <> "name cannot be empty"
  end.
Proof. exact (post_pages_invalid s dir body sys). Qed.

Local Abbreviation entry_for name v :=
  (match JsMap.get name (registry v) with
   | Some entry => mret entry
   | None =>
       c ← the_context;
       p ← withTimeout (NewPage c) (newPage c) 30000
             "Page creation timed out after 30s";
       target ← getTargetId p;
       let made := mkEntry p target in
       _ ← set_vars (fun v' =>
              with_registry (JsMap.set name made (registry v')) v');
       mret made
   end).

Lemma post_pages_accepted (s : Settings) (dir : string) (str : string) :
  valid_name str ->
  post_pages s dir (Parsed (JString str))
  = (_ ← ensureBrowser s dir;
     v ← get_vars;
     entry ← entry_for str v;
     v ← get_vars;
     mret (json (GetPage (wsEndpoint v) str (targetId entry)))).
Proof.
  intros [Hne Hlen]. unfold post_pages.
  destruct str as [| c str]; [contradiction |].
  cbn [falsy is_string string_of Js.truthy negb orb].
  rewrite !bool_decide_eq_false_2; [reflexivity | lia | discriminate].
Qed.

Lemma entry_for_run (str : string) (sys sys' : Sys W) (entry : PageEntry) :
  entry_for str (vars sys) sys = (sys', inr entry) ->
  JsMap.get str (registry (vars sys')) = Some entry /\
  (vars sys' = vars sys \/
   vars sys'
   = with_registry (JsMap.set str entry (registry (vars sys))) (vars sys)).
Proof.
  destruct (JsMap.get str (registry (vars sys))) as [found |] eqn:Hget.
  - intros [= <- <-]. auto.
  - intros Hrun.
    apply bind_inr in Hrun as (c & s1 & Hc & Hrun).
    apply bind_inr in Hrun as (p & s2 & Hp & Hrun).
    apply bind_inr in Hrun as (target & s3 & Ht & Hrun).
    apply same_vars in Hc; [| intros P; apply keeps_the_context].
    apply same_vars in Hp; [| intros P; apply triple_withTimeout].
    apply same_vars in Ht; [| intros P; apply keeps_getTargetId].
    injection Hrun as <- <-. cbn [vars with_registry registry].
    rewrite Ht, Hp, Hc. split; [apply JsMapFacts.get_set_eq | right].
    reflexivity.
Qed.

Lemma entry_for_throws (P : Vars -> Prop) (str : string) (v : Vars) :
  triple P (entry_for str v : SM W PageEntry) P (fun _ _ => True).
Proof.
  destruct (JsMap.get str (registry v)); [intros sys _; exact I |].
  apply (triple_bind P P (fun _ => P)); [apply keeps_the_context |].
  intros c. apply (triple_bind P P (fun _ => P)); [apply triple_withTimeout |].
  intros p. apply (triple_bind P P (fun _ => P)); [apply keeps_getTargetId |].
  intros target sys _. exact I.
Qed.

Lemma launched_with_registry (r : JsMap.t string PageEntry) (v : Vars) :
  launched v -> launched (with_registry r v).
Proof. intros Hv. exact Hv. Qed.

(** X23: a [POST /pages] that answered 200 can be repeated: the same request
    right after it gives the same answer, changes nothing and does not call
    the host, so no second page is made for the name; and [GET /pages] then
    lists the name. *)
Theorem post_pages_again (s : Settings) (dir : string) (body : RequestBody)
    (sys sys' : Sys W) (resp : Response) :
  post_pages s dir body sys = (sys', inr resp) ->
  code resp = 200 ->
  post_pages s dir body sys' = (sys', inr resp) /\
  exists str pages,
    body = Parsed (JString str) /\
    get_pages sys' = (sys', inr (json (ListPages pages))) /\
    str ∈ pages.
Proof.
  intros Hrun Hcode.
  destruct (classic_name body) as [(str & -> & Hname) | Hbad]; cycle 1.
  { destruct (post_pages_invalid_answer s dir body sys sys' _ Hbad Hrun)
      as [_ Hbadcode]. rewrite Hcode in Hbadcode. discriminate. }
  rewrite (post_pages_accepted s dir str Hname) in Hrun |- *.
  apply bind_inr in Hrun as ([] & s1 & Hensure & Hrun).
  apply bind_inr in Hrun as (v & s1' & [= <- <-] & Hrun).
  apply bind_inr in Hrun as (entry & s2 & Hentry & [= <- <-]).
  apply ensureBrowser_success in Hensure.
  apply entry_for_run in Hentry as [Hget Hvars].
  assert (launched (vars s2)) as Hlaunched
    by (destruct Hvars as [-> | ->]; exact Hensure).
  split.
  - rewrite sm_bind, (ensureBrowser_launched s dir s2 Hlaunched).
    rewrite sm_bind. unfold get_vars at 1. rewrite sm_bind, Hget.
    reflexivity.
  - exists str, (JsMap.keys (registry (vars s2))).
    split; [reflexivity |]. split; [reflexivity |].
    apply JsMapFacts.get_keys. rewrite Hget. eauto.
Qed.

Lemma keeps_launchBrowser_of (P : Vars -> Prop) (s : Settings) (dir : string) :
  (forall c v, P v -> P (with_context c v)) ->
  (forall e v, P v -> P (with_internalWsEndpoint e v)) ->
  (forall e v, P v -> P (with_wsEndpoint e v)) ->
  keeps P (launchBrowser s dir : SM W unit).
Proof.
  intros Hcontext Hinternal Hws. unfold launchBrowser.
  apply keeps_get_bind. intros v.
  apply (triple_pre P); [| intros v0 [Hv0 _]; exact Hv0].
  destruct (bool_decide (is_Some (context v))); [apply triple_ret |].
  apply keeps_bind; [apply triple_host_call |]. intros c.
  apply keeps_bind; [apply triple_set; apply Hcontext |]. intros ?.
  apply keeps_bind; [apply keeps_fetchWithRetry |]. intros res.
  apply keeps_bind; [apply triple_of_result |]. intros internal.
  apply keeps_bind; [apply triple_set; apply Hinternal |]. intros ?.
  apply keeps_bind; [apply triple_of_result |]. intros wsPath.
  apply triple_set. apply Hws.
Qed.

Lemma keeps_ensureBrowser_of (P : Vars -> Prop) (s : Settings) (dir : string) :
  (forall c v, P v -> P (with_context c v)) ->
  (forall e v, P v -> P (with_internalWsEndpoint e v)) ->
  (forall e v, P v -> P (with_wsEndpoint e v)) ->
  (forall p v, P v -> P (with_browserLaunching p v)) ->
  keeps P (ensureBrowser s dir : SM W unit).
Proof.
  intros Hcontext Hinternal Hws Hlaunching. unfold ensureBrowser.
  apply keeps_get_bind. intros v.
  apply (triple_pre P); [| intros v0 [Hv0 _]; exact Hv0].
  destruct (bool_decide (is_Some (context v))); [apply triple_ret |].
  destruct (browserLaunching v); [apply triple_of_result |].
  intros sys Hsys.
  pose proof (keeps_launchBrowser_of P s dir Hcontext Hinternal Hws sys Hsys)
    as Hlaunch.
  destruct (launchBrowser s dir sys) as [sys1 [e | []]];
    cbn [vars]; apply Hlaunching; exact Hlaunch.
Qed.

(** X24: a [POST /pages] that throws registers nothing: the registry is as it
    was, also when the page had been made before the failure (its target id
    could not be read), in which case the page stays open without a name. *)
Theorem post_pages_throws (s : Settings) (dir : string) (body : RequestBody)
    (sys sys' : Sys W) (e : Exn) :
  post_pages s dir body sys = (sys', inl e) ->
  registry (vars sys') = registry (vars sys).
Proof.
  intros Hrun.
  destruct (classic_name body) as [(str & -> & Hname) | Hbad]; cycle 1.
  { destruct (post_pages_invalid_answer s dir body sys sys' _ Hbad Hrun)
      as [-> _]. reflexivity. }
  rewrite (post_pages_accepted s dir str Hname) in Hrun.
  set (P := fun v => registry v = registry (vars sys)).
  assert (triple P
            (_ ← ensureBrowser s dir;
             v ← get_vars;
             entry ← entry_for str v;
             v ← get_vars;
             mret (json (GetPage (wsEndpoint v) str (targetId entry))))
            P (fun _ _ => True)) as Hpost.
  { apply (triple_bind P P (fun _ => P)).
    { apply keeps_ensureBrowser_of; intros ? v Hv; exact Hv. }
    intros _. apply (triple_bind P P (fun v v' => P v' /\ v = v'));
      [apply triple_get |].
    intros v. apply (triple_pre P); [| intros v0 [Hv0 _]; exact Hv0].
    apply (triple_bind P P (fun _ _ => True)); [apply entry_for_throws |].
    intros entry sys0 _. exact I. }
  specialize (Hpost sys eq_refl). rewrite Hrun in Hpost. exact Hpost.
Qed.

(** *** [DELETE /pages/:name] *)

Lemma get_map_delete_ne {V} (k name : string) (m : JsMap.t string V) :
  k <> name -> JsMap.get k (map_delete name m) = JsMap.get k m.
Proof.
  intros Hne. induction m as [| [k' v] m IH]; [reflexivity |].
  cbn [map_delete JsMap.get].
  destruct (decide (name = k')) as [<- | Hk'].
  - rewrite decide_False by exact Hne. reflexivity.
  - cbn [JsMap.get]. rewrite IH. reflexivity.
Qed.

Lemma keys_map_delete {V} (name : string) (m : JsMap.t string V) :
  NoDup (JsMap.keys m) -> name ∉ JsMap.keys (map_delete name m).
Proof.
  unfold JsMap.keys. induction m as [| [k' v] m IH]; intros Hm.
  - apply not_elem_of_nil.
  - cbn [map_delete]. apply NoDup_cons in Hm as [Hk' Hm].
    destruct (decide (name = k')) as [<- | Hne]; [exact Hk' |].
    cbn. apply not_elem_of_cons. split; [exact Hne | apply IH, Hm].
Qed.

Lemma map_delete_absent {V} (name : string) (m : JsMap.t string V) :
  name ∉ JsMap.keys m -> map_delete name m = m.
Proof.
  unfold JsMap.keys. induction m as [| [k' v] m IH]; [reflexivity |].
  cbn. intros Hm. apply not_elem_of_cons in Hm as [Hne Hm].
  rewrite decide_False by exact Hne. rewrite IH by exact Hm. reflexivity.
Qed.

(** X25: [DELETE /pages/:name].  An unknown name answers 404 and nothing
    changes.  A known name whose page closes answers 200 with one call of
    [close] on that page; the name is gone from the registry afterwards and
    every other name keeps its entry.  When closing the page is rejected the
    handler throws and the name stays registered. *)
Theorem delete_page_outcomes (param name : string) (sys : Sys W) :
  decodeURIComponent param = inr name ->
  NoDup (JsMap.keys (registry (vars sys))) ->
  match JsMap.get name (registry (vars sys)) with
  | None =>
      delete_page param sys
      = (sys, inr (status_json 404 (Failure "page not found")))
  | Some entry =>
      match closePage (page entry) (world sys) with
      | (w1, inr _) =>
          exists r',
            delete_page param sys
            = (mkSys (with_registry r' (vars sys)) w1
                 (calls sys ++ [ClosePage (page entry)]),
               inr (json Success)) /\
            JsMap.get name r' = None /\
            forall k, k <> name ->
              JsMap.get k r' = JsMap.get k (registry (vars sys))
      | (w1, inl e) =>
          delete_page param sys
          = (mkSys (vars sys) w1 (calls sys ++ [ClosePage (page entry)]),
             inl e)
      end
  end.
Proof.
  intros Hname Hnodup. unfold delete_page. rewrite Hname.
  unfold mbind, SM_bind, of_result, get_vars. cbn beta iota.
  destruct (JsMap.get name (registry (vars sys))) as [entry |] eqn:Hget;
    [| reflexivity].
  unfold host_call.
  destruct (closePage (page entry) (world sys)) as [w1 [e | []]];
    [reflexivity |].
  exists (map_delete name (registry (vars sys))).
  pose proof (keys_map_delete name _ Hnodup) as Hgone.
  split; [| split].
  - unfold on_page_close, set_vars, mret, SM_ret.
    cbn [vars world calls with_registry registry].
    rewrite (map_delete_absent name _ Hgone). reflexivity.
  - destruct (JsMap.get name (map_delete name (registry (vars sys))))
      as [x |] eqn:Hx; [| reflexivity].
    exfalso. apply Hgone. apply JsMapFacts.get_keys. rewrite Hx. eauto.
  - intros k Hk. apply get_map_delete_ne. exact Hk.
Qed.

(** *** Upgrade requests *)

(** X26: the [upgrade] listener never throws, and what it does with the
    socket is decided as follows.  For a URL that does not start with
    [/devtools], or without URL, the socket is destroyed and nothing else
    happens: the browser is not launched.  For a [/devtools] URL the browser
    is ensured first; when that throws the socket is destroyed; otherwise the
    socket is handed to the WebSocket server, and destroyed after that only
    when the hand-over throws. *)
Theorem on_upgrade_outcomes (s : Settings) (dir : string)
    (url : option string) (socket : Socket) (sys : Sys W) :
  (devtools_url url = false ->
   on_upgrade s dir url socket sys
   = (mkSys (vars sys) (destroySocket socket (world sys))
        (calls sys ++ [DestroySocket socket]),
      inr Destroyed)) /\
  (devtools_url url = true ->
   forall s1 e,
     ensureBrowser s dir sys = (s1, inl e) ->
     on_upgrade s dir url socket sys
     = (mkSys (vars s1) (destroySocket socket (world s1))
          (calls s1 ++ [DestroySocket socket]),
        inr Destroyed)) /\
  (devtools_url url = true ->
   forall s1 w,
     ensureBrowser s dir sys = (s1, inr ()) ->
     handleUpgrade socket (default "" url) (world s1) = (w, inr ()) ->
     launched (vars s1) /\
     on_upgrade s dir url socket sys
     = (mkSys (vars s1) w (calls s1 ++ [Upgrade socket (default "" url)]),
        inr Upgraded)) /\
  (devtools_url url = true ->
   forall s1 w e,
     ensureBrowser s dir sys = (s1, inr ()) ->
     handleUpgrade socket (default "" url) (world s1) = (w, inl e) ->
     on_upgrade s dir url socket sys
     = (mkSys (vars s1) (destroySocket socket w)
          (calls s1 ++
           [Upgrade socket (default "" url); DestroySocket socket]),
        inr Destroyed)).
Proof.
  unfold on_upgrade. split; [| split; [| split]].
  - intros ->. reflexivity.
  - intros -> s1 e Hensure. unfold catching. rewrite sm_bind, Hensure.
    reflexivity.
  - intros -> s1 w Hensure Hupgrade.
    split; [exact (ensureBrowser_success s dir sys s1 Hensure) |].
    unfold catching. rewrite sm_bind, Hensure. rewrite sm_bind.
    unfold host_call. rewrite Hupgrade. reflexivity.
  - intros -> s1 w e Hensure Hupgrade.
    unfold catching. rewrite sm_bind, Hensure. rewrite sm_bind.
    unfold host_call. rewrite Hupgrade.
    rewrite sm_bind. unfold host_do. cbn [vars world calls].
    rewrite <- app_assoc. reflexivity.
Qed.

(** *** Shutting down *)

Lemma destroy_all_run (sockets : list Socket) (sys : Sys W) :
  exists w,
    destroy_all sockets sys
    = (mkSys (vars sys) w (calls sys ++ (DestroySocket <$> sockets)), inr ()).
Proof.
  revert sys. induction sockets as [| socket rest IH]; intros sys.
  - exists (world sys). cbn. rewrite app_nil_r. destruct sys; reflexivity.
  - cbn [destroy_all]. rewrite sm_bind. unfold host_do.
    edestruct IH as [w ->]. exists w. cbn [vars world calls fmap list_fmap].
    rewrite <- app_assoc. reflexivity.
Qed.

Lemma close_all_run (entries : list PageEntry) (sys : Sys W) :
  exists w,
    close_all entries sys
    = (mkSys (vars sys) w
         (calls sys ++ ((fun entry => ClosePage (page entry)) <$> entries)),
       inr ()).
Proof.
  revert sys. induction entries as [| entry rest IH]; intros sys.
  - exists (world sys). cbn. rewrite app_nil_r. destruct sys; reflexivity.
  - cbn [close_all]. rewrite sm_bind. unfold catching. rewrite sm_bind.
    unfold host_call.
    destruct (closePage (page entry) (world sys)) as [w1 [e | []]];
      cbn [mret SM_ret];
      edestruct IH as [w ->]; exists w; cbn [vars world calls fmap list_fmap];
      rewrite <- app_assoc; reflexivity.
Qed.

Lemma cleanup_run (sys : Sys W) :
  cleaningUp (vars sys) = false ->
  exists w,
    cleanup sys
    = (mkSys (with_registry [] (with_connections []
                (with_cleaningUp true (vars sys)))) w
         (calls sys ++ (DestroySocket <$> connections (vars sys)) ++
          ((fun entry => ClosePage (page entry)) <$>
             JsMap.values (registry (vars sys))) ++
          match context (vars sys) with
          | Some c => [CloseContext c]
          | None => []
          end ++ [CloseServer]),
       inr ()).
Proof.
  intros Hfirst. unfold cleanup. rewrite sm_bind. unfold get_vars at 1.
  rewrite Hfirst. rewrite sm_bind. unfold set_vars at 1. rewrite sm_bind.
  edestruct destroy_all_run as [w1 ->]. cbn [vars world calls].
  rewrite sm_bind. unfold set_vars at 1. cbn [vars world calls].
  rewrite sm_bind. unfold get_vars at 1. cbn [vars world calls].
  rewrite sm_bind.
  edestruct close_all_run as [w2 ->]. cbn [vars world calls].
  rewrite sm_bind. unfold set_vars at 1. cbn [vars world calls].
  rewrite sm_bind. unfold get_vars at 1. cbn [vars world calls].
  rewrite sm_bind.
  cbn [with_registry with_connections with_cleaningUp context registry
       connections wsEndpoint internalWsEndpoint browserLaunching cleaningUp].
  destruct (context (vars sys)) as [c |].
  - unfold catching, host_call. cbn [vars world calls].
    destruct (closeContext c w2) as [w3 [e | []]]; eexists;
      unfold mret, SM_ret, host_do; cbn [vars world calls];
      rewrite <- !app_assoc; reflexivity.
  - eexists. unfold mret, SM_ret, host_do. cbn [vars world calls].
    rewrite <- !app_assoc. reflexivity.
Qed.

(** X27: the first [cleanup] destroys every tracked socket, then closes every
    registered page in the order of registration, then closes the browser
    context if there is one, then closes the server, whatever of these is
    rejected; it leaves no socket tracked and no page registered. *)
Theorem cleanup_closes_everything (sys : Sys W) :
  cleaningUp (vars sys) = false ->
  exists sys',
    cleanup sys = (sys', inr ()) /\
    registry (vars sys') = [] /\
    connections (vars sys') = [] /\
    cleaningUp (vars sys') = true /\
    calls sys'
    = (calls sys ++ (DestroySocket <$> connections (vars sys)) ++
       ((fun entry => ClosePage (page entry)) <$>
          JsMap.values (registry (vars sys))) ++
       match context (vars sys) with
       | Some c => [CloseContext c]
       | None => []
       end ++ [CloseServer])%list.
Proof.
  intros Hfirst. destruct (cleanup_run sys Hfirst) as [w Hrun].
  eexists. split; [exact Hrun |]. repeat split; reflexivity.
Qed.

(** X28: [cleanup] never throws ([socket.destroy] and [server.close] taken
    not to throw), and a second [cleanup] does nothing: it calls nothing of
    the host and changes no variable. *)
Theorem cleanup_once (sys : Sys W) :
  (cleanup sys).2 = inr () /\
  cleanup (cleanup sys).1 = ((cleanup sys).1, inr ()).
Proof.
  assert (forall x : Sys W, cleaningUp (vars x) = true ->
                            cleanup x = (x, inr ())) as Hdone.
  { intros x Hx. unfold cleanup. rewrite sm_bind. unfold get_vars.
    rewrite Hx. reflexivity. }
  destruct (cleaningUp (vars sys)) eqn:Hfirst.
  - rewrite (Hdone sys Hfirst). split; [reflexivity |].
    exact (Hdone sys Hfirst).
  - destruct (cleanup_run sys Hfirst) as [w ->]. split; [reflexivity |].
    apply Hdone. reflexivity.
Qed.

End Facts.

End ServerFacts.

(** ** The server on the small host *)

Module ServerWitnesses.

Import Cdp Server ServerSpec ServerFacts.

Local Abbreviation defaults := (settings_of MiniHost.no_options).
Local Abbreviation data_dir := "/srv/.browser-data".
Local Abbreviation fresh := (MiniHost.boot MiniHost.healthy).
Local Abbreviation no_launch :=
  (MiniHost.boot (MiniHost.mk [] true false false false 0)).
Local Abbreviation no_endpoint :=
  (MiniHost.boot
     (MiniHost.mk (replicate 5 (inl MiniHost.refused)) false false false false
        0)).
Local Abbreviation no_target :=
  (MiniHost.boot (MiniHost.mk [] false false true false 0)).
Local Abbreviation busy :=
  (mkSys (mkVars (Some 1%nat) None None None
            [("main", mkEntry 0%nat "target-0");
             ("side", mkEntry 1%nat "target-1")]
            [7%nat; 8%nat] false)
         MiniHost.healthy []).

Local Abbreviation slow_start :=
  (MiniHost.boot
     (MiniHost.mk [inl MiniHost.refused; inr MiniHost.unavailable] false false
        false false 0)).

Lemma fetchWithRetry_schedule_witness :
  exists j w0 w last,
    failed_turns "http://127.0.0.1:9223/json/version" 5 500 0 j
      (world slow_start) None w0 last /\
    fetch "http://127.0.0.1:9223/json/version" w0
    = (w, inr MiniHost.version_info) /\
    calls (fetchWithRetry "http://127.0.0.1:9223/json/version" None None
             slow_start).1
    = [Fetch "http://127.0.0.1:9223/json/version"; Sleep 500;
       Fetch "http://127.0.0.1:9223/json/version"; Sleep 1000;
       Fetch "http://127.0.0.1:9223/json/version"].
Proof.
  destruct (fetchWithRetry_schedule "http://127.0.0.1:9223/json/version"
              None None slow_start) as (k & w & out & _ & Hrun & Hout).
  assert (out = inr MiniHost.version_info) as ->.
  { apply (f_equal snd) in Hrun. cbn [snd] in Hrun. rewrite <- Hrun.
    vm_compute. reflexivity. }
  destruct Hout as (j & w0 & last & _ & Hturns & Hfetch & _).
  exists j, w0, w, last. split; [exact Hturns |]. split; [exact Hfetch |].
  vm_compute. reflexivity.
Defined.

Lemma serve_rejects_ports_witness :
  exists msg,
    serve (mkOptions (Some 9223) None None None None None) fresh
    = (fresh, inl (Error msg)).
Proof. apply serve_rejects_ports. cbn. lia. Defined.

Lemma serve_start_witness :
  calls (serve MiniHost.lazy_options fresh).1
  = [Mkdir data_dir; Listen 9222 "localhost"] /\
  (serve MiniHost.no_options no_launch).2
  = inl (Rejected "Failed to launch the browser process").
Proof.
  split.
  - edestruct (serve_start MiniHost.lazy_options fresh MiniHost.healthy)
      as [Hlazy _].
    + reflexivity.
    + reflexivity.
    + rewrite Hlazy; reflexivity.
  - edestruct (serve_start MiniHost.no_options no_launch (world no_launch))
      as [_ Heager].
    + reflexivity.
    + reflexivity.
    + erewrite Heager; reflexivity.
Defined.

Lemma ensureBrowser_failure_sticks_witness :
  ensureBrowser defaults data_dir (ensureBrowser defaults data_dir no_launch).1
  = ((ensureBrowser defaults data_dir no_launch).1,
     inl (Rejected "Failed to launch the browser process")) /\
  get_root defaults data_dir (ensureBrowser defaults data_dir no_endpoint).1
  = ((ensureBrowser defaults data_dir no_endpoint).1,
     inr (json (ServerInfo None))).
Proof.
  split.
  - edestruct (ensureBrowser_failure_sticks defaults data_dir no_launch)
      as [Hsticky _].
    + reflexivity.
    + apply Hsticky. reflexivity.
  - edestruct (ensureBrowser_failure_sticks defaults data_dir no_endpoint)
      as [_ Hlater].
    + vm_compute. reflexivity.
    + apply Hlater. vm_compute. eauto.
Defined.

Lemma post_pages_rejects_witness :
  (exists msg,
     post_pages defaults data_dir (Parsed (JString "")) fresh
     = (fresh, inr (status_json 400 (Failure msg))) /\
     msg <> "name cannot be empty") /\
  (exists msg, post_pages defaults data_dir NoBody fresh
               = (fresh, inl (Error msg))).
Proof.
  split.
  - apply (post_pages_rejects defaults data_dir (Parsed (JString "")) fresh).
    intros (str & [= <-] & [Hne _]). apply Hne. reflexivity.
  - apply (post_pages_rejects defaults data_dir NoBody fresh).
    intros (str & Hbody & _). discriminate.
Defined.

Lemma post_pages_again_witness :
  exists sys' resp,
    post_pages defaults data_dir (Parsed (JString "main")) fresh = (sys', inr resp) /\
    post_pages defaults data_dir (Parsed (JString "main")) sys' = (sys', inr resp).
Proof.
  eexists _, _. split; [vm_compute; reflexivity |].
  edestruct (post_pages_again defaults data_dir (Parsed (JString "main")) fresh)
    as [Hagain _].
  - vm_compute. reflexivity.
  - reflexivity.
  - exact Hagain.
Defined.

Lemma post_pages_throws_witness :
  registry (vars (post_pages defaults data_dir (Parsed (JString "main")) no_target).1)
  = [] /\
  NewPage 1%nat
    ∈ calls (post_pages defaults data_dir (Parsed (JString "main")) no_target).1.
Proof.
  split.
  - erewrite (post_pages_throws defaults data_dir (Parsed (JString "main")) no_target).
    + reflexivity.
    + vm_compute. reflexivity.
  - vm_compute. repeat constructor.
Defined.

Lemma delete_page_outcomes_witness :
  exists r',
    delete_page "main" busy
    = (mkSys (with_registry r' (vars busy)) MiniHost.healthy
         [ClosePage 0%nat],
       inr (json Success)) /\
    JsMap.get "main" r' = None /\
    forall k, k <> "main" ->
      JsMap.get k r' = JsMap.get k (registry (vars busy)).
Proof.
  assert (NoDup (JsMap.keys (registry (vars busy)))) as Hnodup
    by (cbn; apply NoDup_cons_2;
        [apply not_elem_of_cons; split;
         [discriminate | apply not_elem_of_nil]
        | apply NoDup_singleton]).
  assert (@decodeURIComponent MiniHost.t _ "main" = inr "main") as Hname
    by reflexivity.
  exact (delete_page_outcomes "main" "main" busy Hname Hnodup).
Defined.

Lemma on_upgrade_outcomes_witness :
  on_upgrade defaults data_dir (Some "/json") 7%nat fresh
  = (mkSys initial MiniHost.healthy [DestroySocket 7%nat], inr Destroyed) /\
  on_upgrade defaults data_dir (Some "/devtools/browser/abc") 7%nat busy
  = (mkSys (vars busy) MiniHost.healthy
       [Upgrade 7%nat "/devtools/browser/abc"],
     inr Upgraded) /\
  (on_upgrade defaults data_dir (Some "/devtools/browser/abc") 7%nat
     no_launch).2
  = inr Destroyed.
Proof.
  split; [| split].
  - destruct (on_upgrade_outcomes defaults data_dir (Some "/json") 7%nat
                fresh) as (Hother & _).
    rewrite Hother; reflexivity.
  - destruct (on_upgrade_outcomes defaults data_dir
                (Some "/devtools/browser/abc") 7%nat busy)
      as (_ & _ & Hhanded & _).
    edestruct Hhanded as [_ Hrun].
    + reflexivity.
    + reflexivity.
    + reflexivity.
    + rewrite Hrun. reflexivity.
  - destruct (on_upgrade_outcomes defaults data_dir
                (Some "/devtools/browser/abc") 7%nat no_launch)
      as (_ & Hfailed & _).
    erewrite Hfailed.
    + reflexivity.
    + reflexivity.
    + reflexivity.
Defined.

Lemma cleanup_closes_everything_witness :
  exists sys',
    cleanup busy = (sys', inr ()) /\
    calls sys'
    = [DestroySocket 7%nat; DestroySocket 8%nat; ClosePage 0%nat;
       ClosePage 1%nat; CloseContext 1%nat; CloseServer].
Proof.
  edestruct (cleanup_closes_everything busy)
    as (sys' & Hrun & _ & _ & _ & Hcalls).
  - reflexivity.
  - exists sys'. split; [exact Hrun | exact Hcalls].
Defined.

End ServerWitnesses.

(** ** The WebSocket proxy *)

Module ProxyFacts.

Import Proxy.

Section Facts.

Context {Data : Type}.

Implicit Types (c : Connection Data) (events : list (Event Data)).

Lemma chrome_sends_app (l1 l2 : list (Action Data)) :
  chrome_sends (l1 ++ l2) = (chrome_sends l1 ++ chrome_sends l2)%list.
Proof.
  induction l1 as [| a l1 IH]; [reflexivity |].
  destruct a; cbn [app chrome_sends]; rewrite IH; reflexivity.
Qed.

Lemma chrome_sends_flush (queue : list Data) :
  chrome_sends ((fun msg => ChromeSend msg None) <$> queue)
  = (fun msg => (msg, None)) <$> queue.
Proof.
  induction queue as [| msg queue IH]; [reflexivity |].
  cbn [fmap list_fmap chrome_sends]. f_equal. exact IH.
Qed.

Lemma received_app events1 events2 :
  received (events1 ++ events2) = (received events1 ++ received events2)%list.
Proof.
  induction events1 as [| e events1 IH]; [reflexivity |].
  destruct e; cbn [app received]; rewrite ?IH; reflexivity.
Qed.

Lemma run_app events1 events2 c :
  run (events1 ++ events2) c
  = let '(c1, first) := run events1 c in
    let '(c2, others) := run events2 c1 in
    (c2, (first ++ others)%list).
Proof.
  revert c. induction events1 as [| e events1 IH]; intros c.
  - cbn [app run]. destruct (run events2 c). reflexivity.
  - cbn [app run]. destruct (on e c) as [c1 first]. rewrite IH.
    destruct (run events1 c1) as [c2 others].
    destruct (run events2 c2) as [c3 last].
    rewrite app_assoc. reflexivity.
Qed.

Lemma run_conserves events c :
  ((chrome_sends (run events c).2).*1 ++ messageQueue (run events c).1
   ≡ₚ messageQueue c ++ received events)%list.
Proof.
  revert c. induction events as [| e events IH]; intros c.
  - cbn. rewrite app_nil_r. reflexivity.
  - cbn [run]. destruct (on e c) as [c1 first] eqn:Hon.
    specialize (IH c1). destruct (run events c1) as [c2 others].
    cbn [fst snd] in *. rewrite chrome_sends_app, fmap_app, <- app_assoc, IH.
    clear IH. destruct e; cbn [on received] in *;
      try (injection Hon as <- <-; cbn; reflexivity).
    + injection Hon as <- <-. rewrite chrome_sends_flush.
      cbn [messageQueue]. rewrite <- list_fmap_compose.
      cbn. rewrite list_fmap_id. reflexivity.
    + unfold chrome_on_message in Hon. injection Hon as <- <-.
      case_bool_decide; reflexivity.
    + unfold client_on_message in Hon.
      destruct (chromeReady c && bool_decide (chromeState = OPEN));
        injection Hon as <- <-.
      * cbn. rewrite Permutation_middle. reflexivity.
      * cbn [messageQueue chrome_sends fmap list_fmap app].
        rewrite <- app_assoc. reflexivity.
Qed.

(** X29: the proxy loses no message of the client and sends none twice
    ([send] taken not to throw):
    after any events on the two sockets, whatever their ready states were,
    the messages sent to the browser together with those still queued are
    the messages that the client sent. *)
Theorem proxy_conserves events :
  ((chrome_sends (run events connect).2).*1 ++
   messageQueue (run events connect).1
   ≡ₚ received events)%list.
Proof. exact (run_conserves events connect). Qed.

Lemma run_before_open events c :
  Forall not_open events ->
  chromeReady c = false ->
  exists actions,
    run events c
    = (mkConnection (messageQueue c ++ received events) false, actions) /\
    chrome_sends actions = [].
Proof.
  revert c. induction events as [| e events IH]; intros c Hevents Hc.
  - exists []. cbn. rewrite app_nil_r. destruct c; cbn in *; subst; auto.
  - apply Forall_cons in Hevents as [He Hevents]. cbn [run].
    destruct e; try contradiction;
      cbn [on received chrome_on_message chrome_on_close chrome_on_error
           client_on_close client_on_error];
      try (destruct (IH c Hevents Hc) as (actions & -> & Hsends);
           eexists; split; [reflexivity |];
           rewrite chrome_sends_app, Hsends, app_nil_r;
           try case_bool_decide; reflexivity).
    unfold client_on_message. rewrite Hc. cbn [andb].
    destruct (IH (mkConnection (messageQueue c ++ [data]) false) Hevents
                eq_refl) as (actions & -> & Hsends).
    eexists. split; [| exact Hsends]. cbn [messageQueue app].
    rewrite <- app_assoc. reflexivity.
Qed.

Lemma run_after_open events :
  Forall finds_open events ->
  exists actions,
    run events (mkConnection [] true) = (mkConnection [] true, actions) /\
    chrome_sends actions = flagged events.
Proof.
  induction events as [| e events IH]; intros Hevents.
  - exists []. auto.
  - apply Forall_cons in Hevents as [He Hevents]. cbn [run].
    destruct (IH Hevents) as (actions & Hrun & Hsends).
    destruct e;
      cbn [on flagged finds_open chrome_on_open chrome_on_message
           chrome_on_close chrome_on_error client_on_close client_on_error
           messageQueue fmap list_fmap] in *;
      try (rewrite Hrun; eexists; split; [reflexivity |];
           rewrite chrome_sends_app, Hsends;
           try case_bool_decide; reflexivity).
    unfold client_on_message. cbn [chromeReady andb].
    rewrite bool_decide_eq_true_2 by exact He. rewrite Hrun.
    eexists. split; [reflexivity |]. cbn. rewrite Hsends. reflexivity.
Qed.

(** X30: nothing is sent to the browser before its socket opens.  When it
    opens, the messages that the client sent until then are sent in their
    order, without the [binary] option that later messages are sent with;
    and when every later message finds the socket open, all messages of the
    client reach the browser in the order they came in and the queue stays
    empty. *)
Theorem proxy_in_order (before after : list (Event Data)) :
  Forall not_open before ->
  Forall finds_open after ->
  chrome_sends (run before connect).2 = [] /\
  messageQueue (run (before ++ ChromeOpen :: after) connect).1 = [] /\
  chrome_sends (run (before ++ ChromeOpen :: after) connect).2
  = (((fun msg => (msg, None)) <$> received before) ++ flagged after)%list.
Proof.
  intros Hbefore Hafter.
  destruct (run_before_open before connect Hbefore eq_refl)
    as (first & Hfirst & Hnone).
  destruct (run_after_open after Hafter) as (others & Hothers & Hsends).
  rewrite run_app, Hfirst. cbn [snd run on chrome_on_open messageQueue app].
  rewrite Hothers. cbn [fst snd messageQueue].
  split; [exact Hnone |]. split; [reflexivity |].
  rewrite !chrome_sends_app, Hnone, chrome_sends_flush, Hsends.
  reflexivity.
Qed.

End Facts.

End ProxyFacts.

Module ProxyWitnesses.

Import Proxy ProxyFacts.

Lemma proxy_in_order_witness :
  chrome_sends
    (run [ClientMessage "a" false CONNECTING;
          ClientMessage "b" true CONNECTING;
          ChromeOpen;
          ClientMessage "c" false OPEN] connect).2
  = [("a", None); ("b", None); ("c", Some false)].
Proof.
  destruct (proxy_in_order
              [ClientMessage "a" false CONNECTING;
               ClientMessage "b" true CONNECTING]
              [ClientMessage "c" false OPEN]) as (_ & _ & Hsends).
  - repeat constructor.
  - repeat constructor.
  - exact Hsends.
Defined.

End ProxyWitnesses.
